(** * OpenGPT: MCP connection registry, tool discovery and streaming translator

    A shallow embedding of three TypeScript units of the repository:

    - [lib/mcp-manager] (class [MCPServerManager], singleton [mcpManager]):
      the process-wide registry of connected MCP servers;
    - [app/api/mcp/discover/route.ts] ([POST]): one-shot tool discovery;
    - the agents run route ([POST], [ReadableStream.start]): translation of
      the run's event stream into wire frames.

    JavaScript values are modelled by [JsValue]; code that can throw and
    mutate state is written in the monad [Eff], whose computations return a
    completion (normal or abrupt) together with the final state, so that the
    effects performed before a [throw] are kept, as in JavaScript.
    [async]/[await] is sequential here: interleavings of concurrent requests
    are not modelled.  [console.log]/[console.error] output is not modelled. *)

From Stdlib Require Import String Ascii List Bool ZArith Lia.
From Stdlib Require Import DecimalString.
Import ListNotations.
Open Scope string_scope.
Set Warnings "-register-all".

(* ================================================================== *)
(** * JavaScript values *)
(* ================================================================== *)

(** Numbers are restricted to integers.  [JError] is an instance of
    [Error] with its [name] and [message]. *)
Inductive JsValue : Type :=
| JUndefined
| JNull
| JBool (b : bool)
| JNum (z : Z)
| JStr (s : string)
| JArr (elements : list JsValue)
| JObj (fields : list (string * JsValue))
| JError (name message : string).

(** ToBoolean. *)
Definition truthy (v : JsValue) : bool :=
  match v with
  | JUndefined | JNull => false
  | JBool b => b
  | JNum z => negb (z =? 0)%Z
  | JStr s => negb (s =? EmptyString)
  | JArr _ | JObj _ | JError _ _ => true
  end.

(** [a || b]. *)
Definition js_or (a b : JsValue) : JsValue := if truthy a then a else b.

Definition nullish (v : JsValue) : bool :=
  match v with
  | JUndefined | JNull => true
  | _ => false
  end.

Fixpoint lookup (k : string) (fields : list (string * JsValue)) : option JsValue :=
  match fields with
  | [] => None
  | (k', v) :: rest => if k =? k' then Some v else lookup k rest
  end.

(** Reading the property [k] of a value that is not nullish: the own data
    properties of an object, [message] and [name] of an error.  Properties
    inherited from the prototypes of objects, primitives and arrays are not
    modelled: none of the names read by the routes is one. *)
Definition get_property (v : JsValue) (k : string) : JsValue :=
  match v with
  | JObj fields => match lookup k fields with Some x => x | None => JUndefined end
  | JError n m =>
      if k =? "message" then JStr m
      else if k =? "name" then JStr n
      else JUndefined
  | _ => JUndefined
  end.

(** [v?.k]. *)
Definition opt_get (v : JsValue) (k : string) : JsValue :=
  if nullish v then JUndefined else get_property v k.

(** [v === 'lit'] for a string literal. *)
Definition is_str (v : JsValue) (lit : string) : bool :=
  match v with
  | JStr s => s =? lit
  | _ => false
  end.

(** [Array.isArray]. *)
Definition isArray (v : JsValue) : bool :=
  match v with
  | JArr _ => true
  | _ => false
  end.

Definition array_elements (v : JsValue) : list JsValue :=
  match v with
  | JArr l => l
  | _ => []
  end.

Definition quote : string := String (ascii_of_nat 34) EmptyString.
Definition newline : string := String (ascii_of_nat 10) EmptyString.

(** [Number.prototype.toString] on an integer. *)
Definition number_toString (z : Z) : string :=
  NilZero.string_of_int (Z.to_int z).

(** ToString, as used by template literals and string [+]. *)
Fixpoint toString (v : JsValue) : string :=
  match v with
  | JUndefined => "undefined"
  | JNull => "null"
  | JBool true => "true"
  | JBool false => "false"
  | JNum z => number_toString z
  | JStr s => s
  | JArr l =>
      (fix join (l : list JsValue) : string :=
         match l with
         | [] => EmptyString
         | x :: rest =>
             (if nullish x then EmptyString else toString x) ++
             match rest with
             | [] => EmptyString
             | _ :: _ => "," ++ join rest
             end
         end) l
  | JObj _ => "[object Object]"
  | JError n m => if m =? EmptyString then n else n ++ ": " ++ m
  end.

(** The [TypeError] of a property read on [null] or [undefined]
    (V8's wording). *)
Definition TypeError_read (v : JsValue) (k : string) : JsValue :=
  JError "TypeError"
    ("Cannot read properties of " ++ toString v ++ " (reading '" ++ k ++ "')").

(* ================================================================== *)
(** * Effects: state and exceptions *)
(* ================================================================== *)

Inductive Completion (A : Type) : Type :=
| Normal (a : A)
| Abrupt (thrown : JsValue).
Arguments Normal {A} a.
Arguments Abrupt {A} thrown.

Definition Eff (S A : Type) : Type := S -> Completion A * S.

Definition ret {S A} (a : A) : Eff S A := fun s => (Normal a, s).

Definition bind {S A B} (m : Eff S A) (k : A -> Eff S B) : Eff S B :=
  fun s =>
    match m s with
    | (Normal a, s') => k a s'
    | (Abrupt e, s') => (Abrupt e, s')
    end.

Definition throw {S A} (e : JsValue) : Eff S A := fun s => (Abrupt e, s).

Definition gets {S A} (f : S -> A) : Eff S A := fun s => (Normal (f s), s).

Definition modify {S} (f : S -> S) : Eff S unit := fun s => (Normal tt, f s).

(** [try { m } catch (error) { handler error }]. *)
Definition try_catch {S A} (m : Eff S A) (handler : JsValue -> Eff S A) : Eff S A :=
  fun s =>
    match m s with
    | (Normal a, s') => (Normal a, s')
    | (Abrupt e, s') => handler e s'
    end.

(** [try { m } finally { cleanup }]: the cleanup always runs; the
    completion of [m] is kept unless the cleanup itself throws. *)
Definition try_finally {S A} (m : Eff S A) (cleanup : Eff S unit) : Eff S A :=
  fun s =>
    match m s with
    | (c, s') =>
        match cleanup s' with
        | (Normal _, s'') => (c, s'')
        | (Abrupt e, s'') => (Abrupt e, s'')
        end
    end.

Declare Scope eff_scope.
Delimit Scope eff_scope with eff.
Notation "x <- c1 ;; c2" := (bind c1 (fun x => c2))
  (at level 61, c1 at next level, right associativity) : eff_scope.
Notation "c1 ;; c2" := (bind c1 (fun _ => c2))
  (at level 61, right associativity) : eff_scope.
Open Scope eff_scope.

(** [for (const x of l) { body x }] over an array that the body does not
    modify. *)
Fixpoint for_of {S A} (l : list A) (body : A -> Eff S unit) : Eff S unit :=
  match l with
  | [] => ret tt
  | x :: rest => body x ;; for_of rest body
  end.

(** [v.k]: throws a [TypeError] when [v] is [null] or [undefined]. *)
Definition prop {S} (v : JsValue) (k : string) : Eff S JsValue :=
  if nullish v then throw (TypeError_read v k) else ret (get_property v k).

(* ================================================================== *)
(** * MCP servers (the [@openai/agents] boundary) *)
(* ================================================================== *)

(** [interface MCPServerConfig], declared identically by the manager and
    by the discovery route.  [type] is kept as the string received at run
    time: both units compare it with string literals. *)
Record MCPServerConfig : Type := {
  id : string;
  name : string;
  type : string;
  command : option string;
  args : option (list string);
  env : option (list (string * string));
  url : option string
}.

(** A constructed server object: [obj] is its identity (allocation
    number), the rest are the options passed to the constructor. *)
Inductive MCPServer : Type :=
| MCPServerStdio (obj : nat) (name command : string) (args : list string)
    (env : option (list (string * string)))
| MCPServerStreamableHttp (obj : nat) (name url : string).

(** [s || dflt] on an optional string: [undefined] and the empty string
    are falsy. *)
Definition or_default (s : option string) (dflt : string) : string :=
  match s with
  | Some x => if x =? EmptyString then dflt else x
  | None => dflt
  end.

(** [config.args || []]: an array, even empty, is truthy. *)
Definition args_or_empty (a : option (list string)) : list string :=
  match a with
  | Some l => l
  | None => []
  end.

(** Calls made on server objects, in the order they happen. *)
Inductive Call : Type :=
| Construct (server : MCPServer)
| Connect (server : MCPServer)
| ListTools (server : MCPServer)
| Close (server : MCPServer).

Definition is_connect (c : Call) : bool :=
  match c with Connect _ => true | _ => false end.
Definition is_close (c : Call) : bool :=
  match c with Close _ => true | _ => false end.
Definition is_construct (c : Call) : bool :=
  match c with Construct _ => true | _ => false end.

Definition Call_eq_dec (a b : Call) : {a = b} + {a <> b}.
Proof.
  assert (Hs : forall x y : MCPServer, {x = y} + {x <> y}).
  { repeat decide equality. }
  decide equality.
Defined.

(** JS [Map] with string keys: an association list in insertion order.
    [set] on a key already present replaces the value in place. *)
Module JsMap.
Section JsMap.
Context {V : Type}.

Definition t : Type := list (string * V).

Definition empty : t := [].

Fixpoint has (k : string) (m : t) : bool :=
  match m with
  | [] => false
  | (k', _) :: rest => (k =? k') || has k rest
  end.

Fixpoint set (k : string) (v : V) (m : t) : t :=
  match m with
  | [] => [(k, v)]
  | (k', v') :: rest =>
      if k =? k' then (k', v) :: rest else (k', v') :: set k v rest
  end.

Definition values (m : t) : list V := map snd m.
Definition entries (m : t) : list (string * V) := m.
Definition keys (m : t) : list string := map fst m.
End JsMap.
Arguments t V : clear implicits.
End JsMap.

(* ================================================================== *)
(** * The connection registry: [class MCPServerManager] *)
(* ================================================================== *)

Module Registry.

(** The state of the process: the singleton [mcpManager] (its two private
    fields), the global [globalThis.__mcpConfigKey], the allocation
    counter of server objects and the calls made so far. *)
Record Process : Type := {
  servers : JsMap.t MCPServer;
  isInitialized : bool;
  mcpConfigKey : option string;
  next_object : nat;
  calls : list Call
}.

(** [new MCPServerManager()] in a fresh process. *)
Definition mcpManager : Process := {|
  servers := JsMap.empty;
  isInitialized := false;
  mcpConfigKey := None;
  next_object := 0;
  calls := []
|}.

Definition record (c : Call) : Eff Process unit :=
  modify (fun p => {| servers := servers p; isInitialized := isInitialized p;
                      mcpConfigKey := mcpConfigKey p;
                      next_object := next_object p;
                      calls := calls p ++ [c] |}).

Definition set_servers (m : JsMap.t MCPServer) : Eff Process unit :=
  modify (fun p => {| servers := m; isInitialized := isInitialized p;
                      mcpConfigKey := mcpConfigKey p;
                      next_object := next_object p;
                      calls := calls p |}).

Definition set_isInitialized (b : bool) : Eff Process unit :=
  modify (fun p => {| servers := servers p; isInitialized := b;
                      mcpConfigKey := mcpConfigKey p;
                      next_object := next_object p;
                      calls := calls p |}).

(** Allocation of a server object: returns the fresh identity. *)
Definition allocate : Eff Process nat :=
  fun p => (Normal (next_object p),
            {| servers := servers p; isInitialized := isInitialized p;
               mcpConfigKey := mcpConfigKey p;
               next_object := S (next_object p);
               calls := calls p |}).

(** The server object that [initializeServers] constructs for [config]:
    anything but ['stdio'] takes the HTTP branch. *)
Definition new_server (obj : nat) (config : MCPServerConfig) : MCPServer :=
  if type config =? "stdio" then
    MCPServerStdio obj (name config) (or_default (command config) "npx")
      (args_or_empty (args config)) (env config)
  else
    MCPServerStreamableHttp obj (name config)
      (or_default (url config) EmptyString).

Section Manager.
(** [JSON.stringify] on a configuration list. *)
Variable JSON_stringify : list MCPServerConfig -> string.
(** What [server.connect()] and [server.close()] do: [None] when the
    promise resolves, [Some e] when it rejects with [e]. *)
Variable connect_outcome : MCPServer -> option JsValue.
Variable close_outcome : MCPServer -> option JsValue.

Definition connect (server : MCPServer) : Eff Process unit :=
  record (Connect server) ;;
  match connect_outcome server with
  | None => ret tt
  | Some e => throw e
  end.

Definition close (server : MCPServer) : Eff Process unit :=
  record (Close server) ;;
  match close_outcome server with
  | None => ret tt
  | Some e => throw e
  end.

(** [globalThis] exists in every host of the route, so the [typeof]
    guards are taken; [x || ''] maps [undefined] and [''] to ['']. *)
Definition getCurrentConfigKey : Eff Process string :=
  gets (fun p => or_default (mcpConfigKey p) EmptyString).

Definition saveCurrentConfigKey (key : string) : Eff Process unit :=
  modify (fun p => {| servers := servers p; isInitialized := isInitialized p;
                      mcpConfigKey := Some key;
                      next_object := next_object p;
                      calls := calls p |}).

Definition getServers : Eff Process (list MCPServer) :=
  gets (fun p => JsMap.values (servers p)).

Definition closeAllServers : Eff Process unit :=
  entries <- gets (fun p => JsMap.entries (servers p)) ;;
  for_of entries (fun entry =>
    try_catch (close (snd entry)) (fun error => ret tt)) ;;
  set_servers JsMap.empty ;;
  set_isInitialized false.

(** The body of the [for (const config of configs)] loop. *)
Definition initialize_one (config : MCPServerConfig) : Eff Process unit :=
  try_catch
    (obj <- allocate ;;
     let server := new_server obj config in
     record (Construct server) ;;
     connect server ;;
     m <- gets servers ;;
     set_servers (JsMap.set (id config) server m))
    (fun error => ret tt).

Definition initializeServers (configs : list MCPServerConfig)
  : Eff Process (list MCPServer) :=
  let configKey := JSON_stringify configs in
  currentConfigKey <- getCurrentConfigKey ;;
  initialized <- gets isInitialized ;;
  if initialized && (configKey =? currentConfigKey) then
    getServers
  else
    initialized <- gets isInitialized ;;
    (if initialized then closeAllServers else ret tt) ;;
    for_of configs initialize_one ;;
    set_isInitialized true ;;
    saveCurrentConfigKey configKey ;;
    getServers.

Definition updateServers (configs : list MCPServerConfig) : Eff Process unit :=
  initializeServers configs ;; ret tt.
End Manager.

End Registry.

(** ** What reconciliation amounts to

    Pure descriptions of the connection loop, used to state what
    [initializeServers] leaves in the registry. *)

Module RegistrySpec.
Import Registry.

(** The server objects constructed for [configs], in order, when the
    allocation counter starts at [n]. *)
Fixpoint attempts (n : nat) (configs : list MCPServerConfig)
  : list (MCPServerConfig * MCPServer) :=
  match configs with
  | [] => []
  | config :: rest => (config, new_server n config) :: attempts (S n) rest
  end.

(** The calls made for one entry of the list. *)
Definition attempt_calls (a : MCPServerConfig * MCPServer) : list Call :=
  [Construct (snd a); Connect (snd a)].

Section Outcome.
Variable connect_outcome : MCPServer -> option JsValue.

Definition connected (a : MCPServerConfig * MCPServer) : bool :=
  match connect_outcome (snd a) with
  | None => true
  | Some _ => false
  end.

(** The map after the loop: every attempt that connected is stored
    under its configuration's id. *)
Fixpoint register (m : JsMap.t MCPServer)
    (l : list (MCPServerConfig * MCPServer)) : JsMap.t MCPServer :=
  match l with
  | [] => m
  | a :: rest =>
      register (if connected a then JsMap.set (id (fst a)) (snd a) m else m) rest
  end.
End Outcome.

(** The invariant of the manager between calls: a registry that is not
    initialized holds no server. *)
Definition registry_inv (p : Process) : Prop :=
  isInitialized p = false -> servers p = JsMap.empty.

(** The call reconnects: it does not take the early return. *)
Definition reconnects (JSON_stringify : list MCPServerConfig -> string)
    (configs : list MCPServerConfig) (p : Process) : bool :=
  negb (isInitialized p &&
        (JSON_stringify configs =? or_default (mcpConfigKey p) EmptyString)).

End RegistrySpec.

(** ** Sequences of registry operations *)

Module RegistryOps.
Import Registry RegistrySpec.

(** [Map.prototype.get]. *)
Fixpoint get {V} (k : string) (m : JsMap.t V) : option V :=
  match m with
  | [] => None
  | (k', v) :: rest => if k =? k' then Some v else get k rest
  end.

(** The identity of a server object. *)
Definition object_id (s : MCPServer) : nat :=
  match s with
  | MCPServerStdio obj _ _ _ _ => obj
  | MCPServerStreamableHttp obj _ _ => obj
  end.

(** A call of one of the public methods of [mcpManager]. *)
Inductive Operation : Type :=
| InitializeServers (configs : list MCPServerConfig)
| UpdateServers (configs : list MCPServerConfig)
| GetServers
| CloseAllServers.

Section Manager.
Variable JSON_stringify : list MCPServerConfig -> string.
Variable connect_outcome : MCPServer -> option JsValue.
Variable close_outcome : MCPServer -> option JsValue.

(** The call, its result dropped. *)
Definition perform (op : Operation) : Eff Process unit :=
  match op with
  | InitializeServers configs =>
      initializeServers JSON_stringify connect_outcome close_outcome configs ;;
      ret tt
  | UpdateServers configs =>
      updateServers JSON_stringify connect_outcome close_outcome configs
  | GetServers => getServers ;; ret tt
  | CloseAllServers => closeAllServers close_outcome
  end.

(** What holds of the registry between calls: a registry that is not
    initialized is empty, no key occurs twice, and every registered server
    is an object allocated earlier whose connect resolved. *)
Definition well_formed (p : Process) : Prop :=
  registry_inv p
  /\ NoDup (JsMap.keys (servers p))
  /\ Forall (fun s => connect_outcome s = None /\ object_id s < next_object p)
       (JsMap.values (servers p)).

(** The last entry of the loop, if any, that connected under key [k]. *)
Definition last_connected (k : string) (l : list (MCPServerConfig * MCPServer))
  : option (MCPServerConfig * MCPServer) :=
  find (fun a => connected connect_outcome a && (id (fst a) =? k)) (rev l).
End Manager.

End RegistryOps.

(* ================================================================== *)
(** * Tool discovery: [app/api/mcp/discover/route.ts] *)
(* ================================================================== *)

Module Discover.

(** [NextResponse.json(body, { status })]; the status is 200 when none is
    given. *)
Record NextResponse : Type := {
  status : nat;
  body : JsValue
}.

Definition json (b : JsValue) (s : nat) : NextResponse :=
  {| status := s; body := b |}.

(** What [await request.json()] gives: it rejects, or it resolves to a
    body whose [server] member is absent (falsy) or a configuration. *)
Definition NextRequest : Type := Completion (option MCPServerConfig).

(** The state of one invocation of the handler: its local variable
    [mcpServer], the allocation counter and the calls made so far. *)
Record Frame : Type := {
  mcpServer : option MCPServer;
  next_object : nat;
  calls : list Call
}.

Definition record (c : Call) : Eff Frame unit :=
  modify (fun w => {| mcpServer := mcpServer w; next_object := next_object w;
                      calls := calls w ++ [c] |}).

Definition set_mcpServer (s : option MCPServer) : Eff Frame unit :=
  modify (fun w => {| mcpServer := s; next_object := next_object w;
                      calls := calls w |}).

Definition allocate : Eff Frame nat :=
  fun w => (Normal (next_object w),
            {| mcpServer := mcpServer w; next_object := S (next_object w);
               calls := calls w |}).

Definition request_json (request : NextRequest) : Eff Frame (option MCPServerConfig) :=
  fun w => (request, w).

(** [toolsList.map(f)] for a callback that may throw. *)
Fixpoint map_array {S} (f : JsValue -> Eff S JsValue) (l : list JsValue)
  : Eff S (list JsValue) :=
  match l with
  | [] => ret []
  | x :: rest =>
      y <- f x ;;
      ys <- map_array f rest ;;
      ret (y :: ys)
  end.

(** The callback of [toolsList.map]. *)
Definition describe_tool (tool : JsValue) : Eff Frame JsValue :=
  tool_name <- prop tool "name" ;;
  tool_description <- prop tool "description" ;;
  ret (JObj [("name", js_or tool_name (JStr "Unknown Tool"));
             ("description",
              js_or tool_description (JStr "No description available"))]).

Section Route.
(** What the server object does: [connect] and [close] resolve ([None])
    or reject; [listTools] resolves to the catalog or rejects. *)
Variable connect_outcome : MCPServer -> option JsValue.
Variable listTools_outcome : MCPServer -> Completion (list JsValue).
Variable close_outcome : MCPServer -> option JsValue.

Definition connect (server : MCPServer) : Eff Frame unit :=
  record (Connect server) ;;
  match connect_outcome server with
  | None => ret tt
  | Some e => throw e
  end.

Definition listTools (server : MCPServer) : Eff Frame (list JsValue) :=
  record (ListTools server) ;;
  match listTools_outcome server with
  | Normal tools => ret tools
  | Abrupt e => throw e
  end.

Definition close (server : MCPServer) : Eff Frame unit :=
  record (Close server) ;;
  match close_outcome server with
  | None => ret tt
  | Some e => throw e
  end.

(** From [await mcpServer.connect()] to the success response. *)
Definition discover_tools (server : MCPServer) : Eff Frame NextResponse :=
  connect server ;;
  toolsList <- listTools server ;;
  tools <- map_array describe_tool toolsList ;;
  ret (json (JObj [("success", JBool true); ("tools", JArr tools)]) 200).

(** The [try] block. *)
Definition try_block (request : NextRequest) : Eff Frame NextResponse :=
  server <- request_json request ;;
  match server with
  | None =>
      ret (json (JObj [("error", JStr "Server configuration is required")]) 400)
  | Some server =>
      if type server =? "stdio" then
        obj <- allocate ;;
        let s := MCPServerStdio obj (name server)
                   (or_default (command server) "npx")
                   (args_or_empty (args server)) (env server) in
        record (Construct s) ;;
        set_mcpServer (Some s) ;;
        discover_tools s
      else if type server =? "http" then
        obj <- allocate ;;
        let s := MCPServerStreamableHttp obj (name server)
                   (or_default (url server) EmptyString) in
        record (Construct s) ;;
        set_mcpServer (Some s) ;;
        discover_tools s
      else
        ret (json (JObj [("error", JStr "Invalid server type")]) 400)
  end.

(** The [catch] block. *)
Definition catch_block (error : JsValue) : Eff Frame NextResponse :=
  message <- prop error "message" ;;
  ret (json
         (JObj [("error",
                 JStr ("Failed to discover tools: "
                       ++ toString (js_or message (JStr "Unknown error"))));
                ("tools", JArr [])])
         500).

(** The [finally] block. *)
Definition finally_block : Eff Frame unit :=
  s <- gets mcpServer ;;
  match s with
  | Some s => try_catch (close s) (fun error => ret tt)
  | None => ret tt
  end.

Definition POST (request : NextRequest) : Eff Frame NextResponse :=
  set_mcpServer None ;;
  try_finally (try_catch (try_block request) catch_block) finally_block.
End Route.

(** The state in which a handler invocation starts. *)
Definition entry : Frame := {| mcpServer := None; next_object := 0; calls := [] |}.

(** The servers on which the calls of a trace were made. *)
Definition constructed (l : list Call) : list MCPServer :=
  flat_map (fun c => match c with Construct s => [s] | _ => [] end) l.
Definition connected_to (l : list Call) : list MCPServer :=
  flat_map (fun c => match c with Connect s => [s] | _ => [] end) l.
Definition closed (l : list Call) : list MCPServer :=
  flat_map (fun c => match c with Close s => [s] | _ => [] end) l.

End Discover.

(** ** What a discovery amounts to *)

Module DiscoverSpec.
Import Discover.

(** The server object the handler constructs for a request, if it
    constructs one, when the allocation counter is [n]. *)
Definition target (request : NextRequest) (n : nat) : option MCPServer :=
  match request with
  | Normal (Some server) =>
      if type server =? "stdio" then
        Some (MCPServerStdio n (name server) (or_default (command server) "npx")
                (args_or_empty (args server)) (env server))
      else if type server =? "http" then
        Some (MCPServerStreamableHttp n (name server)
                (or_default (url server) EmptyString))
      else None
  | _ => None
  end.

(** The calls of [discover_tools]: a connect, then the listing when the
    connect resolved. *)
Definition discovery_calls (connect_outcome : MCPServer -> option JsValue)
    (s : MCPServer) : list Call :=
  match connect_outcome s with
  | None => [Connect s; ListTools s]
  | Some _ => [Connect s]
  end.

(** All the calls of one handler invocation. *)
Definition handler_calls (connect_outcome : MCPServer -> option JsValue)
    (request : NextRequest) (n : nat) : list Call :=
  match target request n with
  | Some s => Construct s :: discovery_calls connect_outcome s ++ [Close s]
  | None => []
  end.

(** The entry of the returned tool list for a catalog entry. *)
Definition described (tool : JsValue) : JsValue :=
  JObj [("name", js_or (get_property tool "name") (JStr "Unknown Tool"));
        ("description",
         js_or (get_property tool "description") (JStr "No description available"))].

End DiscoverSpec.

(** ** What a discovery answers *)

Module DiscoverOutcome.
Import Discover DiscoverSpec.

(** The response of the [catch] block for a thrown value. *)
Definition failure_response (error : JsValue) : NextResponse :=
  json (JObj [("error",
               JStr ("Failed to discover tools: "
                     ++ toString (js_or (get_property error "message")
                                    (JStr "Unknown error"))));
              ("tools", JArr [])])
    500.

(** The completion of the [catch] block: reading [message] of [null] or
    [undefined] throws in its turn. *)
Definition caught (error : JsValue) : Completion NextResponse :=
  if nullish error then Abrupt (TypeError_read error "message")
  else Normal (failure_response error).

(** The completion of [toolsList.map(...)]: the first entry that is
    [null] or [undefined] makes the callback throw. *)
Definition listing (tools : list JsValue) : Completion (list JsValue) :=
  match find nullish tools with
  | Some tool => Abrupt (TypeError_read tool "name")
  | None => Normal (map described tools)
  end.

Section Route.
Variable connect_outcome : MCPServer -> option JsValue.
Variable listTools_outcome : MCPServer -> Completion (list JsValue).

(** The completion of [discover_tools] on a constructed server. *)
Definition discovered (s : MCPServer) : Completion NextResponse :=
  match connect_outcome s with
  | Some e => Abrupt e
  | None =>
      match listTools_outcome s with
      | Abrupt e => Abrupt e
      | Normal tools =>
          match listing tools with
          | Abrupt e => Abrupt e
          | Normal infos =>
              Normal (json (JObj [("success", JBool true);
                                  ("tools", JArr infos)]) 200)
          end
      end
  end.

(** The completion of the handler when the allocation counter is [n]. *)
Definition answer (request : NextRequest) (n : nat) : Completion NextResponse :=
  match request with
  | Abrupt e => caught e
  | Normal None =>
      Normal (json (JObj [("error", JStr "Server configuration is required")])
                400)
  | Normal (Some server) =>
      match target request n with
      | None => Normal (json (JObj [("error", JStr "Invalid server type")]) 400)
      | Some s =>
          match discovered s with
          | Normal response => Normal response
          | Abrupt e => caught e
          end
      end
  end.
End Route.

End DiscoverOutcome.

(* ================================================================== *)
(** * Server management: [app/api/mcp/manage/route.ts] *)
(* ================================================================== *)

Module Manage.
Import Registry.

(** The members that the destructuring binds, for a body that is not
    [null]: [servers] is the array of configurations, the type
    [updateServers] declares for it, when the body has one, and [None]
    when the member is missing or falsy. *)
Record Body : Type := {
  action : JsValue;
  servers : option (list MCPServerConfig)
}.

(** What [const { action, servers } = await request.json()] gives: it
    binds the two members, or it throws, because the body cannot be read
    or because it is [null], which cannot be destructured. *)
Definition NextRequest : Type := Completion Body.

Definition request_json (request : NextRequest) : Eff Process Body :=
  fun p => (request, p).

(** [servers || []]. *)
Definition servers_or_empty (s : option (list MCPServerConfig))
  : list MCPServerConfig :=
  match s with
  | Some l => l
  | None => []
  end.

Section Route.
Variable JSON_stringify : list MCPServerConfig -> string.
Variable connect_outcome : MCPServer -> option JsValue.
Variable close_outcome : MCPServer -> option JsValue.

(** The [try] block. *)
Definition try_block (request : NextRequest) : Eff Process Discover.NextResponse :=
  body <- request_json request ;;
  if is_str (action body) "close_all" then
    closeAllServers close_outcome ;;
    ret (Discover.json
           (JObj [("success", JBool true);
                  ("message", JStr "All MCP servers closed")]) 200)
  else if is_str (action body) "update" then
    updateServers JSON_stringify connect_outcome close_outcome
      (servers_or_empty (servers body)) ;;
    ret (Discover.json
           (JObj [("success", JBool true);
                  ("message", JStr "MCP servers updated")]) 200)
  else
    ret (Discover.json (JObj [("error", JStr "Invalid action")]) 400).

(** The [catch] block. *)
Definition catch_block (error : JsValue) : Eff Process Discover.NextResponse :=
  message <- prop error "message" ;;
  ret (Discover.json
         (JObj [("error",
                 JStr ("Failed to manage MCP servers: "
                       ++ toString (js_or message (JStr "Unknown error"))))])
         500).

Definition POST (request : NextRequest) : Eff Process Discover.NextResponse :=
  try_catch (try_block request) catch_block.
End Route.

End Manage.

(* ================================================================== *)
(** * The streaming translator: [start] of the agents run route *)
(* ================================================================== *)

Module Agents.

(** What the [for await] loop sees of [streamResult]: events, then the
    end of the stream or a rejection. *)
Inductive AsyncIterable : Type :=
| Yield (event : JsValue) (rest : AsyncIterable)
| Return
| Reject (error : JsValue).

(** Operations on the [ReadableStream] controller. *)
Inductive ChannelOp : Type :=
| Enqueue (chunk : string)
| CloseChannel.

(** The state of one [start(controller)] call: the local [textContent],
    the operations made on the controller, in order, and the number of
    [Date.now()] readings taken. *)
Record Run : Type := {
  textContent : JsValue;
  channel : list ChannelOp;
  clock_reads : nat
}.

Definition controller_enqueue (chunk : string) : Eff Run unit :=
  modify (fun r => {| textContent := textContent r;
                      channel := channel r ++ [Enqueue chunk];
                      clock_reads := clock_reads r |}).

Definition controller_close : Eff Run unit :=
  modify (fun r => {| textContent := textContent r;
                      channel := channel r ++ [CloseChannel];
                      clock_reads := clock_reads r |}).

Definition set_textContent (v : JsValue) : Eff Run unit :=
  modify (fun r => {| textContent := v; channel := channel r;
                      clock_reads := clock_reads r |}).

(** [for await (const event of stream) { body event }]. *)
Fixpoint for_await {S} (stream : AsyncIterable) (body : JsValue -> Eff S unit)
  : Eff S unit :=
  match stream with
  | Yield event rest => body event ;; for_await rest body
  | Return => ret tt
  | Reject error => throw error
  end.

(** [array.filter(p)] and [array.map(f)] for callbacks that may throw. *)
Fixpoint filter_array {S} (p : JsValue -> Eff S bool) (l : list JsValue)
  : Eff S (list JsValue) :=
  match l with
  | [] => ret []
  | x :: rest =>
      keep <- p x ;;
      xs <- filter_array p rest ;;
      ret (if keep then x :: xs else xs)
  end.

Fixpoint map_array {S} (f : JsValue -> Eff S JsValue) (l : list JsValue)
  : Eff S (list JsValue) :=
  match l with
  | [] => ret []
  | x :: rest =>
      y <- f x ;;
      ys <- map_array f rest ;;
      ret (y :: ys)
  end.

(** [error instanceof Error]. *)
Definition instanceof_Error (v : JsValue) : bool :=
  match v with
  | JError _ _ => true
  | _ => false
  end.

(** The object of the final [done] frame. *)
Definition finishData : JsValue :=
  JObj [("type", JStr "done"); ("finish_reason", JStr "stop")].

(** The object of the [error] frame. *)
Definition errorData (error : JsValue) : JsValue :=
  JObj [("type", JStr "error");
        ("error", if instanceof_Error error then get_property error "message"
                  else JStr "Unknown error")].

Section Translator.
(** [JSON.stringify] on a value, and the successive readings of
    [Date.now()]. *)
Variable JSON_stringify : JsValue -> string.
Variable Date_now : nat -> Z.

(** The chunk [encoder.encode(`data: ${JSON.stringify(frame)}\n\n`)]. *)
Definition data_chunk (frame : JsValue) : string :=
  "data: " ++ JSON_stringify frame ++ newline ++ newline.

Definition send (frame : JsValue) : Eff Run unit :=
  controller_enqueue (data_chunk frame).

(** [Date.now().toString()]. *)
Definition Date_now_toString : Eff Run JsValue :=
  fun r => (Normal (JStr (number_toString (Date_now (clock_reads r)))),
            {| textContent := textContent r; channel := channel r;
               clock_reads := S (clock_reads r) |}).

(** The assignments to [toolArgs] and [toolResult] made by the
    [if]/[else if] chain, starting from ['{}'] and the placeholder. *)
Definition tool_args_and_result (rawItem : JsValue)
  : Eff Run (JsValue * JsValue) :=
  let toolArgs := JStr "{}" in
  let toolResult := JStr "Tool executed successfully" in
  if is_str (opt_get rawItem "type") "web_search_call"
     && truthy (opt_get rawItem "action") then
    action <- prop rawItem "action" ;;
    query <- prop action "query" ;;
    ret (JStr (JSON_stringify action),
         JStr ("Web search performed for: " ++ quote ++ toString query ++ quote
               ++ newline ++ newline
               ++ "Results are integrated into the response below."))
  else if is_str (opt_get rawItem "type") "hosted_tool_call"
          && truthy (opt_get (opt_get rawItem "providerData") "action") then
    providerData <- prop rawItem "providerData" ;;
    action <- prop providerData "action" ;;
    query <- prop action "query" ;;
    ret (JStr (JSON_stringify action),
         JStr ("Search query: " ++ quote ++ toString query ++ quote
               ++ newline ++ newline ++ "Results integrated into response."))
  else if truthy (opt_get rawItem "providerData") then
    providerData <- prop rawItem "providerData" ;;
    ret (JStr (JSON_stringify providerData), toolResult)
  else
    ret (toolArgs, toolResult).

(** The body of [if (eventName === 'tool_called' && ...)]. *)
Definition on_tool_called (item : JsValue) : Eff Run unit :=
  rawItem <- prop item "rawItem" ;;
  assigned <- tool_args_and_result rawItem ;;
  let toolArgs := fst assigned in
  toolResult <- (if truthy (opt_get rawItem "output")
                 then prop rawItem "output"
                 else ret (snd assigned)) ;;
  tool_call_id <- (if truthy (opt_get rawItem "id")
                   then ret (opt_get rawItem "id")
                   else Date_now_toString) ;;
  let toolData :=
    JObj [("type", JStr "tool_call_done");
          ("tool_name",
           js_or (js_or (opt_get rawItem "name") (opt_get rawItem "type"))
             (JStr "unknown"));
          ("tool_call_id", tool_call_id);
          ("arguments", toolArgs);
          ("result", toolResult);
          ("status", js_or (opt_get rawItem "status") (JStr "completed"))] in
  send toolData.

(** The callbacks of [annotations.filter(...).map(...)]. *)
Definition is_url_citation (ann : JsValue) : Eff Run bool :=
  ann_type <- prop ann "type" ;;
  ret (is_str ann_type "url_citation").

Definition url_and_title (ann : JsValue) : Eff Run JsValue :=
  ann_url <- prop ann "url" ;;
  ann_title <- prop ann "title" ;;
  ret (JObj [("url", ann_url); ("title", ann_title)]).

(** The body of [for (const contentItem of content)]. *)
Definition on_content_item (contentItem : JsValue) : Eff Run unit :=
  item_type <- prop contentItem "type" ;;
  if is_str item_type "output_text" then
    text <- prop contentItem "text" ;;
    if truthy text then
      set_textContent text ;;
      annotations <- prop contentItem "annotations" ;;
      (if truthy annotations && isArray annotations then
         cited <- filter_array is_url_citation (array_elements annotations) ;;
         urls <- map_array url_and_title cited ;;
         if (0 <? length urls)%nat then
           send (JObj [("type", JStr "tool_urls"); ("urls", JArr urls)])
         else ret tt
       else ret tt) ;;
      current <- gets textContent ;;
      send (JObj [("type", JStr "content"); ("content", current)])
    else ret tt
  else ret tt.

(** The body of [if (eventName === 'message_output_created' && ...)]. *)
Definition on_message_output (item : JsValue) : Eff Run unit :=
  rawItem <- prop item "rawItem" ;;
  let content := opt_get rawItem "content" in
  if truthy content && isArray content then
    for_of (array_elements content) on_content_item
  else ret tt.

(** The body of the [for await] loop. *)
Definition on_event (event : JsValue) : Eff Run unit :=
  event_type <- prop event "type" ;;
  if is_str event_type "run_item_stream_event" then
    eventName <- prop event "name" ;;
    item <- prop event "item" ;;
    (if is_str eventName "tool_called"
        && is_str (opt_get item "type") "tool_call_item"
     then on_tool_called item else ret tt) ;;
    (if is_str eventName "message_output_created"
        && is_str (opt_get item "type") "message_output_item"
     then on_message_output item else ret tt)
  else ret tt.

(** The iteration inside the [try] block. *)
Definition translate (streamResult : AsyncIterable) : Eff Run unit :=
  set_textContent (JStr EmptyString) ;;
  for_await streamResult on_event.

(** [async start(controller)]. *)
Definition start (streamResult : AsyncIterable) : Eff Run unit :=
  try_finally
    (try_catch
       (translate streamResult ;;
        send finishData)
       (fun error => send (errorData error)))
    controller_close.
End Translator.

(** The state in which [start] is called: nothing sent yet. *)
Definition fresh : Run :=
  {| textContent := JUndefined; channel := []; clock_reads := 0 |}.

End Agents.

(** ** What the translator emits *)

Module AgentsSpec.
Import Agents.

(** The [type] member of a frame object. *)
Definition frame_type (frame : JsValue) : JsValue := get_property frame "type".

(** Frames sent from inside the loop: the three non-terminal kinds. *)
Definition body_frame (frame : JsValue) : Prop :=
  frame_type frame = JStr "tool_call_done"
  \/ frame_type frame = JStr "tool_urls"
  \/ frame_type frame = JStr "content".

Definition of_type (t : string) (frames : list JsValue) : list JsValue :=
  filter (fun f => is_str (frame_type f) t) frames.

(** The frame that ends the stream, from the completion of the loop. *)
Definition terminal_frame (c : Completion unit) : JsValue :=
  match c with
  | Normal _ => finishData
  | Abrupt error => errorData error
  end.

(** The controller operation that carries a frame. *)
Definition enqueued (JSON_stringify : JsValue -> string) (frame : JsValue)
  : ChannelOp :=
  Enqueue (data_chunk JSON_stringify frame).

(** [appends P m]: whatever its completion, [m] only adds to the channel,
    and what it adds are frames satisfying [P]. *)
Definition appends (JSON_stringify : JsValue -> string) {A}
    (P : JsValue -> Prop) (m : Eff Run A) : Prop :=
  forall r, exists frames,
    Forall P frames
    /\ channel (snd (m r))
       = (channel r ++ map (enqueued JSON_stringify) frames)%list.

(** *** Tool calls *)

Definition is_web_search (rawItem : JsValue) : bool :=
  is_str (opt_get rawItem "type") "web_search_call"
  && truthy (opt_get rawItem "action").

Definition is_hosted_search (rawItem : JsValue) : bool :=
  is_str (opt_get rawItem "type") "hosted_tool_call"
  && truthy (opt_get (opt_get rawItem "providerData") "action").

Definition web_search_summary (query : JsValue) : string :=
  "Web search performed for: " ++ quote ++ toString query ++ quote
  ++ newline ++ newline ++ "Results are integrated into the response below.".

Definition hosted_search_summary (query : JsValue) : string :=
  "Search query: " ++ quote ++ toString query ++ quote
  ++ newline ++ newline ++ "Results integrated into response.".

(** The argument payload: the action of a search call, else the provider
    data when there is some, else ['{}']; the output plays no part. *)
Definition tool_arguments (JSON_stringify : JsValue -> string)
    (rawItem : JsValue) : JsValue :=
  if is_web_search rawItem then
    JStr (JSON_stringify (get_property rawItem "action"))
  else if is_hosted_search rawItem then
    JStr (JSON_stringify (get_property (get_property rawItem "providerData") "action"))
  else if truthy (opt_get rawItem "providerData") then
    JStr (JSON_stringify (get_property rawItem "providerData"))
  else JStr "{}".

(** The result: the output whenever there is one, for every kind of
    call; else the summary of a search call; else the placeholder. *)
Definition tool_result (rawItem : JsValue) : JsValue :=
  if truthy (opt_get rawItem "output") then get_property rawItem "output"
  else if is_web_search rawItem then
    JStr (web_search_summary (get_property (get_property rawItem "action") "query"))
  else if is_hosted_search rawItem then
    JStr (hosted_search_summary
            (get_property
               (get_property (get_property rawItem "providerData") "action")
               "query"))
  else JStr "Tool executed successfully".

(** The [tool_call_done] frame for [rawItem] when the clock reads [now]. *)
Definition tool_call_done (JSON_stringify : JsValue -> string) (now : Z)
    (rawItem : JsValue) : JsValue :=
  JObj [("type", JStr "tool_call_done");
        ("tool_name",
         if truthy (opt_get rawItem "name") then opt_get rawItem "name"
         else if truthy (opt_get rawItem "type") then opt_get rawItem "type"
         else JStr "unknown");
        ("tool_call_id",
         if truthy (opt_get rawItem "id") then opt_get rawItem "id"
         else JStr (number_toString now));
        ("arguments", tool_arguments JSON_stringify rawItem);
        ("result", tool_result rawItem);
        ("status",
         if truthy (opt_get rawItem "status") then opt_get rawItem "status"
         else JStr "completed")].

(** *** Message chunks *)

(** The [{url, title}] pairs of the [url_citation] annotations. *)
Definition citations (contentItem : JsValue) : list JsValue :=
  map (fun ann => JObj [("url", get_property ann "url");
                        ("title", get_property ann "title")])
    (filter (fun ann => is_str (get_property ann "type") "url_citation")
       (array_elements (get_property contentItem "annotations"))).

Definition tool_urls (urls : list JsValue) : JsValue :=
  JObj [("type", JStr "tool_urls"); ("urls", JArr urls)].

Definition content_frame (text : JsValue) : JsValue :=
  JObj [("type", JStr "content"); ("content", text)].

End AgentsSpec.

(** ** Events and chunks, as the loop sorts them *)

Module AgentsEvents.
Import Agents AgentsSpec.

(** The event is one of the two kinds the loop handles. *)
Definition recognized (event : JsValue) : bool :=
  is_str (get_property event "type") "run_item_stream_event"
  && ((is_str (get_property event "name") "tool_called"
       && is_str (opt_get (get_property event "item") "type") "tool_call_item")
      || (is_str (get_property event "name") "message_output_created"
          && is_str (opt_get (get_property event "item") "type")
               "message_output_item")).

(** The content item is a chunk of text that the loop sends. *)
Definition is_chunk (contentItem : JsValue) : bool :=
  is_str (get_property contentItem "type") "output_text"
  && truthy (get_property contentItem "text").

(** The frames sent for one content item. *)
Definition chunk_frames (contentItem : JsValue) : list JsValue :=
  if is_chunk contentItem then
    match citations contentItem with
    | [] => [content_frame (get_property contentItem "text")]
    | _ :: _ => [tool_urls (citations contentItem);
                 content_frame (get_property contentItem "text")]
    end
  else [].

(** A content item that the loop can handle without throwing: an object
    whose annotations, when it is a chunk, are objects. *)
Definition well_formed_item (contentItem : JsValue) : Prop :=
  nullish contentItem = false
  /\ (is_chunk contentItem = true ->
      Forall (fun ann => nullish ann = false)
        (array_elements (get_property contentItem "annotations"))).

(** The text held in [textContent] after the items: that of the last
    chunk, if any. *)
Fixpoint last_text (items : list JsValue) (current : JsValue) : JsValue :=
  match items with
  | [] => current
  | item :: rest =>
      last_text rest
        (if is_chunk item then get_property item "text" else current)
  end.

End AgentsEvents.

(** ** How the iteration ends, read off the stream *)

Module AgentsOutcome.
Import Agents AgentsSpec AgentsEvents.

(** The error that handling one content item throws, if any: the item is
    [null] or [undefined], or it is a chunk one of whose annotations is. *)
Definition item_failure (contentItem : JsValue) : option JsValue :=
  if nullish contentItem then Some (TypeError_read contentItem "type")
  else if is_chunk contentItem then
    match find nullish (array_elements (get_property contentItem "annotations")) with
    | Some ann => Some (TypeError_read ann "type")
    | None => None
    end
  else None.

(** The first error thrown over the items of a content array. *)
Fixpoint first_failure (items : list JsValue) : option JsValue :=
  match items with
  | [] => None
  | item :: rest =>
      match item_failure item with
      | Some error => Some error
      | None => first_failure rest
      end
  end.

(** The event is a [message_output_created] event on a
    [message_output_item]. *)
Definition is_message_output (event : JsValue) : bool :=
  is_str (get_property event "type") "run_item_stream_event"
  && is_str (get_property event "name") "message_output_created"
  && is_str (opt_get (get_property event "item") "type") "message_output_item".

(** The error that handling one event throws, if any: the event is [null]
    or [undefined], or it is a message whose content holds a failing
    item.  Tool calls and events of other kinds never throw. *)
Definition event_failure (event : JsValue) : option JsValue :=
  if nullish event then Some (TypeError_read event "type")
  else if is_message_output event then
    first_failure
      (array_elements
         (opt_get (get_property (get_property event "item") "rawItem") "content"))
  else None.

(** How the iteration over a stream ends: normally when the stream ends
    after events that are all handled, with the thrown value when the
    stream rejects or when handling an event throws, whichever comes
    first. *)
Fixpoint iteration (stream : AsyncIterable) : Completion unit :=
  match stream with
  | Return => Normal tt
  | Reject error => Abrupt error
  | Yield event rest =>
      match event_failure event with
      | Some error => Abrupt error
      | None => iteration rest
      end
  end.

End AgentsOutcome.

(* ================================================================== *)
(** * The agents run route: [POST] *)
(* ================================================================== *)

Module AgentsRoute.
Import Registry Agents.

(** The members that the destructuring binds, for a body that is not
    [null].  [files] is the array of attachments when the body has one,
    [None] when the member is missing or falsy.  [mcpServersConfig] is the
    array of configurations, the type the route casts it to, when the
    member is an array; it is [None] when the member is missing, falsy or
    not an array, the three cases in which the route skips it. *)
Record Body : Type := {
  message : JsValue;
  files : option (list JsValue);
  memoryContext : JsValue;
  apiKey : JsValue;
  model : JsValue;
  stream : JsValue;
  systemPrompt : JsValue;
  mcpServersConfig : option (list MCPServerConfig)
}.

(** What [const { message, ... } = await request.json()] gives: it binds
    the members, or it throws, because the body cannot be read or because
    it is [null], which cannot be destructured. *)
Definition NextRequest : Type := Completion Body.

(** [new Agent({ name: 'OpenGPT', instructions, model,
    tools: [webSearchTool()], mcpServers })]: the members that vary. *)
Record Agent : Type := {
  instructions : JsValue;
  agent_model : JsValue;
  mcpServers : option (list MCPServer)
}.

Record UserContext : Type := {
  context_apiKey : JsValue;
  context_systemPrompt : JsValue;
  context_memoryContext : JsValue
}.

(** Calls into the agents SDK, constructions included; [streamed] is the
    [stream: true] option. *)
Inductive SdkCall : Type :=
| SetDefaultOpenAIKey (key : JsValue)
| WebSearchTool
| NewAgent (agent : Agent)
| Run (agent : Agent) (input : JsValue) (context : UserContext) (streamed : bool).

(** The process: the registry and the SDK calls made so far. *)
Record Server : Type := {
  registry : Process;
  sdk : list SdkCall
}.

(** A JSON response, or the streaming response with the operations that
    [start] makes on its controller. *)
Inductive Response : Type :=
| Json (response : Discover.NextResponse)
| Streaming (headers : list (string * string)) (controller : list ChannelOp).

(** The headers set by [createStreamingResponse]. *)
Definition stream_headers : list (string * string) :=
  [("Content-Type", "text/stream"); ("Cache-Control", "no-cache");
   ("Connection", "keep-alive")].

Definition request_json (request : NextRequest) : Eff Server Body :=
  fun s => (request, s).

(** A method of [mcpManager] called from the route. *)
Definition lift {A} (m : Eff Process A) : Eff Server A :=
  fun s =>
    match m (registry s) with
    | (c, p) => (c, {| registry := p; sdk := sdk s |})
    end.

Definition sdk_call (c : SdkCall) : Eff Server unit :=
  modify (fun s => {| registry := registry s; sdk := sdk s ++ [c] |}).

(** [!files || files.length === 0]. *)
Definition no_files (f : option (list JsValue)) : bool :=
  match f with
  | Some (_ :: _) => false
  | _ => true
  end.

(** A destructuring default: it applies to [undefined] only. *)
Definition default_to (dflt v : JsValue) : JsValue :=
  match v with
  | JUndefined => dflt
  | _ => v
  end.

(** [v === n] for a number literal. *)
Definition is_num (v : JsValue) (n : Z) : bool :=
  match v with
  | JNum z => (z =? n)%Z
  | _ => false
  end.

(** The callback of [files.map]. *)
Definition file_content (file : JsValue) : Eff Server string :=
  file_type <- prop file "type" ;;
  is_image <- (if nullish file_type then ret false
               else match file_type with
                    | JStr s => ret (String.prefix "image/" s)
                    | _ => throw (JError "TypeError"
                                    "file.type?.startsWith is not a function")
                    end) ;;
  if is_image : bool then
    file_name <- prop file "name" ;;
    ret ("[Image: " ++ toString file_name ++ "]")
  else
    file_name <- prop file "name" ;;
    content <- prop file "content" ;;
    ret ("File: " ++ toString file_name ++ newline ++ newline ++ toString content).

Fixpoint map_files (l : list JsValue) : Eff Server (list string) :=
  match l with
  | [] => ret []
  | file :: rest =>
      text <- file_content file ;;
      texts <- map_files rest ;;
      ret (text :: texts)
  end.

(** Handle files in the message. *)
Definition message_content (body : Body) : Eff Server JsValue :=
  match files body with
  | Some (file :: rest) =>
      texts <- map_files (file :: rest) ;;
      ret (JStr (String.concat (newline ++ newline) texts
                 ++ newline ++ newline ++ toString (message body)))
  | _ => ret (message body)
  end.

(** The instructions given to the agent. *)
Definition build_instructions (systemPrompt memoryContext : JsValue) : JsValue :=
  if truthy memoryContext then
    JStr (toString systemPrompt ++ newline ++ newline
          ++ "Conversation context: " ++ toString memoryContext)
  else systemPrompt.

(** [mcpServers.length > 0 ? mcpServers : undefined]. *)
Definition servers_or_undefined (l : list MCPServer) : option (list MCPServer) :=
  match l with
  | [] => None
  | _ :: _ => Some l
  end.

(** The outer [catch] block. *)
Definition catch_block (error : JsValue) : Eff Server Response :=
  if is_num (opt_get error "status") 401 then
    ret (Json (Discover.json (JObj [("error", JStr "Invalid API key")]) 401))
  else if is_num (opt_get error "status") 429 then
    ret (Json (Discover.json (JObj [("error", JStr "Rate limit exceeded")]) 429))
  else if is_num (opt_get error "status") 400 then
    error_message <- prop error "message" ;;
    ret (Json (Discover.json
                 (JObj [("error",
                         JStr ("Bad request: "
                               ++ toString (js_or error_message
                                              (JStr "Invalid request format"))))])
                 400))
  else
    error_message <- prop error "message" ;;
    ret (Json (Discover.json
                 (JObj [("error",
                         JStr ("Internal server error: "
                               ++ toString (js_or error_message
                                              (JStr "Unknown error"))))])
                 500)).

Section Route.
(** [JSON.stringify] on configuration lists and on values, the clock, and
    what [run] does: it resolves to the event stream (with [stream: true])
    or to the final output, or it rejects. *)
Variable JSON_stringify_configs : list MCPServerConfig -> string.
Variable connect_outcome : MCPServer -> option JsValue.
Variable close_outcome : MCPServer -> option JsValue.
Variable JSON_stringify : JsValue -> string.
Variable Date_now : nat -> Z.
Variable run_streamed : Agent -> JsValue -> UserContext -> Completion AsyncIterable.
Variable run_final : Agent -> JsValue -> UserContext -> Completion JsValue.

Definition run_stream (agent : Agent) (input : JsValue) (context : UserContext)
  : Eff Server AsyncIterable :=
  sdk_call (Run agent input context true) ;;
  match run_streamed agent input context with
  | Normal streamResult => ret streamResult
  | Abrupt e => throw e
  end.

Definition run_once (agent : Agent) (input : JsValue) (context : UserContext)
  : Eff Server JsValue :=
  sdk_call (Run agent input context false) ;;
  match run_final agent input context with
  | Normal finalOutput => ret finalOutput
  | Abrupt e => throw e
  end.

(** Initialize or get existing MCP servers. *)
Definition obtain_servers (body : Body) : Eff Server (list MCPServer) :=
  match mcpServersConfig body with
  | Some (config :: configs) =>
      lift (initializeServers JSON_stringify_configs connect_outcome
              close_outcome (config :: configs))
  | _ => lift getServers
  end.

(** The [try] block after the two validations. *)
Definition respond (body : Body) : Eff Server Response :=
  sdk_call (SetDefaultOpenAIKey (apiKey body)) ;;
  servers <- obtain_servers body ;;
  let instructions := build_instructions (systemPrompt body) (memoryContext body) in
  messageContent <- message_content body ;;
  let agent := {| instructions := instructions;
                  agent_model := default_to (JStr "gpt-4o-mini") (model body);
                  mcpServers := servers_or_undefined servers |} in
  sdk_call WebSearchTool ;;
  sdk_call (NewAgent agent) ;;
  let context := {| context_apiKey := apiKey body;
                    context_systemPrompt := systemPrompt body;
                    context_memoryContext := memoryContext body |} in
  if truthy (default_to (JBool true) (stream body)) then
    streamResult <- run_stream agent messageContent context ;;
    ret (Streaming stream_headers
           (channel (snd (start JSON_stringify Date_now streamResult fresh))))
  else
    finalOutput <- run_once agent messageContent context ;;
    ret (Json (Discover.json
                 (JObj [("success", JBool true); ("message", finalOutput)]) 200)).

Definition try_block (request : NextRequest) : Eff Server Response :=
  body <- request_json request ;;
  if negb (truthy (message body)) && no_files (files body) then
    ret (Json (Discover.json
                 (JObj [("error", JStr "Message or files are required")]) 400))
  else if negb (truthy (apiKey body)) then
    ret (Json (Discover.json (JObj [("error", JStr "API key is required")]) 400))
  else respond body.

Definition POST (request : NextRequest) : Eff Server Response :=
  try_catch (try_block request) catch_block.
End Route.

End AgentsRoute.

(** ** What the run route sends to the agent *)

Module AgentsRouteSpec.
Import Registry Agents AgentsRoute.

(** An attachment that [files.map] can render: an object whose [type],
    when it has one, is a string. *)
Definition renderable (file : JsValue) : Prop :=
  nullish file = false
  /\ (nullish (get_property file "type") = true
      \/ exists s, get_property file "type" = JStr s).

Definition is_image (file : JsValue) : bool :=
  match get_property file "type" with
  | JStr s => String.prefix "image/" s
  | _ => false
  end.

(** The text that stands for an attachment in the prompt: a placeholder
    for an image, the name and the content for anything else. *)
Definition rendered (file : JsValue) : string :=
  if is_image file then
    "[Image: " ++ toString (get_property file "name") ++ "]"
  else
    "File: " ++ toString (get_property file "name") ++ newline ++ newline
    ++ toString (get_property file "content").

(** The input of the run: the message alone, or the attachments in
    order, then the message. *)
Definition prompt (body : Body) : JsValue :=
  match files body with
  | Some (file :: rest) =>
      JStr (String.concat (newline ++ newline) (map rendered (file :: rest))
            ++ newline ++ newline ++ toString (message body))
  | _ => message body
  end.

(** The request passes the two validations. *)
Definition complete (body : Body) : bool :=
  (truthy (message body) || negb (no_files (files body)))
  && truthy (apiKey body).

Definition attachments (body : Body) : list JsValue :=
  match files body with
  | Some l => l
  | None => []
  end.

(** A value whose conversion to a string is the one of [toString]: not
    an object, and, for a number, a safe integer, which JavaScript holds
    exactly and prints in plain decimal notation. *)
Definition plain (v : JsValue) : bool :=
  match v with
  | JUndefined | JNull | JBool _ | JStr _ => true
  | JNum z => (Z.abs z <? 2 ^ 53)%Z
  | JArr _ | JObj _ | JError _ _ => false
  end.

(** The values that the route splices into the instructions and into the
    input are plain. *)
Definition plain_texts (body : Body) : Prop :=
  plain (message body) = true
  /\ plain (systemPrompt body) = true
  /\ plain (memoryContext body) = true
  /\ Forall (fun file => plain (get_property file "name") = true
                         /\ plain (get_property file "content") = true)
       (attachments body).

Definition context_of (body : Body) : UserContext :=
  {| context_apiKey := apiKey body;
     context_systemPrompt := systemPrompt body;
     context_memoryContext := memoryContext body |}.

Definition streams (body : Body) : bool :=
  truthy (default_to (JBool true) (stream body)).

Section Route.
Variable JSON_stringify_configs : list MCPServerConfig -> string.
Variable connect_outcome : MCPServer -> option JsValue.
Variable close_outcome : MCPServer -> option JsValue.

(** The registry after the route has obtained its handles. *)
Definition reconciled (body : Body) (p : Process) : Process :=
  match mcpServersConfig body with
  | Some (config :: configs) =>
      snd (initializeServers JSON_stringify_configs connect_outcome close_outcome
             (config :: configs) p)
  | _ => p
  end.

(** The agent that the route constructs. *)
Definition agent_of (body : Body) (p : Process) : Agent :=
  {| instructions := build_instructions (systemPrompt body) (memoryContext body);
     agent_model := default_to (JStr "gpt-4o-mini") (model body);
     mcpServers :=
       servers_or_undefined (JsMap.values (servers (reconciled body p))) |}.
(** The state after the route has called [run]. *)
Definition after_run (body : Body) (s : Server) : Server :=
  {| registry := reconciled body (registry s);
     sdk := sdk s
            ++ [SetDefaultOpenAIKey (apiKey body);
                WebSearchTool;
                NewAgent (agent_of body (registry s));
                Run (agent_of body (registry s))
                  (prompt body) (context_of body) (streams body)] |}.

End Route.

(** [m] leaves the registry as it is. *)
Definition preserves_registry {A} (m : Eff Server A) : Prop :=
  forall s, registry (snd (m s)) = registry s.

End AgentsRouteSpec.

(* ================================================================== *)
(** * Concrete inputs *)
(* ================================================================== *)

(** Inputs and hosts on which the units are run in the examples below. *)
Module Sample.

Definition http (i n u : string) : MCPServerConfig :=
  {| id := i; name := n; type := "http"; command := None; args := None;
     env := None; url := Some u |}.

Definition stdio (i n : string) (c : option string) : MCPServerConfig :=
  {| id := i; name := n; type := "stdio"; command := c; args := None;
     env := None; url := None |}.

(** A serialisation of configuration lists that is order- and
    content-sensitive on the fields it prints. *)
Definition stringify_config (c : MCPServerConfig) : string :=
  "{" ++ id c ++ "," ++ name c ++ "," ++ type c ++ ","
      ++ or_default (command c) EmptyString ++ ","
      ++ or_default (url c) EmptyString ++ "}".

Definition stringify (configs : list MCPServerConfig) : string :=
  "[" ++ String.concat "," (map stringify_config configs) ++ "]".

Definition server_name (s : MCPServer) : string :=
  match s with
  | MCPServerStdio _ n _ _ _ => n
  | MCPServerStreamableHttp _ n _ => n
  end.

Definition refused : JsValue := JError "Error" "connection refused".

(** A host where exactly the servers named ["down"] refuse connections. *)
Definition connect_unless_down (s : MCPServer) : option JsValue :=
  if server_name s =? "down" then Some refused else None.

Definition always_ok (s : MCPServer) : option JsValue := None.
Definition always_fails (s : MCPServer) : option JsValue := Some refused.

Definition weather : MCPServerConfig := http "a" "weather" "http://x".
Definition files : MCPServerConfig := stdio "b" "files" (Some "node").
Definition down : MCPServerConfig := http "c" "down" "http://down".

(** Two entries that share the id ["a"]. *)
Definition weather_again : MCPServerConfig := http "a" "weather2" "http://y".

(** A catalog with a complete entry, an empty entry and an entry whose
    name is the empty string. *)
Definition catalog : list JsValue :=
  [JObj [("name", JStr "search"); ("description", JStr "Searches the web")];
   JObj [];
   JObj [("name", JStr EmptyString); ("description", JStr "Unnamed")]].

Definition lists_catalog (s : MCPServer) : Completion (list JsValue) :=
  Normal catalog.

Definition listing_fails (s : MCPServer) : Completion (list JsValue) :=
  Abrupt (JError "Error" "protocol error").

(** [{ type: "stdio" }] with a name and no [command]. *)
Definition bare_stdio : MCPServerConfig := stdio "s" "files" None.

(** A serialisation of values for the examples: JSON text, with strings
    printed between quotes as they are. *)
Fixpoint json (v : JsValue) : string :=
  match v with
  | JUndefined | JNull => "null"
  | JBool true => "true"
  | JBool false => "false"
  | JNum z => number_toString z
  | JStr s => quote ++ s ++ quote
  | JArr l =>
      "[" ++ (fix items (l : list JsValue) : string :=
                match l with
                | [] => EmptyString
                | x :: rest =>
                    json x ++ match rest with
                              | [] => EmptyString
                              | _ :: _ => "," ++ items rest
                              end
                end) l ++ "]"
  | JObj fields =>
      "{" ++ (fix members (l : list (string * JsValue)) : string :=
                match l with
                | [] => EmptyString
                | (k, x) :: rest =>
                    quote ++ k ++ quote ++ ":" ++ json x
                    ++ match rest with
                       | [] => EmptyString
                       | _ :: _ => "," ++ members rest
                       end
                end) fields ++ "}"
  | JError _ _ => "{}"
  end.

(** A clock that reads 1700000000000 and advances by one per reading. *)
Definition clock (n : nat) : Z := (1700000000000 + Z.of_nat n)%Z.

Definition run_item (event_name : string) (item : JsValue) : JsValue :=
  JObj [("type", JStr "run_item_stream_event"); ("name", JStr event_name);
        ("item", item)].

(** A web search for ["weather"]. *)
Definition web_search_call : JsValue :=
  JObj [("type", JStr "web_search_call");
        ("action", JObj [("query", JStr "weather")])].

(** The same call carrying an [output] as well. *)
Definition web_search_call_with_output : JsValue :=
  JObj [("type", JStr "web_search_call");
        ("action", JObj [("query", JStr "weather")]);
        ("output", JStr "raw results")].

Definition tool_called (rawItem : JsValue) : JsValue :=
  run_item "tool_called"
    (JObj [("type", JStr "tool_call_item"); ("rawItem", rawItem)]).

Definition citation : JsValue :=
  JObj [("type", JStr "url_citation"); ("url", JStr "http://w");
        ("title", JStr "Weather")].

Definition output_text (text : string) (annotations : list JsValue) : JsValue :=
  JObj [("type", JStr "output_text"); ("text", JStr text);
        ("annotations", JArr annotations)].

Definition message_output (content : list JsValue) : JsValue :=
  run_item "message_output_created"
    (JObj [("type", JStr "message_output_item");
           ("rawItem", JObj [("content", JArr content)])]).

End Sample.

(** More inputs for the examples. *)
Module Sample2.


(** A catalog whose first entry has an empty name and whose second entry
    is [null]. *)
Definition lists_unnamed_then_null (s : MCPServer) : Completion (list JsValue) :=
  Normal [JObj [("name", JStr EmptyString)]; JNull].

Definition weather_server : MCPServer :=
  MCPServerStreamableHttp 0 "weather" "http://x".

(** A chat request with one text file and one image, and no server list. *)
Definition notes : JsValue :=
  JObj [("name", JStr "notes.txt"); ("type", JStr "text/plain");
        ("content", JStr "buy milk")].

Definition photo : JsValue :=
  JObj [("name", JStr "cat.png"); ("type", JStr "image/png");
        ("content", JStr "89504e47")].

Definition chat : AgentsRoute.Body :=
  {| AgentsRoute.message := JStr "Summarize";
     AgentsRoute.files := Some [notes; photo];
     AgentsRoute.memoryContext := JStr "user likes cats";
     AgentsRoute.apiKey := JStr "sk-test";
     AgentsRoute.model := JUndefined;
     AgentsRoute.stream := JUndefined;
     AgentsRoute.systemPrompt := JStr "Be brief.";
     AgentsRoute.mcpServersConfig := None |}.

(** The same request without an API key. *)
Definition chat_without_key : AgentsRoute.Body :=
  {| AgentsRoute.message := JStr "Summarize";
     AgentsRoute.files := None;
     AgentsRoute.memoryContext := JUndefined;
     AgentsRoute.apiKey := JUndefined;
     AgentsRoute.model := JUndefined;
     AgentsRoute.stream := JUndefined;
     AgentsRoute.systemPrompt := JUndefined;
     AgentsRoute.mcpServersConfig := None |}.

Definition server0 : AgentsRoute.Server :=
  {| AgentsRoute.registry := Registry.mcpManager; AgentsRoute.sdk := [] |}.

(** A run that streams one message and ends. *)
Definition streams_hello (a : AgentsRoute.Agent) (input : JsValue)
    (c : AgentsRoute.UserContext) : Completion Agents.AsyncIterable :=
  Normal (Agents.Yield (Sample.message_output [Sample.output_text "Hello" []])
            Agents.Return).

(** A run that is refused for its credentials. *)
Definition unauthorized : JsValue :=
  JObj [("status", JNum 401); ("message", JStr "Incorrect API key provided")].

Definition stream_unauthorized (a : AgentsRoute.Agent) (input : JsValue)
    (c : AgentsRoute.UserContext) : Completion Agents.AsyncIterable :=
  Abrupt unauthorized.


Definition final_hello (a : AgentsRoute.Agent) (input : JsValue)
    (c : AgentsRoute.UserContext) : Completion JsValue :=
  Normal (JStr "Hello").

End Sample2.

(* ================================================================== *)
(** * The tool call panel: [ToolCallDisplay] *)
(* ================================================================== *)

(** Strings are read character by character.  The functions below follow
    JavaScript on ASCII text; the properties proved about them are stated
    for ASCII input. *)
Definition ascii_only (s : string) : Prop :=
  Forall (fun c => nat_of_ascii c < 128) (list_ascii_of_string s).

Module ToolCallDisplay.

(** [s.endsWith(suffix)], as the pattern [/suffix$/] tests it. *)
Definition ends_with (suffix s : string) : bool :=
  (String.length suffix <=? String.length s)%nat
  && (substring (String.length s - String.length suffix)
        (String.length suffix) s =? suffix).

(** [name.replace(/_call$/, '')]. *)
Definition strip_call (name : string) : string :=
  if ends_with "_call" name
  then substring 0 (String.length name - 5) name
  else name.

(** [s.replace(/_/g, ' ')], for single characters. *)
Fixpoint replace_all (from to : ascii) (s : string) : string :=
  match s with
  | EmptyString => EmptyString
  | String c rest =>
      String (if Ascii.eqb c from then to else c) (replace_all from to rest)
  end.

(** [s.split(sep)] for a separator of one character: one more word than
    there are separators. *)
Fixpoint split (sep : ascii) (s : string) : list string :=
  match s with
  | EmptyString => [EmptyString]
  | String c rest =>
      if Ascii.eqb c sep then EmptyString :: split sep rest
      else match split sep rest with
           | word :: words => String c word :: words
           | [] => [String c EmptyString]
           end
  end.

(** [c.toUpperCase()] on an ASCII character. *)
Definition toUpperCase (c : ascii) : ascii :=
  if ((97 <=? nat_of_ascii c) && (nat_of_ascii c <=? 122))%nat
  then ascii_of_nat (nat_of_ascii c - 32)
  else c.

(** [word.charAt(0).toUpperCase() + word.slice(1)]. *)
Definition capitalize (word : string) : string :=
  match word with
  | EmptyString => EmptyString
  | String c rest => String (toUpperCase c) rest
  end.

Definition formatToolName (name : string) : string :=
  let formatted := strip_call name in
  let formatted := replace_all "_" " " formatted in
  String.concat " " (map capitalize (split " " formatted)).

(** The [Set] of expanded call ids: its members, in insertion order. *)
Definition has (id : string) (s : list string) : bool :=
  existsb (String.eqb id) s.

Definition delete (id : string) (s : list string) : list string :=
  filter (fun x => negb (x =? id)) s.

Definition add (id : string) (s : list string) : list string :=
  if has id s then s else (s ++ [id])%list.

(** The update passed to [setExpandedCalls]. *)
Definition toggleExpand (id : string) (prev : list string) : list string :=
  let newSet := prev in
  if has id newSet then delete id newSet else add id newSet.

(** The text shown for a result. *)
Definition shown_result (result : string) : string :=
  if (500 <? String.length result)%nat
  then substring 0 500 result ++ "..."
  else result.

(** Capitalization of every character that starts the string or follows
    a space. *)
Fixpoint title (start : bool) (s : string) : string :=
  match s with
  | EmptyString => EmptyString
  | String c rest =>
      String (if start then toUpperCase c else c)
        (title (Ascii.eqb c " ") rest)
  end.

Fixpoint occurs (c : ascii) (s : string) : bool :=
  match s with
  | EmptyString => false
  | String c' rest => Ascii.eqb c' c || occurs c rest
  end.

End ToolCallDisplay.

(* ================================================================== *)
(** * The server form: [MCPServerModal] *)
(* ================================================================== *)

(** The handlers of the component, as functions of its state.  A handler
    runs to its end before the next one starts; edits made while a
    discovery is pending are not modelled, nor is the copy of the list
    kept in [localStorage]. *)
Module ServerModal.

(** White space, within ASCII: tab, line feed, vertical tab, form feed,
    carriage return and space. *)
Definition is_space (c : ascii) : bool :=
  ((9 <=? nat_of_ascii c) && (nat_of_ascii c <=? 13)
   || (nat_of_ascii c =? 32))%nat.

Fixpoint trimStart (s : string) : string :=
  match s with
  | EmptyString => EmptyString
  | String c rest => if is_space c then trimStart rest else s
  end.

Fixpoint trimEnd (s : string) : string :=
  match s with
  | EmptyString => EmptyString
  | String c rest =>
      match trimEnd rest with
      | EmptyString => if is_space c then EmptyString else String c EmptyString
      | kept => String c kept
      end
  end.

(** [s.trim()] on ASCII text. *)
Definition trim (s : string) : string := trimEnd (trimStart s).

(** [!s.trim()]. *)
Definition blank (s : string) : bool := trim s =? EmptyString.

(** The members of a configuration that the form fills in; the form has
    state variables of the same names. *)
Definition command_of (c : MCPServerConfig) : option string := command c.
Definition args_of (c : MCPServerConfig) : option (list string) := args c.
Definition url_of (c : MCPServerConfig) : option string := url c.

Record EnvVar : Type := {
  key : string;
  value : string
}.

(** An entry of the list: the configuration and the [tools] member. *)
Record Added : Type := {
  server : MCPServerConfig;
  tools : JsValue
}.

(** What [fetch] resolves to: [response.ok] and what [response.json()]
    gives. *)
Record FetchResponse : Type := {
  ok : bool;
  json : Completion JsValue
}.

(** Requests sent to the API routes. *)
Inductive Request : Type :=
| DiscoverRequest (server : MCPServerConfig)
| ManageUpdate (servers : list Added).

(** The state of the component, the alerts shown and the requests sent. *)
Record State : Type := {
  servers : list Added;
  serverType : string;
  serverName : string;
  command : string;
  args : string;
  envVars : list EnvVar;
  serverUrl : string;
  isDiscovering : bool;
  alerts : list string;
  requests : list Request
}.

Definition alert (text : string) : Eff State unit :=
  modify (fun st =>
    {| servers := servers st; serverType := serverType st;
       serverName := serverName st; command := command st; args := args st;
       envVars := envVars st; serverUrl := serverUrl st;
       isDiscovering := isDiscovering st;
       alerts := alerts st ++ [text]; requests := requests st |}).

Definition sent (r : Request) : Eff State unit :=
  modify (fun st =>
    {| servers := servers st; serverType := serverType st;
       serverName := serverName st; command := command st; args := args st;
       envVars := envVars st; serverUrl := serverUrl st;
       isDiscovering := isDiscovering st;
       alerts := alerts st; requests := requests st ++ [r] |}).

Definition setIsDiscovering (b : bool) : Eff State unit :=
  modify (fun st =>
    {| servers := servers st; serverType := serverType st;
       serverName := serverName st; command := command st; args := args st;
       envVars := envVars st; serverUrl := serverUrl st;
       isDiscovering := b;
       alerts := alerts st; requests := requests st |}).

Definition setServers (f : list Added -> list Added) : Eff State unit :=
  modify (fun st =>
    {| servers := f (servers st); serverType := serverType st;
       serverName := serverName st; command := command st; args := args st;
       envVars := envVars st; serverUrl := serverUrl st;
       isDiscovering := isDiscovering st;
       alerts := alerts st; requests := requests st |}).

Definition setEnvVars (f : list EnvVar -> list EnvVar) : Eff State unit :=
  modify (fun st =>
    {| servers := servers st; serverType := serverType st;
       serverName := serverName st; command := command st; args := args st;
       envVars := f (envVars st); serverUrl := serverUrl st;
       isDiscovering := isDiscovering st;
       alerts := alerts st; requests := requests st |}).

(** The six setters that reset the form. *)
Definition reset_form : Eff State unit :=
  modify (fun st =>
    {| servers := servers st; serverType := "stdio";
       serverName := EmptyString; command := EmptyString; args := EmptyString;
       envVars := []; serverUrl := EmptyString;
       isDiscovering := isDiscovering st;
       alerts := alerts st; requests := requests st |}).

(** [envObject] after the [forEach]: pairs whose key or value is blank
    are skipped, a later pair replaces an earlier one with the same key.
    A pair whose key is [__proto__] leaves no entry either: assigning a
    string to that member of an object literal goes to the inherited
    setter, which ignores it.  The list stands for the object as a finite
    map. *)
Definition env_object (vars : list EnvVar) : list (string * string) :=
  fold_left
    (fun envObject v =>
       if negb (blank (key v)) && negb (blank (value v))
          && negb (trim (key v) =? "__proto__")
       then JsMap.set (trim (key v)) (trim (value v)) envObject
       else envObject)
    vars [].

(** [newServer], without its [tools]. *)
Definition new_server (now : Z) (st : State) : MCPServerConfig :=
  if serverType st =? "stdio" then
    Build_MCPServerConfig
      (number_toString now)
      (trim (serverName st))
      (serverType st)
      (Some (trim (command st)))
      (Some (if blank (args st) then []
             else map trim (ToolCallDisplay.split "," (trim (args st)))))
      (match env_object (envVars st) with
       | [] => None
       | e => Some e
       end)
      None
  else
    Build_MCPServerConfig
      (number_toString now)
      (trim (serverName st))
      (serverType st)
      None None None
      (Some (trim (serverUrl st))).

Definition could_not_discover : string :=
  "Warning: Could not discover tools from server. Server added but tools will be discovered at runtime.".

Definition could_not_connect : string :=
  "Warning: Could not connect to server. Server added but tools will be discovered at runtime.".

Section Handlers.
(** The clock, and what the request to the discovery route does. *)
Variable Date_now : Z.
Variable fetch_discover : MCPServerConfig -> Completion FetchResponse.

Definition fetch (newServer : MCPServerConfig) : Eff State FetchResponse :=
  sent (DiscoverRequest newServer) ;;
  fun st => (fetch_discover newServer, st).

Definition response_json (response : FetchResponse) : Eff State JsValue :=
  fun st => (json response, st).

(** The [try]/[catch]/[finally] of [handleAddServer]: the value left in
    [newServer.tools]. *)
Definition discover_tools (newServer : MCPServerConfig) : Eff State JsValue :=
  try_finally
    (try_catch
       (response <- fetch newServer ;;
        if ok response then
          data <- response_json response ;;
          data_tools <- prop data "tools" ;;
          ret (js_or data_tools (JArr []))
        else
          alert could_not_discover ;;
          ret (JArr []))
       (fun error => alert could_not_connect ;; ret (JArr [])))
    (setIsDiscovering false).

Definition handleAddServer : Eff State unit :=
  st <- gets (fun st => st) ;;
  if blank (serverName st) then
    alert "Please enter a server name"
  else if (serverType st =? "stdio") && blank (command st) then
    alert "Please enter a command for stdio server"
  else if (serverType st =? "http") && blank (serverUrl st) then
    alert "Please enter a URL for HTTP server"
  else
    setIsDiscovering true ;;
    let newServer := new_server Date_now st in
    found <- discover_tools newServer ;;
    setServers
      (fun prev => (prev ++ [{| server := newServer; tools := found |}])%list) ;;
    reset_form.
End Handlers.

Definition handleAddEnvVar : Eff State unit :=
  setEnvVars
    (fun prev => (prev ++ [{| key := EmptyString; value := EmptyString |}])%list).

(** [prev.filter((_, i) => i !== index)]. *)
Fixpoint remove_at {A} (index : nat) (l : list A) : list A :=
  match l, index with
  | [], _ => []
  | _ :: rest, O => rest
  | x :: rest, S i => x :: remove_at i rest
  end.

Definition handleRemoveEnvVar (index : nat) : Eff State unit :=
  setEnvVars (remove_at index).

(** [{ ...env, [field]: value }] for [field] in ['key' | 'value']. *)
Definition with_field (field : string) (v : string) (e : EnvVar) : EnvVar :=
  if field =? "key" then {| key := v; value := value e |}
  else {| key := key e; value := v |}.

(** [prev.map((env, i) => i === index ? f env : env)]. *)
Fixpoint update_at {A} (index : nat) (f : A -> A) (l : list A) : list A :=
  match l, index with
  | [], _ => []
  | x :: rest, O => f x :: rest
  | x :: rest, S i => x :: update_at i f rest
  end.

Definition handleEnvVarChange (index : nat) (field v : string) : Eff State unit :=
  setEnvVars (update_at index (with_field field v)).

Definition without (serverId : string) (l : list Added) : list Added :=
  filter (fun s => negb (id (server s) =? serverId)) l.

(** The request is sent with the list of the render in which the button
    was pressed; a failure of the request is logged and ignored. *)
Definition handleRemoveServer (manage_fails : option JsValue) (serverId : string)
  : Eff State unit :=
  st <- gets (fun st => st) ;;
  setServers (without serverId) ;;
  try_catch
    (let updatedServers := without serverId (servers st) in
     sent (ManageUpdate updatedServers) ;;
     match manage_fails with
     | None => ret tt
     | Some e => throw e
     end)
    (fun error => ret tt).

End ServerModal.

(** ** What the form checks and adds *)

Module ServerModalSpec.
Import ServerModal.

(** The form is refused: the name is blank, or the field that the
    transport needs is. *)
Definition refused (st : State) : bool :=
  blank (serverName st)
  || ((serverType st =? "stdio") && blank (command st))
  || ((serverType st =? "http") && blank (serverUrl st)).

(** The alert shown for a refused form. *)
Definition refusal (st : State) : string :=
  if blank (serverName st) then "Please enter a server name"
  else if (serverType st =? "stdio") && blank (command st)
       then "Please enter a command for stdio server"
       else "Please enter a URL for HTTP server".


(** The fields typed by the user are ASCII text. *)
Definition ascii_form (st : State) : Prop :=
  ascii_only (serverName st) /\ ascii_only (command st)
  /\ ascii_only (args st) /\ ascii_only (serverUrl st)
  /\ Forall (fun v => ascii_only (key v) /\ ascii_only (value v)) (envVars st).

End ServerModalSpec.

(** A filled form and hosts for the examples. *)
Module Sample3.
Import ServerModal.

Definition form : State :=
  {| servers := []; serverType := "stdio"; serverName := " canvas ";
     command := "npx"; args := "-y, canvas-mcp";
     envVars := [{| key := "TOKEN"; value := " abc " |};
                 {| key := ""; value := "ignored" |}];
     serverUrl := EmptyString; isDiscovering := false;
     alerts := []; requests := [] |}.

(** The same form with a command of spaces only. *)
Definition form_without_command : State :=
  {| servers := []; serverType := "stdio"; serverName := "canvas";
     command := "  "; args := EmptyString; envVars := [];
     serverUrl := EmptyString; isDiscovering := false;
     alerts := []; requests := [] |}.

Definition network_down (c : MCPServerConfig) : Completion FetchResponse :=
  Abrupt (JError "TypeError" "Failed to fetch").

Definition two_servers : State :=
  {| servers := [{| server := Sample.weather; tools := JArr [] |};
                 {| server := Sample.files; tools := JArr [] |}];
     serverType := "stdio"; serverName := EmptyString;
     command := EmptyString; args := EmptyString; envVars := [];
     serverUrl := EmptyString; isDiscovering := false;
     alerts := []; requests := [] |}.

End Sample3.

(* ================================================================== *)
(** * Properties of the connection registry *)
(* ================================================================== *)

Module RegistryFacts.
Import Registry RegistrySpec.
Local Open Scope list_scope.

Lemma set_fresh {V} (k : string) (v : V) (m : JsMap.t V) :
  JsMap.has k m = false -> JsMap.set k v m = m ++ [(k, v)].
Proof.
  induction m as [|[k' v'] m IH]; simpl; intros H; [reflexivity|].
  apply orb_false_iff in H as [Hk Hm].
  rewrite Hk, IH by assumption. reflexivity.
Qed.

Lemma has_app {V} (k : string) (m1 m2 : JsMap.t V) :
  JsMap.has k (m1 ++ m2) = JsMap.has k m1 || JsMap.has k m2.
Proof.
  induction m1 as [|[k' v'] m1 IH]; simpl; [reflexivity|].
  rewrite IH, orb_assoc. reflexivity.
Qed.

Lemma has_false_iff {V} (k : string) (m : JsMap.t V) :
  JsMap.has k m = false <-> ~ In k (JsMap.keys m).
Proof.
  induction m as [|[k' v'] m IH]; simpl.
  - split; [intros _ []|reflexivity].
  - rewrite orb_false_iff, IH, String.eqb_neq. intuition congruence.
Qed.

Lemma in_values_set {V} (k : string) (v x : V) (m : JsMap.t V) :
  In x (JsMap.values (JsMap.set k v m)) -> x = v \/ In x (JsMap.values m).
Proof.
  induction m as [|[k0 v0] m IH]; cbn.
  - intros [<-|[]]. left. reflexivity.
  - destruct (k =? k0); cbn.
    + intros [<-|H]; [left; reflexivity | right; right; exact H].
    + intros [<-|H]; [right; left; reflexivity|].
      destruct (IH H) as [->|H']; [left; reflexivity | right; right; exact H'].
Qed.

(** Whatever the ids, a handle of the map after the loop was there before
    or belongs to an entry whose [connect] resolved. *)
Lemma register_values (connect_outcome : MCPServer -> option JsValue)
    (m : JsMap.t MCPServer)
    (l : list (MCPServerConfig * MCPServer)) (s : MCPServer) :
  In s (JsMap.values (register connect_outcome m l)) ->
  In s (JsMap.values m)
  \/ exists a, In a l /\ connect_outcome (snd a) = None /\ s = snd a.
Proof.
  revert m. induction l as [|a l IH]; intros m; cbn [register]; [tauto|].
  intros H. destruct (IH _ H) as [Hm | [a' [Hin [Hc Hs]]]].
  - unfold connected in Hm.
    destruct (connect_outcome (snd a)) eqn:Hc; [left; exact Hm|].
    destruct (in_values_set _ _ _ _ Hm) as [-> | Hm'].
    + right. exists a. repeat split; [left; reflexivity | exact Hc].
    + left. exact Hm'.
  - right. exists a'. repeat split; [right; exact Hin | exact Hc | exact Hs].
Qed.

Section Manager.
Variable JSON_stringify : list MCPServerConfig -> string.
Variable connect_outcome : MCPServer -> option JsValue.
Variable close_outcome : MCPServer -> option JsValue.

(** *** Teardown *)

Lemma close_loop (entries : list (string * MCPServer)) (p : Process) :
  for_of entries
    (fun entry => try_catch (close close_outcome (snd entry)) (fun _ => ret tt)) p
  = (Normal tt,
     {| servers := servers p; isInitialized := isInitialized p;
        mcpConfigKey := mcpConfigKey p; next_object := next_object p;
        calls := calls p ++ map Close (JsMap.values entries) |}).
Proof.
  revert p. induction entries as [|[k s] entries IH]; intros p.
  - destruct p; simpl. rewrite app_nil_r. reflexivity.
  - cbn [for_of]. unfold bind at 1.
    unfold try_catch, close, bind, record, modify, ret, throw. cbn [snd].
    destruct (close_outcome s); rewrite IH; cbn;
      rewrite <- app_assoc; reflexivity.
Qed.

Lemma closeAllServers_run (p : Process) :
  closeAllServers close_outcome p
  = (Normal tt,
     {| servers := JsMap.empty; isInitialized := false;
        mcpConfigKey := mcpConfigKey p; next_object := next_object p;
        calls := calls p ++ map Close (JsMap.values (servers p)) |}).
Proof.
  unfold Registry.closeAllServers, bind at 1. unfold gets at 1.
  unfold bind at 1. unfold JsMap.entries. rewrite close_loop.
  reflexivity.
Qed.

(** *** The connection loop *)

Lemma initialize_one_run (config : MCPServerConfig) (p : Process) :
  let a := (config, new_server (next_object p) config) in
  initialize_one connect_outcome config p
  = (Normal tt,
     {| servers := register connect_outcome (servers p) [a];
        isInitialized := isInitialized p;
        mcpConfigKey := mcpConfigKey p;
        next_object := S (next_object p);
        calls := calls p ++ attempt_calls a |}).
Proof.
  unfold Registry.initialize_one, try_catch, bind, allocate, record, connect,
    connected, modify, gets, set_servers, ret, throw, bind.
  cbn. unfold connected. cbn.
  destruct (connect_outcome (new_server (next_object p) config));
    cbn; rewrite <- app_assoc; reflexivity.
Qed.

Lemma initialize_loop (configs : list MCPServerConfig) (p : Process) :
  for_of configs (initialize_one connect_outcome) p
  = (Normal tt,
     {| servers := register connect_outcome (servers p)
                     (attempts (next_object p) configs);
        isInitialized := isInitialized p;
        mcpConfigKey := mcpConfigKey p;
        next_object := next_object p + length configs;
        calls := calls p ++ flat_map attempt_calls
                              (attempts (next_object p) configs) |}).
Proof.
  revert p. induction configs as [|config configs IH]; intros p.
  - destruct p; cbn. rewrite app_nil_r, Nat.add_0_r. reflexivity.
  - cbn [for_of]. unfold bind at 1. rewrite initialize_one_run.
    cbv zeta. rewrite IH. cbn.
    rewrite <- app_assoc, Nat.add_succ_r. reflexivity.
Qed.

(** *** The two paths of [initializeServers] *)

Lemma initializeServers_reuse (configs : list MCPServerConfig) (p : Process) :
  reconnects JSON_stringify configs p = false ->
  initializeServers JSON_stringify connect_outcome close_outcome configs p
  = (Normal (JsMap.values (servers p)), p).
Proof.
  unfold reconnects, initializeServers, getCurrentConfigKey, getServers.
  intros H. apply negb_false_iff in H.
  unfold bind at 1. unfold gets at 1. unfold bind at 1. unfold gets at 1.
  rewrite H. reflexivity.
Qed.

Lemma initializeServers_reconnect (configs : list MCPServerConfig) (p : Process) :
  reconnects JSON_stringify configs p = true ->
  initializeServers JSON_stringify connect_outcome close_outcome configs p
  = (Normal (JsMap.values
       (register connect_outcome
          (if isInitialized p then JsMap.empty else servers p)
          (attempts (next_object p) configs))),
     {| servers := register connect_outcome
                     (if isInitialized p then JsMap.empty else servers p)
                     (attempts (next_object p) configs);
        isInitialized := true;
        mcpConfigKey := Some (JSON_stringify configs);
        next_object := next_object p + length configs;
        calls := (calls p ++
                  (if isInitialized p then map Close (JsMap.values (servers p))
                   else []))
                 ++ flat_map attempt_calls (attempts (next_object p) configs) |}).
Proof.
  unfold reconnects, initializeServers, getCurrentConfigKey, getServers.
  intros H. apply negb_true_iff in H.
  unfold bind at 1. unfold gets at 1. unfold bind at 1. unfold gets at 1.
  rewrite H.
  unfold bind at 1. unfold gets at 1. unfold bind at 1.
  destruct (isInitialized p) eqn:Hinit.
  - rewrite closeAllServers_run. unfold bind at 1.
    rewrite initialize_loop. reflexivity.
  - unfold ret at 1. unfold bind at 1. rewrite initialize_loop.
    cbn. rewrite app_nil_r. reflexivity.
Qed.

(** After any call the registry is initialized, remembers the key of the
    list it was given, and has returned the values of its map. *)
Lemma initializeServers_post (configs : list MCPServerConfig) (p : Process) :
  fst (initializeServers JSON_stringify connect_outcome close_outcome configs p)
  = Normal (JsMap.values (servers
      (snd (initializeServers JSON_stringify connect_outcome close_outcome configs p))))
  /\ reconnects JSON_stringify configs
       (snd (initializeServers JSON_stringify connect_outcome close_outcome configs p))
     = false.
Proof.
  destruct (reconnects JSON_stringify configs p) eqn:H.
  - rewrite initializeServers_reconnect by assumption. cbn [fst snd servers].
    split; [reflexivity|].
    unfold reconnects. cbn.
    destruct (JSON_stringify configs =? EmptyString) eqn:E.
    + rewrite E. reflexivity.
    + rewrite String.eqb_refl. reflexivity.
  - rewrite initializeServers_reuse by assumption. cbn [fst snd].
    split; [reflexivity|assumption].
Qed.

Lemma reconnects_same_key (configs configs' : list MCPServerConfig) (p : Process) :
  JSON_stringify configs' = JSON_stringify configs ->
  reconnects JSON_stringify configs' p = reconnects JSON_stringify configs p.
Proof. unfold reconnects. intros ->. reflexivity. Qed.

(** The invariant holds initially and is kept by both operations. *)
Lemma registry_inv_initial : registry_inv mcpManager.
Proof. intros _. reflexivity. Qed.

Lemma registry_inv_closeAllServers (p : Process) :
  registry_inv (snd (closeAllServers close_outcome p)).
Proof. rewrite closeAllServers_run. intros _. reflexivity. Qed.

Lemma registry_inv_initializeServers (configs : list MCPServerConfig) (p : Process) :
  registry_inv p ->
  registry_inv
    (snd (initializeServers JSON_stringify connect_outcome close_outcome configs p)).
Proof.
  intros Hp. destruct (reconnects JSON_stringify configs p) eqn:H.
  - rewrite initializeServers_reconnect by assumption. intros Hi. discriminate Hi.
  - rewrite initializeServers_reuse by assumption. exact Hp.
Qed.

(** With pairwise distinct ids every [set] of the loop appends. *)
Lemma register_distinct (m : JsMap.t MCPServer)
    (l : list (MCPServerConfig * MCPServer)) :
  NoDup (JsMap.keys m ++ map (fun a => id (fst a)) l) ->
  register connect_outcome m l
  = m ++ map (fun a => (id (fst a), snd a)) (filter (connected connect_outcome) l).
Proof.
  revert m. induction l as [|a l IH]; intros m Hnd; cbn [register filter map].
  - rewrite app_nil_r. reflexivity.
  - assert (Hfresh : JsMap.has (id (fst a)) m = false).
    { apply has_false_iff. apply NoDup_remove_2 in Hnd.
      intros Hin. apply Hnd. apply in_or_app. left. exact Hin. }
    destruct (connected connect_outcome a).
    + rewrite set_fresh by assumption. rewrite IH.
      * cbn [map]. rewrite <- app_assoc. reflexivity.
      * unfold JsMap.keys in *. rewrite map_app. cbn [map fst].
        rewrite <- app_assoc. exact Hnd.
    + apply IH. cbn [map] in Hnd. apply NoDup_remove_1 in Hnd. exact Hnd.
Qed.

Lemma attempts_ids (n : nat) (configs : list MCPServerConfig) :
  map (fun a => id (fst a)) (attempts n configs) = map id configs.
Proof.
  revert n. induction configs as [|c configs IH]; intros n; cbn;
    [reflexivity | rewrite IH; reflexivity].
Qed.

Lemma attempts_servers (n : nat) (configs : list MCPServerConfig) :
  map fst (attempts n configs) = configs.
Proof.
  revert n. induction configs as [|c configs IH]; intros n; cbn;
    [reflexivity | rewrite IH; reflexivity].
Qed.

Lemma connects_of_attempts (l : list (MCPServerConfig * MCPServer)) :
  filter is_connect (flat_map attempt_calls l) = map Connect (map snd l).
Proof. induction l as [|a l IH]; cbn; [reflexivity | rewrite IH; reflexivity]. Qed.

Lemma closes_of_attempts (l : list (MCPServerConfig * MCPServer)) :
  filter is_close (flat_map attempt_calls l) = [].
Proof. induction l as [|a l IH]; cbn; [reflexivity | exact IH]. Qed.

(** *** Claims *)

(** C1. Two successive [initializeServers] calls whose lists serialize
    identically: the second call makes no call on any server (no connect,
    no close), leaves the registry as it was and returns the same handles
    as the first. *)
Theorem initializeServers_idempotent
    (configs1 configs2 : list MCPServerConfig) (p : Process) :
  JSON_stringify configs1 = JSON_stringify configs2 ->
  initializeServers JSON_stringify connect_outcome close_outcome configs2
    (snd (initializeServers JSON_stringify connect_outcome close_outcome configs1 p))
  = initializeServers JSON_stringify connect_outcome close_outcome configs1 p
  /\ filter is_connect
       (calls (snd (initializeServers JSON_stringify connect_outcome close_outcome
          configs2
          (snd (initializeServers JSON_stringify connect_outcome close_outcome
             configs1 p)))))
     = filter is_connect
         (calls (snd (initializeServers JSON_stringify connect_outcome close_outcome
            configs1 p)))
  /\ filter is_close
       (calls (snd (initializeServers JSON_stringify connect_outcome close_outcome
          configs2
          (snd (initializeServers JSON_stringify connect_outcome close_outcome
             configs1 p)))))
     = filter is_close
         (calls (snd (initializeServers JSON_stringify connect_outcome close_outcome
            configs1 p))).
Proof.
  intros Hkey.
  destruct (initializeServers_post configs1 p) as [Hres Hre].
  assert (Hsecond :
    initializeServers JSON_stringify connect_outcome close_outcome configs2
      (snd (initializeServers JSON_stringify connect_outcome close_outcome configs1 p))
    = initializeServers JSON_stringify connect_outcome close_outcome configs1 p).
  { rewrite initializeServers_reuse.
    - rewrite <- Hres. symmetry. apply surjective_pairing.
    - rewrite (reconnects_same_key configs1 configs2) by (symmetry; exact Hkey).
      exact Hre. }
  rewrite Hsecond. repeat split; reflexivity.
Qed.

(** C2, amended on the returned handles only.  For every list and every
    state of the registry, the call returns normally.  When it reconnects,
    every entry of the list is attempted, in order, whatever happens to
    the others: one construction and one [connect] per entry, after the
    closes of a reset.  From a state that the registry reaches through
    its own operations, every returned handle then belongs to an entry of
    the list whose [connect] resolved; and when the ids of the list are
    pairwise distinct, the returned handles are exactly those of the
    entries whose [connect] resolved, in the order of the list. *)
Theorem initializeServers_isolates_failures
    (configs : list MCPServerConfig) (p : Process) :
  exists handles,
    fst (initializeServers JSON_stringify connect_outcome close_outcome configs p)
    = Normal handles
    /\ (reconnects JSON_stringify configs p = true ->
        map fst (attempts (next_object p) configs) = configs
        /\ calls (snd (initializeServers JSON_stringify connect_outcome
                         close_outcome configs p))
           = (calls p ++
              (if isInitialized p then map Close (JsMap.values (servers p))
               else []))
             ++ flat_map attempt_calls (attempts (next_object p) configs)
        /\ filter is_connect
             (flat_map attempt_calls (attempts (next_object p) configs))
           = map Connect (map snd (attempts (next_object p) configs))
        /\ (registry_inv p ->
            (forall h, In h handles ->
               exists a, In a (attempts (next_object p) configs)
                         /\ h = snd a /\ connect_outcome (snd a) = None)
            /\ (NoDup (map id configs) ->
                handles = map snd (filter (connected connect_outcome)
                                     (attempts (next_object p) configs))
                /\ (forall a, In a (attempts (next_object p) configs) ->
                      (In (snd a) handles <-> connect_outcome (snd a) = None))))).
Proof.
  destruct (reconnects JSON_stringify configs p) eqn:Hre.
  2:{ rewrite initializeServers_reuse by assumption. cbn [fst].
      eexists. split; [reflexivity|]. intros H. discriminate H. }
  rewrite initializeServers_reconnect by assumption. cbn [fst snd calls].
  eexists. split; [reflexivity|]. intros _.
  split; [apply attempts_servers|].
  split; [reflexivity|].
  split; [apply connects_of_attempts|].
  intros Hinv.
  assert (Hempty : (if isInitialized p then JsMap.empty else servers p)
                   = JsMap.empty).
  { destruct (isInitialized p) eqn:Hi; [reflexivity | apply Hinv, Hi]. }
  rewrite Hempty. split.
  { intros h Hh. destruct (register_values _ _ _ _ Hh) as [[] | [a [Hin [Hc Hs]]]].
    exists a. repeat split; assumption. }
  intros Hnd.
  assert (Hmap :
    JsMap.values (register connect_outcome JsMap.empty
      (attempts (next_object p) configs))
    = map snd (filter (connected connect_outcome)
                 (attempts (next_object p) configs))).
  { rewrite register_distinct.
    - unfold JsMap.values, JsMap.empty. cbn [app].
      rewrite map_map. cbn [snd]. reflexivity.
    - unfold JsMap.keys, JsMap.empty. cbn [map app].
      rewrite attempts_ids. exact Hnd. }
  rewrite Hmap.
  split; [reflexivity|].
  intros a Hin. split.
  - intros Hh. apply in_map_iff in Hh as [a' [Heq Ha']].
    apply filter_In in Ha' as [_ Hc]. unfold connected in Hc.
    rewrite <- Heq.
    destruct (connect_outcome (snd a')); [discriminate Hc | reflexivity].
  - intros Hok. apply in_map. apply filter_In. split; [exact Hin|].
    unfold connected. rewrite Hok. reflexivity.
Qed.

(** C6, amended.  [closeAllServers] returns normally whatever the closes
    do; it has then called [close] once on every registered handle, the
    map is empty (so [getServers] returns the empty list) and the
    initialized flag is reset.  The stored configuration key is left as it
    was; with the flag reset, that key can no longer cause a reuse. *)
Theorem closeAllServers_clears (p : Process) :
  fst (closeAllServers close_outcome p) = Normal tt
  /\ calls (snd (closeAllServers close_outcome p))
     = calls p ++ map Close (JsMap.values (servers p))
  /\ servers (snd (closeAllServers close_outcome p)) = JsMap.empty
  /\ getServers (snd (closeAllServers close_outcome p))
     = (Normal [], snd (closeAllServers close_outcome p))
  /\ isInitialized (snd (closeAllServers close_outcome p)) = false
  /\ mcpConfigKey (snd (closeAllServers close_outcome p)) = mcpConfigKey p
  /\ (forall configs,
        reconnects JSON_stringify configs (snd (closeAllServers close_outcome p))
        = true).
Proof.
  rewrite closeAllServers_run. cbn [fst snd calls servers isInitialized mcpConfigKey].
  repeat split; reflexivity.
Qed.

(** C10. After any [initializeServers] call the registry is marked
    initialized and its stored key is the key of the whole requested list,
    whatever the connects did; so a later call with a list of the same key
    makes no call on any server and returns the handles the first call
    returned: entries whose connect failed are not tried again. *)
Theorem initializeServers_never_retries
    (configs : list MCPServerConfig) (p : Process) :
  isInitialized
    (snd (initializeServers JSON_stringify connect_outcome close_outcome configs p))
  = true
  /\ fst (getCurrentConfigKey
       (snd (initializeServers JSON_stringify connect_outcome close_outcome configs p)))
     = Normal (JSON_stringify configs)
  /\ (forall configs',
        JSON_stringify configs' = JSON_stringify configs ->
        initializeServers JSON_stringify connect_outcome close_outcome configs'
          (snd (initializeServers JSON_stringify connect_outcome close_outcome
             configs p))
        = initializeServers JSON_stringify connect_outcome close_outcome configs p).
Proof.
  destruct (initializeServers_post configs p) as [Hres Hre].
  pose proof Hre as Hre'. unfold reconnects in Hre'.
  apply negb_false_iff, andb_true_iff in Hre' as [Hinit Hk].
  split; [exact Hinit|].
  split.
  { unfold getCurrentConfigKey, gets. cbn [fst].
    apply String.eqb_eq in Hk. rewrite <- Hk. reflexivity. }
  intros configs' Hkey.
  rewrite initializeServers_reuse.
  - rewrite <- Hres. symmetry. apply surjective_pairing.
  - rewrite (reconnects_same_key configs configs') by exact Hkey. exact Hre.
Qed.

End Manager.

(** *** Concrete runs *)

(** One list reconciled twice on a fresh registry: one connect in all. *)
Example reconcile_twice :
  filter is_connect
    (calls (snd (initializeServers Sample.stringify Sample.always_ok Sample.always_ok
       [Sample.weather]
       (snd (initializeServers Sample.stringify Sample.always_ok Sample.always_ok
          [Sample.weather] mcpManager)))))
  = [Connect (MCPServerStreamableHttp 0 "weather" "http://x")].
Proof. reflexivity. Qed.

Lemma initializeServers_idempotent_witness :
  Sample.stringify [Sample.weather; Sample.down]
  = Sample.stringify [Sample.weather; Sample.down]
  /\ initializeServers Sample.stringify Sample.connect_unless_down Sample.always_ok
       [Sample.weather; Sample.down]
       (snd (initializeServers Sample.stringify Sample.connect_unless_down
          Sample.always_ok [Sample.weather; Sample.down] mcpManager))
     = initializeServers Sample.stringify Sample.connect_unless_down Sample.always_ok
         [Sample.weather; Sample.down] mcpManager.
Proof.
  split; [reflexivity|].
  apply (initializeServers_idempotent Sample.stringify Sample.connect_unless_down
           Sample.always_ok [Sample.weather; Sample.down]
           [Sample.weather; Sample.down] mcpManager).
  reflexivity.
Defined.

(** Three entries with distinct ids, the second of which never connects,
    and a list whose first two entries share an id: both calls return
    normally and attempt every entry; the handle equation is obtained for
    the first list. *)
Lemma initializeServers_isolates_failures_witness :
  reconnects Sample.stringify [Sample.weather; Sample.down; Sample.files]
    mcpManager = true
  /\ registry_inv mcpManager
  /\ NoDup (map id [Sample.weather; Sample.down; Sample.files])
  /\ exists handles,
       fst (initializeServers Sample.stringify Sample.connect_unless_down
              Sample.always_ok [Sample.weather; Sample.down; Sample.files]
              mcpManager)
       = Normal handles
       /\ handles = [MCPServerStreamableHttp 0 "weather" "http://x";
                     MCPServerStdio 2 "files" "node" [] None]
       /\ filter is_connect
            (calls (snd (initializeServers Sample.stringify
                           Sample.connect_unless_down Sample.always_ok
                           [Sample.weather; Sample.down; Sample.files]
                           mcpManager)))
          = map Connect
              (map snd (attempts 0 [Sample.weather; Sample.down; Sample.files])).
Proof.
  assert (Hnd : NoDup (map id [Sample.weather; Sample.down; Sample.files])).
  { repeat constructor; cbn; intuition discriminate. }
  split; [reflexivity|].
  split; [exact registry_inv_initial|].
  split; [exact Hnd|].
  destruct (initializeServers_isolates_failures Sample.stringify
              Sample.connect_unless_down Sample.always_ok
              [Sample.weather; Sample.down; Sample.files] mcpManager)
    as [handles [Hrun Hloop]].
  destruct (Hloop eq_refl) as [_ [Hcalls [Hconnects Hhandles]]].
  destruct (Hhandles registry_inv_initial) as [_ Hexact].
  destruct (Hexact Hnd) as [Heq _].
  exists handles. split; [exact Hrun|]. split; [exact Heq|].
  rewrite Hcalls. exact Hconnects.
Defined.

(** C2 as stated fails when two entries share an id: both connect, the
    second [set] replaces the first handle, and the handle of the first
    entry is not returned although its connect did not fail. *)
Lemma initializeServers_duplicate_id_counterexample :
  Sample.connect_unless_down (new_server 0 Sample.weather) = None
  /\ fst (initializeServers Sample.stringify Sample.connect_unless_down
            Sample.always_ok
            [Sample.weather; Sample.weather_again; Sample.down] mcpManager)
     = Normal [new_server 1 Sample.weather_again]
  /\ ~ In (new_server 0 Sample.weather) [new_server 1 Sample.weather_again].
Proof.
  split; [reflexivity|]. split; [reflexivity|].
  intros [H|[]]. discriminate H.
Qed.

(** C6 as stated fails on the fingerprint: after a reconciliation followed
    by [closeAllServers], the stored key is still the key of the list. *)
Lemma closeAllServers_keeps_key_counterexample :
  fst (getCurrentConfigKey
         (snd (closeAllServers Sample.always_ok
            (snd (initializeServers Sample.stringify Sample.always_ok
               Sample.always_ok [Sample.weather] mcpManager)))))
  = Normal "[{a,weather,http,,http://x}]"
  /\ fst (getCurrentConfigKey mcpManager) = Normal EmptyString.
Proof. split; reflexivity. Qed.

(** Every connect fails: the registry is initialized all the same, and the
    same list is then served from the empty map without a new attempt. *)
Lemma initializeServers_never_retries_witness :
  Sample.stringify [Sample.weather; Sample.files]
  = Sample.stringify [Sample.weather; Sample.files]
  /\ initializeServers Sample.stringify Sample.always_fails Sample.always_ok
       [Sample.weather; Sample.files]
       (snd (initializeServers Sample.stringify Sample.always_fails Sample.always_ok
          [Sample.weather; Sample.files] mcpManager))
     = initializeServers Sample.stringify Sample.always_fails Sample.always_ok
         [Sample.weather; Sample.files] mcpManager
  /\ fst (initializeServers Sample.stringify Sample.always_fails Sample.always_ok
            [Sample.weather; Sample.files] mcpManager)
     = Normal [].
Proof.
  split; [reflexivity|].
  split; [|reflexivity].
  apply (initializeServers_never_retries Sample.stringify Sample.always_fails
           Sample.always_ok [Sample.weather; Sample.files] mcpManager).
  reflexivity.
Defined.

End RegistryFacts.

(* ================================================================== *)
(** * Properties of tool discovery *)
(* ================================================================== *)

Module DiscoverFacts.
Import Discover DiscoverSpec.
Local Open Scope list_scope.

Lemma closed_app (l1 l2 : list Call) : closed (l1 ++ l2) = closed l1 ++ closed l2.
Proof. apply flat_map_app. Qed.

Lemma constructed_app (l1 l2 : list Call) :
  constructed (l1 ++ l2) = constructed l1 ++ constructed l2.
Proof. apply flat_map_app. Qed.

Lemma connected_to_app (l1 l2 : list Call) :
  connected_to (l1 ++ l2) = connected_to l1 ++ connected_to l2.
Proof. apply flat_map_app. Qed.

(** The mapping of the catalog and the [catch] block touch no server. *)
Lemma describe_tool_state (tool : JsValue) (w : Frame) :
  snd (describe_tool tool w) = w.
Proof.
  unfold describe_tool, prop, bind, ret, throw.
  destruct (nullish tool); reflexivity.
Qed.

Lemma map_array_describe_state (tools : list JsValue) (w : Frame) :
  snd (map_array describe_tool tools w) = w.
Proof.
  induction tools as [|tool tools IH]; [reflexivity|].
  cbn [map_array]. unfold bind at 1.
  pose proof (describe_tool_state tool w) as Hd.
  destruct (describe_tool tool w) as [[y|e] w1]; cbn [snd] in Hd; subst w1;
    [|reflexivity].
  unfold bind at 1.
  destruct (map_array describe_tool tools w) as [[ys|e] w2]; cbn [snd] in IH;
    subst w2; reflexivity.
Qed.

Lemma catch_block_state (error : JsValue) (w : Frame) :
  snd (catch_block error w) = w.
Proof.
  unfold catch_block, prop, bind, ret, throw.
  destruct (nullish error); reflexivity.
Qed.

Section Route.
Variable connect_outcome : MCPServer -> option JsValue.
Variable listTools_outcome : MCPServer -> Completion (list JsValue).

Lemma discover_tools_state (s : MCPServer) (w : Frame) :
  snd (discover_tools connect_outcome listTools_outcome s w)
  = {| mcpServer := mcpServer w; next_object := next_object w;
       calls := calls w ++ discovery_calls connect_outcome s |}.
Proof.
  unfold discover_tools, discovery_calls, connect, listTools.
  unfold bind at 1. unfold bind at 1. unfold record at 1, modify at 1.
  destruct (connect_outcome s) as [e|]; [reflexivity|].
  unfold ret at 1. unfold bind at 1. unfold bind at 1.
  unfold record at 1, modify at 1.
  destruct (listTools_outcome s) as [tools|e]; cbn [mcpServer next_object calls].
  - unfold ret at 1. unfold bind at 1.
    match goal with
    | |- context [map_array describe_tool tools ?w0] =>
        pose proof (map_array_describe_state tools w0) as Hm;
        destruct (map_array describe_tool tools w0) as [[ys|e] w1]
    end; cbn [snd] in Hm; subst w1; cbn; rewrite <- app_assoc; reflexivity.
  - cbn. rewrite <- app_assoc. reflexivity.
Qed.

Lemma guarded_state (request : NextRequest) (w : Frame) :
  snd (try_catch (try_block connect_outcome listTools_outcome request)
         catch_block w)
  = match target request (next_object w) with
    | Some s => {| mcpServer := Some s; next_object := S (next_object w);
                   calls := calls w
                            ++ Construct s :: discovery_calls connect_outcome s |}
    | None => w
    end.
Proof.
  assert (Hcatch : forall (m : Eff Frame NextResponse) w0,
            snd (try_catch m catch_block w0) = snd (m w0)).
  { intros m w0. unfold try_catch.
    destruct (m w0) as [[r|e] w1]; [reflexivity | apply catch_block_state]. }
  rewrite Hcatch. unfold try_block, target, request_json.
  unfold bind at 1.
  destruct request as [[server|]|e]; [|reflexivity|reflexivity].
  assert (Hnew : forall s,
    snd ((obj <- allocate ;;
          record (Construct s) ;; set_mcpServer (Some s) ;;
          discover_tools connect_outcome listTools_outcome s) w)
    = {| mcpServer := Some s; next_object := S (next_object w);
         calls := calls w ++ Construct s :: discovery_calls connect_outcome s |}).
  { intros s. unfold bind at 1. unfold allocate at 1.
    unfold bind at 1. unfold record at 1, modify at 1.
    unfold bind at 1. unfold set_mcpServer at 1, modify at 1.
    rewrite discover_tools_state. cbn. rewrite <- app_assoc. reflexivity. }
  destruct (type server =? "stdio").
  - unfold bind at 1. unfold allocate at 1. cbv beta iota zeta.
    specialize (Hnew (MCPServerStdio (next_object w) (name server)
                        (or_default (command server) "npx")
                        (args_or_empty (args server)) (env server))).
    unfold bind at 1 in Hnew. unfold allocate at 1 in Hnew. exact Hnew.
  - destruct (type server =? "http"); [|reflexivity].
    unfold bind at 1. unfold allocate at 1. cbv beta iota zeta.
    specialize (Hnew (MCPServerStreamableHttp (next_object w) (name server)
                        (or_default (url server) EmptyString))).
    unfold bind at 1 in Hnew. unfold allocate at 1 in Hnew. exact Hnew.
Qed.

Lemma finally_block_run (close_outcome : MCPServer -> option JsValue) (w : Frame) :
  finally_block close_outcome w
  = (Normal tt,
     match mcpServer w with
     | Some s => {| mcpServer := Some s; next_object := next_object w;
                    calls := calls w ++ [Close s] |}
     | None => w
     end).
Proof.
  unfold finally_block, bind, gets, try_catch, close, record, modify, ret, throw.
  destruct w as [[s|] n l]; [|reflexivity].
  cbn. destruct (close_outcome s); reflexivity.
Qed.

(** The completion of the handler is that of its [try]/[catch]. *)
Lemma POST_completion (close_outcome : MCPServer -> option JsValue)
    (request : NextRequest) (w : Frame) :
  fst (POST connect_outcome listTools_outcome close_outcome request w)
  = fst (try_catch (try_block connect_outcome listTools_outcome request)
           catch_block
           {| mcpServer := None; next_object := next_object w;
              calls := calls w |}).
Proof.
  unfold POST, bind, set_mcpServer, modify, try_finally.
  destruct (try_catch _ _ _) as [c w1]. rewrite finally_block_run. reflexivity.
Qed.

Variable close_outcome : MCPServer -> option JsValue.

(** The final state of the handler: its whole trace. *)
Lemma POST_state (request : NextRequest) (w : Frame) :
  snd (POST connect_outcome listTools_outcome close_outcome request w)
  = {| mcpServer := target request (next_object w);
       next_object := match target request (next_object w) with
                      | Some _ => S (next_object w)
                      | None => next_object w
                      end;
       calls := calls w ++ handler_calls connect_outcome request (next_object w) |}.
Proof.
  unfold POST, bind, set_mcpServer, modify, try_finally.
  match goal with
  | |- context [try_catch ?m ?h ?w0] =>
      pose proof (guarded_state request w0) as Hg;
      destruct (try_catch m h w0) as [c w1]
  end.
  cbn [snd next_object] in Hg. subst w1. rewrite finally_block_run.
  unfold handler_calls.
  destruct (target request (next_object w)) as [s|]; cbn.
  - rewrite <- app_assoc. reflexivity.
  - rewrite app_nil_r. reflexivity.
Qed.

Lemma describe_tool_run (tool : JsValue) (w : Frame) :
  nullish tool = false -> describe_tool tool w = (Normal (described tool), w).
Proof. intros H. unfold describe_tool, prop. rewrite H. reflexivity. Qed.

Lemma map_array_described (tools : list JsValue) (w : Frame) :
  Forall (fun tool => nullish tool = false) tools ->
  map_array describe_tool tools w = (Normal (map described tools), w).
Proof.
  induction 1 as [|tool tools Htool _ IH]; [reflexivity|].
  cbn [map_array map]. unfold bind at 1.
  rewrite describe_tool_run by assumption.
  unfold bind at 1. rewrite IH. reflexivity.
Qed.

Lemma discover_tools_success (s : MCPServer) (tools : list JsValue) (w : Frame) :
  connect_outcome s = None ->
  listTools_outcome s = Normal tools ->
  Forall (fun tool => nullish tool = false) tools ->
  fst (discover_tools connect_outcome listTools_outcome s w)
  = Normal (json (JObj [("success", JBool true);
                        ("tools", JArr (map described tools))]) 200).
Proof.
  intros Hc Hl Htools.
  unfold discover_tools, connect, listTools. rewrite Hc, Hl.
  unfold bind at 1. unfold bind at 1. unfold record at 1, modify at 1.
  unfold ret at 1. unfold bind at 1. unfold bind at 1.
  unfold record at 1, modify at 1. unfold ret at 1. unfold bind at 1.
  rewrite map_array_described by assumption. reflexivity.
Qed.

(** *** Claims *)

(** C4, amended.  Before any connection the handler checks only that a
    configuration is present and that its type is ['stdio'] or ['http']:
    such a rejected request gets a 400 response and no call is made on any
    server.  A ['stdio'] configuration without [command] is not rejected:
    the command defaults to ['npx'] and one connect is attempted. *)
Theorem POST_validation (request : NextRequest) (w : Frame) :
  match request with
  | Abrupt e =>
      calls (snd (POST connect_outcome listTools_outcome close_outcome request w))
      = calls w
  | Normal None =>
      fst (POST connect_outcome listTools_outcome close_outcome request w)
      = Normal (json (JObj [("error", JStr "Server configuration is required")])
                  400)
      /\ calls (snd (POST connect_outcome listTools_outcome close_outcome request w))
         = calls w
  | Normal (Some server) =>
      if type server =? "stdio" then
        connected_to
          (calls (snd (POST connect_outcome listTools_outcome close_outcome
                         request w)))
        = connected_to (calls w)
          ++ [MCPServerStdio (next_object w) (name server)
                (match command server with
                 | None => "npx"
                 | Some c => if c =? EmptyString then "npx" else c
                 end)
                (args_or_empty (args server)) (env server)]
      else if type server =? "http" then
        connected_to
          (calls (snd (POST connect_outcome listTools_outcome close_outcome
                         request w)))
        = connected_to (calls w)
          ++ [MCPServerStreamableHttp (next_object w) (name server)
                (or_default (url server) EmptyString)]
      else
        fst (POST connect_outcome listTools_outcome close_outcome request w)
        = Normal (json (JObj [("error", JStr "Invalid server type")]) 400)
        /\ calls (snd (POST connect_outcome listTools_outcome close_outcome
                         request w))
           = calls w
  end.
Proof.
  rewrite POST_completion, POST_state. unfold handler_calls, target.
  destruct request as [[server|]|e]; cbn [calls].
  - unfold try_catch, try_block, request_json. unfold bind at 1.
    destruct (type server =? "stdio").
    + rewrite connected_to_app. f_equal. unfold discovery_calls.
      destruct (command server) as [c|]; cbn [or_default];
        destruct (connect_outcome _); reflexivity.
    + destruct (type server =? "http").
      * rewrite connected_to_app. f_equal. unfold discovery_calls.
        destruct (connect_outcome _); reflexivity.
      * split; [reflexivity | apply app_nil_r].
  - split; [reflexivity | apply app_nil_r].
  - apply app_nil_r.
Qed.

(** C5. Whatever [connect], [listTools] and [close] do, the handler calls
    [close] exactly on the server objects it constructed (at most one),
    once each, as its last call; and what the handler returns or throws
    does not depend on what [close] does. *)
Theorem POST_closes_every_handle (request : NextRequest) (w : Frame) :
  exists new,
    calls (snd (POST connect_outcome listTools_outcome close_outcome request w))
    = calls w ++ new
    /\ closed new = constructed new
    /\ length (constructed new) <= 1
    /\ (forall s, In s (constructed new) ->
          count_occ Call_eq_dec new (Close s) = 1 /\ last new (Close s) = Close s)
    /\ (forall close_outcome',
          fst (POST connect_outcome listTools_outcome close_outcome' request w)
          = fst (POST connect_outcome listTools_outcome close_outcome request w)).
Proof.
  exists (handler_calls connect_outcome request (next_object w)).
  rewrite POST_state. cbn [calls]. split; [reflexivity|].
  assert (Hquiet : forall s,
            closed (discovery_calls connect_outcome s) = []
            /\ constructed (discovery_calls connect_outcome s) = []
            /\ count_occ Call_eq_dec (discovery_calls connect_outcome s) (Close s) = 0).
  { intros s. unfold discovery_calls.
    destruct (connect_outcome s);
      (split; [reflexivity|]; split; [reflexivity|]);
      repeat (rewrite count_occ_cons_neq by discriminate); reflexivity. }
  unfold handler_calls.
  destruct (target request (next_object w)) as [s|].
  - destruct (Hquiet s) as [Hcl [Hco Hcount]].
    assert (Hclosed : closed (Construct s :: discovery_calls connect_outcome s
                                ++ [Close s]) = [s]).
    { change (Construct s :: discovery_calls connect_outcome s ++ [Close s])
        with ([Construct s] ++ discovery_calls connect_outcome s ++ [Close s]).
      rewrite !closed_app, Hcl. reflexivity. }
    assert (Hconstructed :
              constructed (Construct s :: discovery_calls connect_outcome s
                             ++ [Close s]) = [s]).
    { change (Construct s :: discovery_calls connect_outcome s ++ [Close s])
        with ([Construct s] ++ discovery_calls connect_outcome s ++ [Close s]).
      rewrite !constructed_app, Hco. reflexivity. }
    rewrite Hclosed, Hconstructed.
    split; [reflexivity|]. split; [cbn; lia|]. split.
    + intros s' [<-|[]]. split.
      * rewrite count_occ_cons_neq by discriminate.
        rewrite count_occ_app, Hcount.
        rewrite count_occ_cons_eq by reflexivity. reflexivity.
      * rewrite app_comm_cons. apply last_last.
    + intros close'. rewrite !POST_completion. reflexivity.
  - split; [reflexivity|]. split; [cbn; lia|]. split; [intros s []|].
    intros close'. rewrite !POST_completion. reflexivity.
Qed.

(** C9, amended to catalogs none of whose entries is [null] or
    [undefined].  When the connection and the listing succeed on such a
    catalog, every entry yields one entry of the returned list, in order;
    an entry whose [name] is missing gets ["Unknown Tool"], one whose
    [description] is missing gets ["No description available"], and the
    response is the success response. *)
Theorem POST_defaults_missing_fields
    (server : MCPServerConfig) (s : MCPServer) (tools : list JsValue) (w : Frame) :
  target (Normal (Some server)) (next_object w) = Some s ->
  connect_outcome s = None ->
  listTools_outcome s = Normal tools ->
  Forall (fun tool => nullish tool = false) tools ->
  exists infos,
    fst (POST connect_outcome listTools_outcome close_outcome
           (Normal (Some server)) w)
    = Normal (json (JObj [("success", JBool true); ("tools", JArr infos)]) 200)
    /\ Forall2
         (fun tool info =>
            (get_property tool "name" = JUndefined ->
             get_property info "name" = JStr "Unknown Tool")
            /\ (get_property tool "description" = JUndefined ->
                get_property info "description" = JStr "No description available")
            /\ get_property info "name"
               = js_or (get_property tool "name") (JStr "Unknown Tool")
            /\ get_property info "description"
               = js_or (get_property tool "description")
                   (JStr "No description available"))
         tools infos.
Proof.
  intros Ht Hc Hl Htools. exists (map described tools). split.
  - rewrite POST_completion. unfold try_catch, try_block, request_json.
    unfold bind at 1. unfold target in Ht.
    assert (Hrun : forall w0,
      fst ((obj <- allocate ;;
            record (Construct s) ;; set_mcpServer (Some s) ;;
            discover_tools connect_outcome listTools_outcome s) w0)
      = Normal (json (JObj [("success", JBool true);
                            ("tools", JArr (map described tools))]) 200)).
    { intros w0. unfold bind at 1. unfold allocate at 1.
      unfold bind at 1. unfold record at 1, modify at 1.
      unfold bind at 1. unfold set_mcpServer at 1, modify at 1.
      apply discover_tools_success; assumption. }
    destruct (type server =? "stdio").
    + injection Ht as Ht. unfold bind at 1. unfold allocate at 1.
      cbv beta iota zeta. cbn [next_object]. rewrite Ht.
      match goal with
      | |- fst (match ?m with _ => _ end) = _ =>
          pose proof (Hrun {| mcpServer := None; next_object := next_object w;
                              calls := calls w |}) as H0;
          unfold bind at 1 in H0; unfold allocate at 1 in H0;
          cbv beta iota zeta in H0; cbn [next_object] in H0;
          destruct m as [[r|e] w1]; cbn [fst] in H0;
          [rewrite H0; reflexivity | discriminate H0]
      end.
    + destruct (type server =? "http"); [|discriminate Ht].
      injection Ht as Ht. unfold bind at 1. unfold allocate at 1.
      cbv beta iota zeta. cbn [next_object]. rewrite Ht.
      match goal with
      | |- fst (match ?m with _ => _ end) = _ =>
          pose proof (Hrun {| mcpServer := None; next_object := next_object w;
                              calls := calls w |}) as H0;
          unfold bind at 1 in H0; unfold allocate at 1 in H0;
          cbv beta iota zeta in H0; cbn [next_object] in H0;
          destruct m as [[r|e] w1]; cbn [fst] in H0;
          [rewrite H0; reflexivity | discriminate H0]
      end.
  - clear. induction tools as [|tool tools IH]; cbn [map]; constructor;
      [|exact IH].
    unfold described. cbn.
    repeat split; try reflexivity; intros ->; reflexivity.
Qed.

End Route.

(** *** Concrete runs *)

(** C4 as stated fails: for a ['stdio'] configuration without [command]
    the handler constructs the server with command ['npx'], connects to it
    and answers with the success response. *)
Lemma POST_stdio_without_command_counterexample :
  command Sample.bare_stdio = None
  /\ connected_to
       (calls (snd (POST Sample.always_ok Sample.lists_catalog Sample.always_ok
                      (Normal (Some Sample.bare_stdio)) entry)))
     = [MCPServerStdio 0 "files" "npx" [] None]
  /\ fst (POST Sample.always_ok Sample.lists_catalog Sample.always_ok
            (Normal (Some Sample.bare_stdio)) entry)
     = Normal (json (JObj [("success", JBool true);
                           ("tools", JArr (map described Sample.catalog))]) 200).
Proof. repeat split; reflexivity. Qed.

(** A listing that fails and a close that fails: one construct, one
    close, and the failure response of the listing. *)
Example POST_listing_fails :
  POST Sample.always_ok Sample.listing_fails Sample.always_fails
    (Normal (Some Sample.weather)) entry
  = (Normal (json (JObj [("error",
                          JStr "Failed to discover tools: protocol error");
                         ("tools", JArr [])]) 500),
     {| mcpServer := Some (MCPServerStreamableHttp 0 "weather" "http://x");
        next_object := 1;
        calls := [Construct (MCPServerStreamableHttp 0 "weather" "http://x");
                  Connect (MCPServerStreamableHttp 0 "weather" "http://x");
                  ListTools (MCPServerStreamableHttp 0 "weather" "http://x");
                  Close (MCPServerStreamableHttp 0 "weather" "http://x")] |}).
Proof. reflexivity. Qed.

Lemma POST_closes_every_handle_witness :
  exists new,
    calls (snd (POST Sample.always_ok Sample.listing_fails Sample.always_fails
                  (Normal (Some Sample.weather)) entry))
    = calls entry ++ new
    /\ closed new = constructed new.
Proof.
  destruct (POST_closes_every_handle Sample.always_ok Sample.listing_fails
              Sample.always_fails (Normal (Some Sample.weather)) entry)
    as [new [Hcalls [Hclosed _]]].
  exists new. split; [exact Hcalls | exact Hclosed].
Defined.

Lemma POST_defaults_missing_fields_witness :
  target (Normal (Some Sample.weather)) (next_object entry)
  = Some (MCPServerStreamableHttp 0 "weather" "http://x")
  /\ Sample.always_ok (MCPServerStreamableHttp 0 "weather" "http://x") = None
  /\ Sample.lists_catalog (MCPServerStreamableHttp 0 "weather" "http://x")
     = Normal Sample.catalog
  /\ Forall (fun tool => nullish tool = false) Sample.catalog
  /\ exists infos,
       fst (POST Sample.always_ok Sample.lists_catalog Sample.always_ok
              (Normal (Some Sample.weather)) entry)
       = Normal (json (JObj [("success", JBool true); ("tools", JArr infos)]) 200).
Proof.
  assert (Hobjects : Forall (fun tool => nullish tool = false) Sample.catalog).
  { repeat constructor. }
  split; [reflexivity|]. split; [reflexivity|]. split; [reflexivity|].
  split; [exact Hobjects|].
  destruct (POST_defaults_missing_fields Sample.always_ok Sample.lists_catalog
              Sample.always_ok Sample.weather
              (MCPServerStreamableHttp 0 "weather" "http://x") Sample.catalog
              entry eq_refl eq_refl eq_refl Hobjects)
    as [infos [Hrun _]].
  exists infos. exact Hrun.
Defined.

(** C9 as stated fails on a catalog with a [null] entry: the entry with
    the empty name is not returned with its default; reading [name] on
    the [null] entry throws, and the answer is the failure response with
    an empty tool list. *)
Lemma POST_null_entry_counterexample :
  Sample2.lists_unnamed_then_null (MCPServerStreamableHttp 0 "weather" "http://x")
  = Normal [JObj [("name", JStr EmptyString)]; JNull]
  /\ Sample.always_ok (MCPServerStreamableHttp 0 "weather" "http://x") = None
  /\ fst (POST Sample.always_ok Sample2.lists_unnamed_then_null Sample.always_ok
            (Normal (Some Sample.weather)) entry)
     = Normal
         (json
            (JObj [("error",
                    JStr "Failed to discover tools: Cannot read properties of null (reading 'name')");
                   ("tools", JArr [])])
            500).
Proof. repeat split; vm_compute; reflexivity. Qed.

(** The returned list for the sample catalog. *)
Example described_catalog :
  map described Sample.catalog
  = [JObj [("name", JStr "search"); ("description", JStr "Searches the web")];
     JObj [("name", JStr "Unknown Tool");
           ("description", JStr "No description available")];
     JObj [("name", JStr "Unknown Tool"); ("description", JStr "Unnamed")]].
Proof. reflexivity. Qed.

End DiscoverFacts.

(* ================================================================== *)
(** * Properties of the streaming translator *)
(* ================================================================== *)

Module AgentsFacts.
Import Agents AgentsSpec AgentsEvents AgentsOutcome.
Local Open Scope list_scope.

Section Translator.
Variable JSON_stringify : JsValue -> string.
Variable Date_now : nat -> Z.

Lemma appends_silent {A} (P : JsValue -> Prop) (m : Eff Run A) :
  (forall r, channel (snd (m r)) = channel r) -> appends JSON_stringify P m.
Proof.
  intros H r. exists []. split; [constructor|].
  rewrite H, app_nil_r. reflexivity.
Qed.

Lemma appends_ret {A} (P : JsValue -> Prop) (a : A) : appends JSON_stringify P (ret a).
Proof. apply appends_silent. reflexivity. Qed.

Lemma appends_throw {A} (P : JsValue -> Prop) (e : JsValue) :
  appends JSON_stringify P (@throw Run A e).
Proof. apply appends_silent. reflexivity. Qed.

Lemma appends_prop (P : JsValue -> Prop) (v : JsValue) (k : string) :
  appends JSON_stringify P (@prop Run v k).
Proof.
  apply appends_silent. intros r. unfold prop.
  destruct (nullish v); reflexivity.
Qed.

Lemma appends_gets {A} (P : JsValue -> Prop) (f : Run -> A) :
  appends JSON_stringify P (gets f).
Proof. apply appends_silent. reflexivity. Qed.

Lemma appends_set_textContent (P : JsValue -> Prop) (v : JsValue) :
  appends JSON_stringify P (set_textContent v).
Proof. apply appends_silent. reflexivity. Qed.

Lemma appends_Date_now (P : JsValue -> Prop) :
  appends JSON_stringify P (Date_now_toString Date_now).
Proof. apply appends_silent. reflexivity. Qed.

Lemma appends_send (P : JsValue -> Prop) (frame : JsValue) :
  P frame -> appends JSON_stringify P (send JSON_stringify frame).
Proof.
  intros H r. exists [frame]. split; [constructor; [exact H | constructor]|].
  reflexivity.
Qed.

Lemma appends_bind {A B} (P : JsValue -> Prop) (m : Eff Run A)
    (k : A -> Eff Run B) :
  appends JSON_stringify P m ->
  (forall a, appends JSON_stringify P (k a)) ->
  appends JSON_stringify P (bind m k).
Proof.
  intros Hm Hk r. unfold bind.
  destruct (Hm r) as [f1 [HP1 H1]].
  destruct (m r) as [[a|e] r1]; cbn [snd] in H1.
  - destruct (Hk a r1) as [f2 [HP2 H2]].
    exists (f1 ++ f2). split; [apply Forall_app; split; assumption|].
    rewrite H2, H1, map_app, app_assoc. reflexivity.
  - exists f1. split; assumption.
Qed.

Lemma appends_for_of {A} (P : JsValue -> Prop) (l : list A)
    (body : A -> Eff Run unit) :
  (forall x, appends JSON_stringify P (body x)) ->
  appends JSON_stringify P (for_of l body).
Proof.
  intros Hbody. induction l as [|x l IH]; cbn [for_of].
  - apply appends_ret.
  - apply appends_bind; [apply Hbody | intros _; exact IH].
Qed.

Lemma appends_for_await (P : JsValue -> Prop) (stream : AsyncIterable)
    (body : JsValue -> Eff Run unit) :
  (forall x, appends JSON_stringify P (body x)) ->
  appends JSON_stringify P (for_await stream body).
Proof.
  intros Hbody. induction stream as [event rest IH| |error]; cbn [for_await].
  - apply appends_bind; [apply Hbody | intros _; exact IH].
  - apply appends_ret.
  - apply appends_throw.
Qed.

Lemma appends_filter_array (P : JsValue -> Prop) (p : JsValue -> Eff Run bool)
    (l : list JsValue) :
  (forall x, appends JSON_stringify P (p x)) ->
  appends JSON_stringify P (filter_array p l).
Proof.
  intros Hp. induction l as [|x l IH]; cbn [filter_array].
  - apply appends_ret.
  - apply appends_bind; [apply Hp|]. intros keep.
    apply appends_bind; [exact IH|]. intros xs. apply appends_ret.
Qed.

Lemma appends_map_array (P : JsValue -> Prop) (f : JsValue -> Eff Run JsValue)
    (l : list JsValue) :
  (forall x, appends JSON_stringify P (f x)) ->
  appends JSON_stringify P (map_array f l).
Proof.
  intros Hf. induction l as [|x l IH]; cbn [map_array].
  - apply appends_ret.
  - apply appends_bind; [apply Hf|]. intros y.
    apply appends_bind; [exact IH|]. intros ys. apply appends_ret.
Qed.

(** Decomposes a goal [appends P m] along the structure of [m]. *)
Ltac appends_step :=
  match goal with
  | |- appends _ _ (bind _ _) => apply appends_bind; [|intros ?]
  | |- appends _ _ (ret _) => apply appends_ret
  | |- appends _ _ (throw _) => apply appends_throw
  | |- appends _ _ (prop _ _) => apply appends_prop
  | |- appends _ _ (gets _) => apply appends_gets
  | |- appends _ _ (set_textContent _) => apply appends_set_textContent
  | |- appends _ _ (Date_now_toString _) => apply appends_Date_now
  | |- appends _ _ (for_of _ _) => apply appends_for_of; intros ?
  | |- appends _ _ (filter_array _ _) => apply appends_filter_array; intros ?
  | |- appends _ _ (map_array _ _) => apply appends_map_array; intros ?
  | |- appends _ _ (if ?b then _ else _) => destruct b
  | |- appends _ _ (send _ _) =>
      apply appends_send; unfold body_frame, frame_type; cbn; tauto
  end.

Lemma on_tool_called_appends (item : JsValue) :
  appends JSON_stringify body_frame (on_tool_called JSON_stringify Date_now item).
Proof.
  unfold on_tool_called, tool_args_and_result. repeat appends_step.
Qed.

Lemma on_content_item_appends (contentItem : JsValue) :
  appends JSON_stringify body_frame (on_content_item JSON_stringify contentItem).
Proof.
  unfold on_content_item, is_url_citation, url_and_title. repeat appends_step.
Qed.

Lemma on_message_output_appends (item : JsValue) :
  appends JSON_stringify body_frame (on_message_output JSON_stringify item).
Proof.
  unfold on_message_output. repeat appends_step.
  apply on_content_item_appends.
Qed.

Lemma on_event_appends (event : JsValue) :
  appends JSON_stringify body_frame (on_event JSON_stringify Date_now event).
Proof.
  unfold on_event.
  repeat first [ apply on_tool_called_appends
               | apply on_message_output_appends
               | appends_step ].
Qed.

Lemma translate_appends (stream : AsyncIterable) :
  appends JSON_stringify body_frame (translate JSON_stringify Date_now stream).
Proof.
  unfold translate. appends_step; [appends_step|].
  apply appends_for_await. apply on_event_appends.
Qed.

Lemma of_type_body_frames (t : string) (frames : list JsValue) :
  Forall body_frame frames ->
  t = "done" \/ t = "error" ->
  of_type t frames = [].
Proof.
  intros Hb Ht. induction Hb as [|f frames Hf _ IH]; [reflexivity|].
  unfold of_type in *. cbn [filter]. rewrite IH.
  destruct Hf as [H|[H|H]]; rewrite H; destruct Ht as [-> | ->]; reflexivity.
Qed.

(** *** Tool calls *)

Lemma truthy_not_nullish (v : JsValue) : truthy v = true -> nullish v = false.
Proof. destruct v; cbn; congruence. Qed.

Lemma opt_get_truthy (v : JsValue) (k : string) :
  truthy (opt_get v k) = true -> nullish v = false.
Proof. unfold opt_get. destruct (nullish v); cbn; congruence. Qed.

Lemma opt_get_is_str (v : JsValue) (k lit : string) :
  is_str (opt_get v k) lit = true -> nullish v = false.
Proof. unfold opt_get. destruct (nullish v); cbn; congruence. Qed.

Lemma opt_get_object (v : JsValue) (k : string) :
  nullish v = false -> opt_get v k = get_property v k.
Proof. unfold opt_get. intros ->. reflexivity. Qed.

Lemma prop_run (v : JsValue) (k : string) (r : Run) :
  nullish v = false -> prop v k r = (Normal (get_property v k), r).
Proof. unfold prop. intros ->. reflexivity. Qed.

Lemma js_or_chain (a b c : JsValue) :
  js_or (js_or a b) c
  = if truthy a then a else if truthy b then b else c.
Proof.
  unfold js_or. destruct (truthy a) eqn:Ha; [rewrite Ha; reflexivity|].
  reflexivity.
Qed.

(** The [if]/[else if] chain never throws and touches no state. *)
Lemma tool_args_and_result_run (rawItem : JsValue) (r : Run) :
  tool_args_and_result JSON_stringify rawItem r
  = (Normal (tool_arguments JSON_stringify rawItem,
             if is_web_search rawItem then
               JStr (web_search_summary
                       (get_property (get_property rawItem "action") "query"))
             else if is_hosted_search rawItem then
               JStr (hosted_search_summary
                       (get_property (get_property (get_property rawItem "providerData")
                                   "action") "query"))
             else JStr "Tool executed successfully"),
     r).
Proof.
  unfold tool_args_and_result, tool_arguments, is_web_search, is_hosted_search.
  destruct (is_str (opt_get rawItem "type") "web_search_call"
            && truthy (opt_get rawItem "action")) eqn:Hweb.
  { apply andb_true_iff in Hweb as [_ Hact].
    pose proof (opt_get_truthy _ _ Hact) as Hraw.
    rewrite opt_get_object in Hact by assumption.
    unfold bind. rewrite (prop_run rawItem) by assumption.
    rewrite prop_run by (apply truthy_not_nullish; assumption).
    reflexivity. }
  destruct (is_str (opt_get rawItem "type") "hosted_tool_call"
            && truthy (opt_get (opt_get rawItem "providerData") "action"))
    eqn:Hhosted.
  { apply andb_true_iff in Hhosted as [_ Hact].
    pose proof (opt_get_truthy _ _ Hact) as Hpd.
    assert (Hraw : nullish rawItem = false).
    { unfold opt_get in Hpd. destruct (nullish rawItem);
        [discriminate Hpd | reflexivity]. }
    rewrite (opt_get_object rawItem) in Hact, Hpd by assumption.
    rewrite opt_get_object in Hact by assumption.
    unfold bind. rewrite (prop_run rawItem) by assumption.
    rewrite (prop_run (get_property rawItem "providerData")) by assumption.
    rewrite prop_run by (apply truthy_not_nullish; assumption).
    reflexivity. }
  destruct (truthy (opt_get rawItem "providerData")) eqn:Hpd; [|reflexivity].
  pose proof (opt_get_truthy _ _ Hpd) as Hraw.
  unfold bind. rewrite prop_run by assumption. reflexivity.
Qed.

Lemma on_tool_called_run (item : JsValue) (r : Run) :
  nullish item = false ->
  on_tool_called JSON_stringify Date_now item r
  = (Normal tt,
     {| textContent := textContent r;
        channel := channel r
                   ++ [enqueued JSON_stringify
                         (tool_call_done JSON_stringify
                            (Date_now (clock_reads r))
                            (get_property item "rawItem"))];
        clock_reads := if truthy (opt_get (get_property item "rawItem") "id")
                       then clock_reads r else S (clock_reads r) |}).
Proof.
  intros Hitem. unfold on_tool_called.
  unfold bind at 1. rewrite prop_run by assumption.
  unfold bind at 1. rewrite tool_args_and_result_run.
  set (rawItem := get_property item "rawItem").
  rewrite js_or_chain.
  unfold tool_call_done, tool_result, js_or. cbn [fst snd].
  assert (Hout : forall dflt,
            (if truthy (opt_get rawItem "output")
             then prop rawItem "output" else ret dflt) r
            = (Normal (if truthy (opt_get rawItem "output")
                       then get_property rawItem "output" else dflt), r)).
  { intros dflt. destruct (truthy (opt_get rawItem "output")) eqn:Ho;
      [|reflexivity].
    apply prop_run. apply (opt_get_truthy _ _ Ho). }
  unfold bind at 1. rewrite Hout.
  unfold bind at 1.
  destruct (truthy (opt_get rawItem "id")); reflexivity.
Qed.

(** The precedence of the result, case by case. *)
Lemma tool_result_output (rawItem : JsValue) :
  truthy (opt_get rawItem "output") = true ->
  tool_result rawItem = get_property rawItem "output".
Proof. unfold tool_result. intros ->. reflexivity. Qed.

Lemma tool_result_web_search (rawItem : JsValue) :
  truthy (opt_get rawItem "output") = false ->
  is_web_search rawItem = true ->
  tool_result rawItem
  = JStr (web_search_summary
            (get_property (get_property rawItem "action") "query")).
Proof. unfold tool_result. intros -> ->. reflexivity. Qed.

Lemma tool_result_placeholder (rawItem : JsValue) :
  truthy (opt_get rawItem "output") = false ->
  is_web_search rawItem = false ->
  is_hosted_search rawItem = false ->
  tool_result rawItem = JStr "Tool executed successfully".
Proof. unfold tool_result. intros -> -> ->. reflexivity. Qed.

Lemma tool_arguments_provider_data (rawItem : JsValue) :
  is_web_search rawItem = false ->
  is_hosted_search rawItem = false ->
  truthy (opt_get rawItem "providerData") = true ->
  tool_arguments JSON_stringify rawItem
  = JStr (JSON_stringify (get_property rawItem "providerData")).
Proof. unfold tool_arguments. intros -> -> ->. reflexivity. Qed.

(** *** Message chunks *)

Lemma filter_array_run (annotations : list JsValue) (r : Run) :
  Forall (fun ann => nullish ann = false) annotations ->
  filter_array is_url_citation annotations r
  = (Normal (filter (fun ann => is_str (get_property ann "type") "url_citation")
               annotations), r).
Proof.
  induction 1 as [|ann annotations Hann _ IH]; [reflexivity|].
  cbn [filter_array filter]. unfold bind at 1.
  unfold is_url_citation at 1. unfold bind at 1.
  rewrite prop_run by assumption. unfold ret at 1.
  unfold bind at 1. rewrite IH. reflexivity.
Qed.

Lemma map_array_run (annotations : list JsValue) (r : Run) :
  Forall (fun ann => nullish ann = false) annotations ->
  map_array url_and_title annotations r
  = (Normal (map (fun ann => JObj [("url", get_property ann "url");
                                   ("title", get_property ann "title")])
               annotations), r).
Proof.
  induction 1 as [|ann annotations Hann _ IH]; [reflexivity|].
  cbn [map_array map]. unfold bind at 1.
  unfold url_and_title at 1. unfold bind at 1.
  rewrite prop_run by assumption. unfold bind at 1.
  rewrite prop_run by assumption. unfold ret at 1.
  unfold bind at 1. rewrite IH. reflexivity.
Qed.

(** A [message_output_created] event on a [message_output_item] runs
    the chunk handler on every element of its content array, in order. *)
Lemma on_event_message_output (event : JsValue) (r : Run) :
  is_str (get_property event "type") "run_item_stream_event" = true ->
  is_str (get_property event "name") "message_output_created" = true ->
  is_str (get_property (get_property event "item") "type") "message_output_item"
  = true ->
  on_event JSON_stringify Date_now event r
  = for_of
      (array_elements
         (opt_get (get_property (get_property event "item") "rawItem") "content"))
      (on_content_item JSON_stringify) r.
Proof.
  intros Htype Hname Hitem_type.
  assert (Hevent : nullish event = false).
  { destruct event; try reflexivity; discriminate Htype. }
  assert (Hitem : nullish (get_property event "item") = false).
  { destruct (get_property event "item"); try reflexivity;
      discriminate Hitem_type. }
  assert (Hother : is_str (get_property event "name") "tool_called" = false).
  { destruct (get_property event "name") as [| | | |n| | |];
      try discriminate Hname.
    cbn in Hname |- *. apply String.eqb_eq in Hname. subst n. reflexivity. }
  unfold on_event.
  unfold bind at 1. rewrite prop_run by assumption. rewrite Htype.
  unfold bind at 1. rewrite prop_run by assumption.
  unfold bind at 1. rewrite prop_run by assumption.
  rewrite opt_get_object by assumption.
  rewrite Hname, Hitem_type, Hother. cbn [andb].
  unfold bind at 1. unfold ret at 1.
  unfold on_message_output. unfold bind at 1. rewrite prop_run by assumption.
  destruct (opt_get (get_property (get_property event "item") "rawItem")
              "content");
    cbn [isArray array_elements]; rewrite ?andb_false_r; reflexivity.
Qed.

Lemma Forall_filter {A} (P : A -> Prop) (f : A -> bool) (l : list A) :
  Forall P l -> Forall P (filter f l).
Proof.
  induction 1 as [|x l Hx _ IH]; cbn; [constructor|].
  destruct (f x); [constructor; assumption | assumption].
Qed.

(** *** How the iteration ends *)

Lemma bind_abrupt {A B} (m : Eff Run A) (k : A -> Eff Run B) (r : Run)
    (error : JsValue) :
  fst (m r) = Abrupt error -> fst (bind m k r) = Abrupt error.
Proof.
  unfold bind. destruct (m r) as [[a|e] r1]; cbn; [discriminate|].
  intros H. injection H as ->. reflexivity.
Qed.

Lemma filter_array_outcome (annotations : list JsValue) (r : Run) :
  fst (filter_array is_url_citation annotations r)
  = match find nullish annotations with
    | Some ann => Abrupt (TypeError_read ann "type")
    | None =>
        Normal (filter (fun ann => is_str (get_property ann "type") "url_citation")
                  annotations)
    end.
Proof.
  induction annotations as [|ann annotations IH]; [reflexivity|].
  cbn [filter_array find filter]. unfold bind at 1.
  unfold is_url_citation at 1. unfold bind at 1.
  destruct (nullish ann) eqn:Hann.
  - unfold prop. rewrite Hann. reflexivity.
  - rewrite prop_run by assumption. unfold ret at 1. unfold bind at 1.
    destruct (filter_array is_url_citation annotations r) as [[xs|e] r1];
      cbn [fst] in IH; destruct (find nullish annotations);
      try discriminate IH; injection IH as IH; subst; reflexivity.
Qed.

Lemma find_nullish_none (l : list JsValue) :
  find nullish l = None -> Forall (fun v => nullish v = false) l.
Proof.
  intros H. apply Forall_forall. intros v Hv. exact (find_none _ _ H v Hv).
Qed.

Lemma on_content_item_outcome (contentItem : JsValue) (r : Run) :
  fst (on_content_item JSON_stringify contentItem r)
  = match item_failure contentItem with
    | Some error => Abrupt error
    | None => Normal tt
    end.
Proof.
  unfold item_failure, is_chunk.
  destruct (nullish contentItem) eqn:Hitem.
  { unfold on_content_item, bind at 1, prop. rewrite Hitem. reflexivity. }
  unfold on_content_item.
  unfold bind at 1. rewrite prop_run by assumption.
  destruct (is_str (get_property contentItem "type") "output_text");
    [|reflexivity].
  unfold bind at 1. rewrite prop_run by assumption.
  destruct (truthy (get_property contentItem "text")); [|reflexivity].
  cbn [andb].
  unfold bind at 1. unfold set_textContent at 1, modify at 1.
  unfold bind at 1. rewrite prop_run by assumption.
  set (annotations := get_property contentItem "annotations").
  destruct (find nullish (array_elements annotations)) as [ann|] eqn:Hfind.
  - assert (Harr : truthy annotations && isArray annotations = true).
    { destruct annotations; try discriminate Hfind. reflexivity. }
    rewrite Harr. apply bind_abrupt. apply bind_abrupt.
    rewrite filter_array_outcome, Hfind. reflexivity.
  - pose proof (find_nullish_none _ Hfind) as Hanns.
    unfold bind at 1.
    destruct (truthy annotations && isArray annotations); [|reflexivity].
    unfold bind at 1. rewrite filter_array_run by assumption.
    unfold bind at 1. rewrite map_array_run by (apply Forall_filter; assumption).
    destruct (map _ (filter _ (array_elements annotations))); reflexivity.
Qed.

Lemma for_of_outcome (items : list JsValue) (r : Run) :
  fst (for_of items (on_content_item JSON_stringify) r)
  = match first_failure items with
    | Some error => Abrupt error
    | None => Normal tt
    end.
Proof.
  revert r. induction items as [|item items IH]; intros r; [reflexivity|].
  cbn [for_of first_failure]. unfold bind at 1.
  pose proof (on_content_item_outcome item r) as Hitem.
  destruct (on_content_item JSON_stringify item r) as [[[]|e] r1];
    cbn [fst] in Hitem; destruct (item_failure item);
    try discriminate Hitem.
  - apply IH.
  - injection Hitem as ->. reflexivity.
Qed.

Lemma on_event_outcome (event : JsValue) (r : Run) :
  fst (on_event JSON_stringify Date_now event r)
  = match event_failure event with
    | Some error => Abrupt error
    | None => Normal tt
    end.
Proof.
  unfold event_failure, is_message_output.
  destruct (nullish event) eqn:Hevent.
  { unfold on_event, bind at 1, prop. rewrite Hevent. reflexivity. }
  destruct (is_str (get_property event "type") "run_item_stream_event")
    eqn:Htype; cbn [andb].
  2:{ unfold on_event. unfold bind at 1. rewrite prop_run by assumption.
      rewrite Htype. reflexivity. }
  destruct (is_str (get_property event "name") "message_output_created"
            && is_str (opt_get (get_property event "item") "type")
                 "message_output_item") eqn:Hmessage.
  - apply andb_true_iff in Hmessage as [Hname Hitem_type].
    pose proof (opt_get_is_str _ _ _ Hitem_type) as Hitem.
    rewrite opt_get_object in Hitem_type by assumption.
    rewrite on_event_message_output by assumption.
    apply for_of_outcome.
  - unfold on_event.
    unfold bind at 1. rewrite prop_run by assumption. rewrite Htype.
    unfold bind at 1. rewrite prop_run by assumption.
    unfold bind at 1. rewrite prop_run by assumption.
    rewrite Hmessage. unfold bind at 1.
    destruct (is_str (get_property event "name") "tool_called"
              && is_str (opt_get (get_property event "item") "type")
                   "tool_call_item") eqn:Htool; [|reflexivity].
    apply andb_true_iff in Htool as [_ Hitem_type].
    rewrite on_tool_called_run by (apply (opt_get_is_str _ _ _ Hitem_type)).
    reflexivity.
Qed.

Lemma for_await_outcome (stream : AsyncIterable) (r : Run) :
  fst (for_await stream (on_event JSON_stringify Date_now) r) = iteration stream.
Proof.
  revert r. induction stream as [event rest IH| |error]; intros r;
    [|reflexivity|reflexivity].
  cbn [for_await iteration]. unfold bind at 1.
  pose proof (on_event_outcome event r) as Hevent.
  destruct (on_event JSON_stringify Date_now event r) as [[[]|e] r1];
    cbn [fst] in Hevent; destruct (event_failure event);
    try discriminate Hevent.
  - apply IH.
  - injection Hevent as ->. reflexivity.
Qed.

Lemma translate_outcome (stream : AsyncIterable) (r : Run) :
  fst (translate JSON_stringify Date_now stream r) = iteration stream.
Proof.
  unfold translate, bind at 1, set_textContent at 1, modify at 1.
  apply for_await_outcome.
Qed.

(** *** Claims *)

(** C3, amended on the message of the [error] frame.  [start] always
    returns normally.  The controller receives the frames of the loop, none
    of which is a [done] or an [error] frame, then one terminal frame, then
    one [close], and nothing else.  When the stream ends after events that
    are all handled, the terminal frame is the [done] frame with reason
    ["stop"] and there is no [error] frame.  When the stream rejects, or
    handling one of its events throws, the terminal frame is the [error]
    frame and there is no [done] frame; it carries the message of the
    thrown value when that is an [Error], and ["Unknown error"] for any
    other thrown value. *)
Theorem start_ends_with_one_terminal_frame (stream : AsyncIterable) (r : Run) :
  exists frames,
    Forall body_frame frames
    /\ fst (translate JSON_stringify Date_now stream r) = iteration stream
    /\ channel (snd (translate JSON_stringify Date_now stream r))
       = channel r ++ map (enqueued JSON_stringify) frames
    /\ fst (start JSON_stringify Date_now stream r) = Normal tt
    /\ channel (snd (start JSON_stringify Date_now stream r))
       = channel r
         ++ map (enqueued JSON_stringify)
              (frames ++ [terminal_frame (iteration stream)])
         ++ [CloseChannel]
    /\ match iteration stream with
       | Normal _ =>
           terminal_frame (iteration stream)
           = JObj [("type", JStr "done"); ("finish_reason", JStr "stop")]
           /\ of_type "done" (frames ++ [terminal_frame (iteration stream)])
              = [terminal_frame (iteration stream)]
           /\ of_type "error" (frames ++ [terminal_frame (iteration stream)])
              = []
       | Abrupt error =>
           terminal_frame (iteration stream)
           = JObj [("type", JStr "error");
                   ("error",
                    match error with
                    | JError _ message => JStr message
                    | _ => JStr "Unknown error"
                    end)]
           /\ of_type "done" (frames ++ [terminal_frame (iteration stream)])
              = []
           /\ of_type "error" (frames ++ [terminal_frame (iteration stream)])
              = [terminal_frame (iteration stream)]
       end.
Proof.
  destruct (translate_appends stream r) as [frames [Hbody Hchan]].
  pose proof (translate_outcome stream r) as Hend.
  exists frames. split; [exact Hbody|]. split; [exact Hend|].
  split; [exact Hchan|].
  unfold start, try_finally, try_catch, bind.
  destruct (translate JSON_stringify Date_now stream r) as [[[]|error] r1];
    cbn [fst snd] in *; rewrite <- Hend; cbn [terminal_frame].
  - split; [reflexivity|]. split.
    + cbn. rewrite Hchan, map_app, <- !app_assoc. reflexivity.
    + split; [reflexivity|].
      unfold of_type in *. rewrite !filter_app.
      fold (of_type "done" frames). fold (of_type "error" frames).
      rewrite !of_type_body_frames by (try assumption; tauto).
      split; reflexivity.
  - split; [reflexivity|]. split.
    + cbn. rewrite Hchan, map_app, <- !app_assoc. reflexivity.
    + split; [destruct error; reflexivity|].
      unfold of_type in *. rewrite !filter_app.
      fold (of_type "done" frames). fold (of_type "error" frames).
      rewrite !of_type_body_frames by (try assumption; tauto).
      split; reflexivity.
Qed.

(** C7, amended to chunks with text.  For an [output_text] content item
    whose text is not empty and whose annotations, if any, are objects:
    when it has [url_citation] annotations, one [tool_urls] frame listing
    their [{url, title}] pairs is sent, immediately followed by the
    [content] frame of the item; when it has none, only the [content]
    frame is sent. *)
Theorem on_content_item_cites_before_content (contentItem : JsValue) (r : Run) :
  is_str (get_property contentItem "type") "output_text" = true ->
  truthy (get_property contentItem "text") = true ->
  Forall (fun ann => nullish ann = false)
    (array_elements (get_property contentItem "annotations")) ->
  on_content_item JSON_stringify contentItem r
  = (Normal tt,
     {| textContent := get_property contentItem "text";
        channel :=
          channel r
          ++ map (enqueued JSON_stringify)
               (match citations contentItem with
                | [] => [content_frame (get_property contentItem "text")]
                | _ :: _ => [tool_urls (citations contentItem);
                             content_frame (get_property contentItem "text")]
                end);
        clock_reads := clock_reads r |}).
Proof.
  intros Htype Htext Hanns.
  assert (Hitem : nullish contentItem = false).
  { destruct contentItem; try reflexivity; discriminate Htype. }
  unfold on_content_item.
  unfold bind at 1. rewrite prop_run by assumption. rewrite Htype.
  unfold bind at 1. rewrite prop_run by assumption. rewrite Htext.
  unfold bind at 1. unfold set_textContent at 1, modify at 1.
  unfold bind at 1. rewrite prop_run by assumption.
  unfold citations.
  set (annotations := get_property contentItem "annotations") in *.
  unfold bind at 1.
  destruct (truthy annotations && isArray annotations) eqn:Harr.
  - unfold bind at 1. rewrite filter_array_run by assumption.
    unfold bind at 1. rewrite map_array_run by (apply Forall_filter; assumption).
    destruct (map _ (filter _ (array_elements annotations))) as [|u urls];
      [reflexivity|].
    unfold send, controller_enqueue, modify, bind, gets, ret.
    cbn [length Nat.ltb Nat.leb fst snd channel textContent clock_reads map].
    rewrite <- app_assoc. reflexivity.
  - assert (Hnone : array_elements annotations = []).
    { destruct annotations; try reflexivity. discriminate Harr. }
    rewrite Hnone. reflexivity.
Qed.

(** C8, amended.  For a [tool_called] event on a [tool_call_item], one
    [tool_call_done] frame is sent and nothing else happens.  Its result
    is the [output] of the raw item whenever it has one, for a search call
    too; otherwise the summary of a search call, otherwise the
    placeholder.  Its argument payload is the action of a search call,
    otherwise the provider data, otherwise ['{}'].  The name falls back to
    the type, then to ["unknown"]; the id to a clock reading; the status
    to ["completed"]. *)
Theorem on_event_tool_call_done (event : JsValue) (r : Run) :
  is_str (get_property event "type") "run_item_stream_event" = true ->
  is_str (get_property event "name") "tool_called" = true ->
  is_str (get_property (get_property event "item") "type") "tool_call_item" = true ->
  on_event JSON_stringify Date_now event r
  = (Normal tt,
     {| textContent := textContent r;
        channel :=
          channel r
          ++ [enqueued JSON_stringify
                (tool_call_done JSON_stringify (Date_now (clock_reads r))
                   (get_property (get_property event "item") "rawItem"))];
        clock_reads :=
          if truthy (opt_get (get_property (get_property event "item") "rawItem") "id")
          then clock_reads r else S (clock_reads r) |}).
Proof.
  intros Htype Hname Hitem_type.
  assert (Hevent : nullish event = false).
  { destruct event; try reflexivity; discriminate Htype. }
  assert (Hitem : nullish (get_property event "item") = false).
  { destruct (get_property event "item"); try reflexivity; discriminate Hitem_type. }
  unfold on_event.
  unfold bind at 1. rewrite prop_run by assumption. rewrite Htype.
  unfold bind at 1. rewrite prop_run by assumption.
  unfold bind at 1. rewrite prop_run by assumption.
  rewrite opt_get_object by assumption. rewrite Hname, Hitem_type.
  cbn [andb]. unfold bind at 1. rewrite on_tool_called_run by assumption.
  assert (Hother : is_str (get_property event "name") "message_output_created" = false).
  { destruct (get_property event "name") as [| | | |n| | |]; try discriminate Hname.
    cbn in Hname |- *. apply String.eqb_eq in Hname. subst n. reflexivity. }
  rewrite Hother. reflexivity.
Qed.

End Translator.

(** *** Concrete runs *)

(** A search call, then a message without citations: [tool_call_done],
    [content], [done], then the close. *)
Example search_then_message :
  channel
    (snd (start Sample.json Sample.clock
            (Yield (Sample.tool_called Sample.web_search_call)
               (Yield (Sample.message_output [Sample.output_text "It is sunny" []])
                  Return))
            fresh))
  = [enqueued Sample.json
       (tool_call_done Sample.json 1700000000000 Sample.web_search_call);
     enqueued Sample.json (content_frame (JStr "It is sunny"));
     enqueued Sample.json finishData;
     CloseChannel].
Proof. vm_compute. reflexivity. Qed.

(** A stream that rejects after a cited message: [tool_urls], [content],
    [error], then the close. *)
Example cited_message_then_failure :
  channel
    (snd (start Sample.json Sample.clock
            (Yield (Sample.message_output
                      [Sample.output_text "Sunny" [Sample.citation]])
               (Reject (JError "Error" "rate limited")))
            fresh))
  = [enqueued Sample.json
       (tool_urls [JObj [("url", JStr "http://w"); ("title", JStr "Weather")]]);
     enqueued Sample.json (content_frame (JStr "Sunny"));
     enqueued Sample.json
       (JObj [("type", JStr "error"); ("error", JStr "rate limited")]);
     CloseChannel].
Proof. vm_compute. reflexivity. Qed.

(** An event that is [null]: reading its [type] throws inside the loop,
    and the stream ends with the [error] frame of that [TypeError]. *)
Example null_event_is_reported :
  channel (snd (start Sample.json Sample.clock (Yield JNull Return) fresh))
  = [enqueued Sample.json
       (JObj [("type", JStr "error");
              ("error",
               JStr "Cannot read properties of null (reading 'type')")]);
     CloseChannel].
Proof. vm_compute. reflexivity. Qed.

(** A thrown value that is not an [Error]: the placeholder message. *)
Example thrown_string_is_unknown_error :
  channel (snd (start Sample.json Sample.clock (Reject (JStr "boom")) fresh))
  = [enqueued Sample.json
       (JObj [("type", JStr "error"); ("error", JStr "Unknown error")]);
     CloseChannel].
Proof. vm_compute. reflexivity. Qed.

(** C3 as stated fails on the message of the [error] frame when the
    thrown value is not an [Error]: a stream that rejects with the plain
    object [{message: "quota exceeded", status: 429}] ends with an [error]
    frame that carries ["Unknown error"], not that message. *)
Lemma start_rejected_with_object_counterexample :
  get_property
    (JObj [("message", JStr "quota exceeded"); ("status", JNum 429)]) "message"
  = JStr "quota exceeded"
  /\ channel
       (snd (start Sample.json Sample.clock
               (Reject (JObj [("message", JStr "quota exceeded");
                              ("status", JNum 429)]))
               fresh))
     = [enqueued Sample.json
          (JObj [("type", JStr "error"); ("error", JStr "Unknown error")]);
        CloseChannel].
Proof. split; vm_compute; reflexivity. Qed.

(** A [null] event, then a tool call that is never reached: the loop
    throws on the first event and the stream ends with the [error] frame
    of that [TypeError]. *)
Lemma start_ends_with_one_terminal_frame_witness :
  exists frames,
    Forall body_frame frames
    /\ fst (start Sample.json Sample.clock
              (Yield JNull (Yield (Sample.tool_called Sample.web_search_call) Return))
              fresh)
       = Normal tt
    /\ channel
         (snd (start Sample.json Sample.clock
                 (Yield JNull
                    (Yield (Sample.tool_called Sample.web_search_call) Return))
                 fresh))
       = map (enqueued Sample.json)
           (frames
            ++ [JObj [("type", JStr "error");
                      ("error",
                       JStr "Cannot read properties of null (reading 'type')")]])
         ++ [CloseChannel].
Proof.
  destruct (start_ends_with_one_terminal_frame Sample.json Sample.clock
              (Yield JNull (Yield (Sample.tool_called Sample.web_search_call) Return))
              fresh)
    as [frames [Hbody [_ [_ [Hrun [Hchan _]]]]]].
  exists frames. split; [exact Hbody|]. split; [exact Hrun | exact Hchan].
Defined.

Lemma on_content_item_cites_before_content_witness :
  is_str (get_property (Sample.output_text "Sunny" [Sample.citation]) "type")
    "output_text" = true
  /\ truthy (get_property (Sample.output_text "Sunny" [Sample.citation]) "text") = true
  /\ Forall (fun ann => nullish ann = false)
       (array_elements
          (get_property (Sample.output_text "Sunny" [Sample.citation]) "annotations"))
  /\ channel
       (snd (on_content_item Sample.json
               (Sample.output_text "Sunny" [Sample.citation]) fresh))
     = [enqueued Sample.json
          (tool_urls [JObj [("url", JStr "http://w"); ("title", JStr "Weather")]]);
        enqueued Sample.json (content_frame (JStr "Sunny"))].
Proof.
  assert (Hanns : Forall (fun ann => nullish ann = false)
            (array_elements
               (get_property (Sample.output_text "Sunny" [Sample.citation])
                  "annotations"))).
  { repeat constructor. }
  split; [reflexivity|]. split; [reflexivity|]. split; [exact Hanns|].
  rewrite (on_content_item_cites_before_content Sample.json
             (Sample.output_text "Sunny" [Sample.citation]) fresh
             eq_refl eq_refl Hanns).
  reflexivity.
Defined.

(** C7 as stated fails for a chunk whose text is empty: it has a citation
    and nothing is sent for it. *)
Lemma on_content_item_empty_text_counterexample :
  citations (Sample.output_text EmptyString [Sample.citation])
  = [JObj [("url", JStr "http://w"); ("title", JStr "Weather")]]
  /\ on_content_item Sample.json
       (Sample.output_text EmptyString [Sample.citation]) fresh
     = (Normal tt, fresh).
Proof. split; reflexivity. Qed.

Lemma on_event_tool_call_done_witness :
  is_str (get_property (Sample.tool_called Sample.web_search_call) "type")
    "run_item_stream_event" = true
  /\ is_str (get_property (Sample.tool_called Sample.web_search_call) "name")
       "tool_called" = true
  /\ is_str
       (get_property
          (get_property (Sample.tool_called Sample.web_search_call) "item")
          "type")
       "tool_call_item" = true
  /\ channel (snd (on_event Sample.json Sample.clock
                     (Sample.tool_called Sample.web_search_call) fresh))
     = [enqueued Sample.json
          (JObj [("type", JStr "tool_call_done");
                 ("tool_name", JStr "web_search_call");
                 ("tool_call_id", JStr "1700000000000");
                 ("arguments", JStr (Sample.json (JObj [("query", JStr "weather")])));
                 ("result",
                  JStr (web_search_summary (JStr "weather")));
                 ("status", JStr "completed")])].
Proof.
  split; [reflexivity|]. split; [reflexivity|]. split; [reflexivity|].
  rewrite (on_event_tool_call_done Sample.json Sample.clock
             (Sample.tool_called Sample.web_search_call) fresh
             eq_refl eq_refl eq_refl).
  reflexivity.
Defined.

(** C8 as stated fails for a web search call that carries an output: the
    result of the frame is the output, not the search summary. *)
Lemma on_event_search_output_counterexample :
  is_web_search Sample.web_search_call_with_output = true
  /\ channel (snd (on_event Sample.json Sample.clock
                     (Sample.tool_called Sample.web_search_call_with_output)
                     fresh))
     = [enqueued Sample.json
          (JObj [("type", JStr "tool_call_done");
                 ("tool_name", JStr "web_search_call");
                 ("tool_call_id", JStr "1700000000000");
                 ("arguments", JStr (Sample.json (JObj [("query", JStr "weather")])));
                 ("result", JStr "raw results");
                 ("status", JStr "completed")])]
  /\ JStr "raw results" <> JStr (web_search_summary (JStr "weather")).
Proof.
  split; [reflexivity|]. split; [vm_compute; reflexivity|].
  intros H. discriminate H.
Qed.

End AgentsFacts.

(* ================================================================== *)
(** * Further properties of the connection registry *)
(* ================================================================== *)

Module RegistryMore.
Import Registry RegistrySpec RegistryOps RegistryFacts.
Local Open Scope list_scope.

(** *** The map *)

Lemma get_set {V} (k k' : string) (v : V) (m : JsMap.t V) :
  get k (JsMap.set k' v m) = if k =? k' then Some v else get k m.
Proof.
  induction m as [|[k0 v0] m IH]; cbn.
  - reflexivity.
  - destruct (k' =? k0) eqn:E0; cbn.
    + apply String.eqb_eq in E0. subst k0.
      destruct (k =? k'); reflexivity.
    + rewrite IH. destruct (k =? k0) eqn:E1; [|reflexivity].
      apply String.eqb_eq in E1. subst k0.
      destruct (k =? k') eqn:E2; [|reflexivity].
      apply String.eqb_eq in E2. subst k'.
      rewrite String.eqb_refl in E0. discriminate E0.
Qed.

Lemma keys_set {V} (k : string) (v : V) (m : JsMap.t V) :
  JsMap.keys (JsMap.set k v m)
  = if JsMap.has k m then JsMap.keys m else JsMap.keys m ++ [k].
Proof.
  induction m as [|[k0 v0] m IH]; cbn; [reflexivity|].
  destruct (k =? k0) eqn:E; cbn.
  - reflexivity.
  - unfold JsMap.keys in IH. rewrite IH.
    destruct (JsMap.has k m); reflexivity.
Qed.

Lemma NoDup_keys_set {V} (k : string) (v : V) (m : JsMap.t V) :
  NoDup (JsMap.keys m) -> NoDup (JsMap.keys (JsMap.set k v m)).
Proof.
  intros Hnd. rewrite keys_set. destruct (JsMap.has k m) eqn:Hhas; [exact Hnd|].
  apply has_false_iff in Hhas.
  apply NoDup_app; repeat split.
  - exact Hnd.
  - constructor; [intros [] | constructor].
  - intros x Hx [<-|[]]. contradiction.
Qed.

Lemma length_set {V} (k : string) (v : V) (m : JsMap.t V) :
  length (JsMap.set k v m) <= S (length m).
Proof.
  induction m as [|[k0 v0] m IH]; cbn; [lia|].
  destruct (k =? k0); cbn; lia.
Qed.

(** *** The connection loop *)

Lemma object_id_new_server (n : nat) (config : MCPServerConfig) :
  object_id (new_server n config) = n.
Proof. unfold new_server. destruct (type config =? "stdio"); reflexivity. Qed.

Lemma attempts_in (n : nat) (configs : list MCPServerConfig)
    (a : MCPServerConfig * MCPServer) :
  In a (attempts n configs) ->
  In (fst a) configs
  /\ snd a = new_server (object_id (snd a)) (fst a)
  /\ n <= object_id (snd a) < n + length configs.
Proof.
  revert n. induction configs as [|c configs IH]; intros n; cbn; [intros []|].
  intros [<-|H].
  - cbn. rewrite object_id_new_server. repeat split; [left; reflexivity | lia | lia].
  - destruct (IH _ H) as [Hin [Hs Hb]].
    repeat split; [right; exact Hin | exact Hs | lia | lia].
Qed.

Section Manager.
Variable JSON_stringify : list MCPServerConfig -> string.
Variable connect_outcome : MCPServer -> option JsValue.

Lemma register_keys (m : JsMap.t MCPServer) (l : list (MCPServerConfig * MCPServer)) :
  NoDup (JsMap.keys m) -> NoDup (JsMap.keys (register connect_outcome m l)).
Proof.
  revert m. induction l as [|a l IH]; intros m Hnd; cbn [register]; [exact Hnd|].
  apply IH. destruct (connected connect_outcome a); [|exact Hnd].
  apply NoDup_keys_set. exact Hnd.
Qed.

Lemma register_length (m : JsMap.t MCPServer)
    (l : list (MCPServerConfig * MCPServer)) :
  length (register connect_outcome m l) <= length m + length l.
Proof.
  revert m. induction l as [|a l IH]; intros m; cbn [register length]; [lia|].
  specialize (IH (if connected connect_outcome a
                  then JsMap.set (id (fst a)) (snd a) m else m)).
  destruct (connected connect_outcome a).
  - pose proof (length_set (id (fst a)) (snd a) m). lia.
  - lia.
Qed.

Lemma find_snoc {A} (f : A -> bool) (l : list A) (x : A) :
  find f (l ++ [x])
  = match find f l with
    | Some y => Some y
    | None => if f x then Some x else None
    end.
Proof.
  induction l as [|y l IH]; cbn; [reflexivity|].
  destruct (f y); [reflexivity | exact IH].
Qed.

Lemma get_register (k : string) (m : JsMap.t MCPServer)
    (l : list (MCPServerConfig * MCPServer)) :
  get k (register connect_outcome m l)
  = match last_connected connect_outcome k l with
    | Some a => Some (snd a)
    | None => get k m
    end.
Proof.
  revert m. induction l as [|a l IH]; intros m; [reflexivity|].
  cbn [register]. rewrite IH. unfold last_connected. cbn [rev].
  rewrite find_snoc.
  destruct (find _ (rev l)) as [a'|]; [reflexivity|].
  destruct (connected connect_outcome a); cbn [andb].
  - rewrite get_set. rewrite (String.eqb_sym (id (fst a)) k).
    destruct (k =? id (fst a)); reflexivity.
  - reflexivity.
Qed.

Variable close_outcome : MCPServer -> option JsValue.

(** *** Invariant *)

Lemma well_formed_initial : well_formed connect_outcome mcpManager.
Proof.
  split; [intros _; reflexivity|]. split; constructor.
Qed.

Lemma well_formed_closeAllServers (p : Process) :
  well_formed connect_outcome (snd (closeAllServers close_outcome p)).
Proof.
  rewrite closeAllServers_run. split; [intros _; reflexivity|].
  split; constructor.
Qed.

Lemma well_formed_initializeServers (configs : list MCPServerConfig) (p : Process) :
  well_formed connect_outcome p ->
  well_formed connect_outcome
    (snd (initializeServers JSON_stringify connect_outcome close_outcome configs p)).
Proof.
  intros [Hinv [Hnd Hall]].
  destruct (reconnects JSON_stringify configs p) eqn:Hre.
  - rewrite initializeServers_reconnect by assumption. cbn [snd].
    assert (Hempty : (if isInitialized p then JsMap.empty else servers p)
                     = JsMap.empty).
    { destruct (isInitialized p) eqn:Hi; [reflexivity | apply Hinv, Hi]. }
    rewrite Hempty.
    split; [intros Hi; discriminate Hi|]. cbn [servers next_object].
    split; [apply register_keys; constructor|].
    apply Forall_forall. intros s Hs.
    destruct (register_values _ _ _ _ Hs) as [[] | [a [Hin [Hc ->]]]].
    split; [exact Hc|].
    destruct (attempts_in _ _ _ Hin) as [_ [_ Hb]]. lia.
  - rewrite initializeServers_reuse by assumption. repeat split; assumption.
Qed.

Lemma perform_run (op : Operation) (p : Process) :
  fst (perform JSON_stringify connect_outcome close_outcome op p) = Normal tt
  /\ (well_formed connect_outcome p ->
      well_formed connect_outcome
        (snd (perform JSON_stringify connect_outcome close_outcome op p))).
Proof.
  destruct op as [configs|configs| |]; cbn [perform].
  - unfold bind.
    pose proof (initializeServers_post JSON_stringify connect_outcome
                  close_outcome configs p) as [Hres _].
    pose proof (well_formed_initializeServers configs p) as Hwf.
    destruct (initializeServers _ _ _ configs p) as [[hs|e] p1];
      [|discriminate Hres].
    split; [reflexivity | exact Hwf].
  - unfold updateServers, bind.
    pose proof (initializeServers_post JSON_stringify connect_outcome
                  close_outcome configs p) as [Hres _].
    pose proof (well_formed_initializeServers configs p) as Hwf.
    destruct (initializeServers _ _ _ configs p) as [[hs|e] p1];
      [|discriminate Hres].
    split; [reflexivity | exact Hwf].
  - split; [reflexivity | intros H; exact H].
  - rewrite closeAllServers_run. split; [reflexivity|].
    intros _. pose proof (well_formed_closeAllServers p) as H.
    rewrite closeAllServers_run in H. exact H.
Qed.

(** *** Properties *)

(** X1. Whatever operations are called on the manager, in whatever order
    and whatever the servers do, no call throws, and afterwards the map
    has no duplicate key, every registered server is one whose connect
    resolved, and a registry that is not initialized is empty. *)
Theorem operations_keep_registry_well_formed (ops : list Operation) :
  fst (for_of ops (perform JSON_stringify connect_outcome close_outcome) mcpManager)
  = Normal tt
  /\ well_formed connect_outcome
       (snd (for_of ops (perform JSON_stringify connect_outcome close_outcome)
               mcpManager)).
Proof.
  assert (Hgen : forall p, well_formed connect_outcome p ->
    fst (for_of ops (perform JSON_stringify connect_outcome close_outcome) p)
    = Normal tt
    /\ well_formed connect_outcome
         (snd (for_of ops (perform JSON_stringify connect_outcome close_outcome) p))).
  { induction ops as [|op ops IH]; intros p Hp.
    - split; [reflexivity | exact Hp].
    - cbn [for_of]. unfold bind.
      destruct (perform_run op p) as [Hn Hwf].
      destruct (perform _ _ _ op p) as [[[]|e] p1]; [|discriminate Hn].
      apply IH. apply Hwf. exact Hp. }
  apply Hgen. apply well_formed_initial.
Qed.

(** X2. On a call that reconnects, for every list, duplicates included:
    there are at most as many returned handles as entries, and each of them
    is an object constructed by this call for an entry of the list, whose
    connect resolved; none was registered before. *)
Theorem initializeServers_returns_fresh_connected
    (configs : list MCPServerConfig) (p : Process) :
  well_formed connect_outcome p ->
  reconnects JSON_stringify configs p = true ->
  exists handles,
    fst (initializeServers JSON_stringify connect_outcome close_outcome configs p)
    = Normal handles
    /\ length handles <= length configs
    /\ forall h, In h handles ->
         connect_outcome h = None
         /\ next_object p <= object_id h
         /\ ~ In h (JsMap.values (servers p))
         /\ exists config, In config configs
                           /\ h = new_server (object_id h) config.
Proof.
  intros [Hinv [_ Hall]] Hre.
  rewrite initializeServers_reconnect by assumption. cbn [fst].
  assert (Hempty : (if isInitialized p then JsMap.empty else servers p)
                   = JsMap.empty).
  { destruct (isInitialized p) eqn:Hi; [reflexivity | apply Hinv, Hi]. }
  rewrite Hempty. eexists. split; [reflexivity|]. split.
  - unfold JsMap.values. rewrite length_map.
    pose proof (register_length JsMap.empty (attempts (next_object p) configs)) as H.
    rewrite <- (attempts_servers (next_object p) configs) at 2.
    rewrite length_map. cbn in H. exact H.
  - intros h Hh.
    destruct (register_values _ _ _ _ Hh) as [[] | [a [Hin [Hc ->]]]].
    destruct (attempts_in _ _ _ Hin) as [Hcfg [Hs Hb]].
    split; [exact Hc|]. split; [lia|]. split.
    + intros Hold. rewrite Forall_forall in Hall.
      destruct (Hall _ Hold) as [_ Hlt]. lia.
    + exists (fst a). split; [exact Hcfg | exact Hs].
Qed.

(** X3. When several entries share an id, the last of them that connects
    is the one registered under that id: on a call that reconnects, the
    map has, for every key, the server of the last entry with that id
    whose connect resolved, and nothing when there is none. *)
Theorem initializeServers_last_entry_wins
    (configs : list MCPServerConfig) (p : Process) (k : string) :
  registry_inv p ->
  reconnects JSON_stringify configs p = true ->
  get k (servers
           (snd (initializeServers JSON_stringify connect_outcome close_outcome
                   configs p)))
  = match last_connected connect_outcome k (attempts (next_object p) configs) with
    | Some a => Some (snd a)
    | None => None
    end.
Proof.
  intros Hinv Hre.
  rewrite initializeServers_reconnect by assumption. cbn [snd servers].
  assert (Hempty : (if isInitialized p then JsMap.empty else servers p)
                   = JsMap.empty).
  { destruct (isInitialized p) eqn:Hi; [reflexivity | apply Hinv, Hi]. }
  rewrite Hempty, get_register. reflexivity.
Qed.

(** X4. [closeAllServers] on a registry it has just emptied does nothing:
    no call is made and the state is the same. *)
Theorem closeAllServers_twice (p : Process) :
  closeAllServers close_outcome (snd (closeAllServers close_outcome p))
  = (Normal tt, snd (closeAllServers close_outcome p)).
Proof.
  rewrite !closeAllServers_run. cbn. rewrite app_nil_r. reflexivity.
Qed.

End Manager.

(** X5. What [close] does has no influence on a reconciliation: with
    closes that resolve or reject in any way, [initializeServers] returns
    the same handles and leaves the same registry and the same calls. *)
Theorem initializeServers_ignores_close_failures
    (JSON_stringify : list MCPServerConfig -> string)
    (connect_outcome close1 close2 : MCPServer -> option JsValue)
    (configs : list MCPServerConfig) (p : Process) :
  initializeServers JSON_stringify connect_outcome close1 configs p
  = initializeServers JSON_stringify connect_outcome close2 configs p.
Proof.
  destruct (reconnects JSON_stringify configs p) eqn:Hre.
  - rewrite !initializeServers_reconnect by assumption. reflexivity.
  - rewrite !initializeServers_reuse by assumption. reflexivity.
Qed.

Section Compose.
Variable JSON_stringify : list MCPServerConfig -> string.
Variable connect_outcome : MCPServer -> option JsValue.
Variable close_outcome : MCPServer -> option JsValue.

(** X6. [getServers] right after a reconciliation returns the handles the
    reconciliation returned, and changes nothing. *)
Theorem getServers_after_initializeServers
    (configs : list MCPServerConfig) (p : Process) :
  getServers
    (snd (initializeServers JSON_stringify connect_outcome close_outcome configs p))
  = initializeServers JSON_stringify connect_outcome close_outcome configs p.
Proof.
  destruct (initializeServers_post JSON_stringify connect_outcome close_outcome
              configs p) as [Hres _].
  unfold getServers, gets. rewrite <- Hres. symmetry. apply surjective_pairing.
Qed.

(** X7. After [closeAllServers], a reconciliation connects again even
    when its list is the one the registry was last given: every handle is
    closed, then every entry is constructed and connected, in order. *)
Theorem closeAllServers_then_initializeServers
    (configs : list MCPServerConfig) (p : Process) :
  calls (snd (initializeServers JSON_stringify connect_outcome close_outcome configs
                (snd (closeAllServers close_outcome p))))
  = calls p ++ map Close (JsMap.values (servers p))
    ++ flat_map attempt_calls (attempts (next_object p) configs)
  /\ filter is_connect (flat_map attempt_calls (attempts (next_object p) configs))
     = map Connect (map snd (attempts (next_object p) configs))
  /\ map fst (attempts (next_object p) configs) = configs.
Proof.
  rewrite closeAllServers_run. cbn [snd].
  rewrite initializeServers_reconnect by reflexivity.
  cbn [snd calls isInitialized next_object]. rewrite app_nil_r, <- app_assoc.
  split; [reflexivity|].
  split; [apply connects_of_attempts | apply attempts_servers].
Qed.

(** X8. When the configuration of an initialized registry changes, every
    registered handle is closed once, in map order, before the first new
    server is constructed; then every entry of the new list is constructed
    and connected in order; no close follows. *)
Theorem initializeServers_closes_before_connecting
    (configs : list MCPServerConfig) (p : Process) :
  isInitialized p = true ->
  JSON_stringify configs <> or_default (mcpConfigKey p) EmptyString ->
  calls (snd (initializeServers JSON_stringify connect_outcome close_outcome
                configs p))
  = calls p ++ map Close (JsMap.values (servers p))
    ++ flat_map attempt_calls (attempts (next_object p) configs)
  /\ filter is_close (flat_map attempt_calls (attempts (next_object p) configs))
     = []
  /\ filter is_construct (map Close (JsMap.values (servers p))) = [].
Proof.
  intros Hi Hkey.
  assert (Hre : reconnects JSON_stringify configs p = true).
  { unfold reconnects. rewrite Hi. cbn.
    apply negb_true_iff. apply String.eqb_neq. exact Hkey. }
  rewrite initializeServers_reconnect by assumption. cbn [snd calls].
  rewrite Hi, <- app_assoc. split; [reflexivity|].
  split; [apply closes_of_attempts|].
  induction (JsMap.values (servers p)) as [|s l IH]; [reflexivity | exact IH].
Qed.

End Compose.

(** *** Concrete runs *)

Lemma initializeServers_returns_fresh_connected_witness :
  well_formed Sample.connect_unless_down mcpManager
  /\ reconnects Sample.stringify
       [Sample.weather; Sample.weather_again; Sample.down] mcpManager = true
  /\ exists handles,
       fst (initializeServers Sample.stringify Sample.connect_unless_down
              Sample.always_ok
              [Sample.weather; Sample.weather_again; Sample.down] mcpManager)
       = Normal handles
       /\ length handles <= 3.
Proof.
  split; [apply well_formed_initial|]. split; [reflexivity|].
  destruct (initializeServers_returns_fresh_connected Sample.stringify
              Sample.connect_unless_down Sample.always_ok
              [Sample.weather; Sample.weather_again; Sample.down] mcpManager
              (well_formed_initial Sample.connect_unless_down) eq_refl)
    as [handles [Hrun [Hlen _]]].
  exists handles. split; [exact Hrun | exact Hlen].
Defined.

Lemma initializeServers_last_entry_wins_witness :
  registry_inv mcpManager
  /\ reconnects Sample.stringify
       [Sample.weather; Sample.weather_again; Sample.down] mcpManager = true
  /\ get "a"
       (servers
          (snd (initializeServers Sample.stringify Sample.connect_unless_down
                  Sample.always_ok
                  [Sample.weather; Sample.weather_again; Sample.down]
                  mcpManager)))
     = Some (MCPServerStreamableHttp 1 "weather2" "http://y").
Proof.
  split; [apply registry_inv_initial|]. split; [reflexivity|].
  rewrite (initializeServers_last_entry_wins Sample.stringify
             Sample.connect_unless_down Sample.always_ok
             [Sample.weather; Sample.weather_again; Sample.down] mcpManager "a"
             registry_inv_initial eq_refl).
  reflexivity.
Defined.

Lemma initializeServers_closes_before_connecting_witness :
  isInitialized
    (snd (initializeServers Sample.stringify Sample.always_ok Sample.always_fails
            [Sample.weather] mcpManager)) = true
  /\ Sample.stringify [Sample.files]
     <> or_default
          (mcpConfigKey
             (snd (initializeServers Sample.stringify Sample.always_ok
                     Sample.always_fails [Sample.weather] mcpManager)))
          EmptyString
  /\ calls
       (snd (initializeServers Sample.stringify Sample.always_ok
               Sample.always_fails [Sample.files]
               (snd (initializeServers Sample.stringify Sample.always_ok
                       Sample.always_fails [Sample.weather] mcpManager))))
     = [Construct (MCPServerStreamableHttp 0 "weather" "http://x");
        Connect (MCPServerStreamableHttp 0 "weather" "http://x");
        Close (MCPServerStreamableHttp 0 "weather" "http://x");
        Construct (MCPServerStdio 1 "files" "node" [] None);
        Connect (MCPServerStdio 1 "files" "node" [] None)].
Proof.
  assert (Hkey : Sample.stringify [Sample.files]
     <> or_default
          (mcpConfigKey
             (snd (initializeServers Sample.stringify Sample.always_ok
                     Sample.always_fails [Sample.weather] mcpManager)))
          EmptyString).
  { intros H. discriminate H. }
  split; [reflexivity|]. split; [exact Hkey|].
  destruct (initializeServers_closes_before_connecting Sample.stringify
              Sample.always_ok Sample.always_fails [Sample.files]
              (snd (initializeServers Sample.stringify Sample.always_ok
                      Sample.always_fails [Sample.weather] mcpManager))
              eq_refl Hkey) as [Hcalls _].
  rewrite Hcalls. reflexivity.
Defined.

End RegistryMore.

(* ================================================================== *)
(** * Further properties of tool discovery *)
(* ================================================================== *)

Module DiscoverMore.
Import Discover DiscoverSpec DiscoverOutcome DiscoverFacts.
Local Open Scope list_scope.

Lemma catch_block_completion (error : JsValue) (w : Frame) :
  fst (catch_block error w) = caught error.
Proof.
  unfold catch_block, caught, prop, bind, ret, throw.
  destruct (nullish error); reflexivity.
Qed.

Lemma map_array_listing (tools : list JsValue) (w : Frame) :
  fst (map_array describe_tool tools w) = listing tools.
Proof.
  unfold listing. induction tools as [|tool tools IH]; [reflexivity|].
  cbn [map_array find map]. unfold bind at 1.
  destruct (nullish tool) eqn:Hn.
  - unfold describe_tool, prop. rewrite Hn. reflexivity.
  - rewrite describe_tool_run by assumption. unfold bind at 1.
    pose proof (map_array_describe_state tools w) as Hs.
    destruct (map_array describe_tool tools w) as [[ys|e] w1];
      cbn [fst snd] in *; destruct (find nullish tools); try discriminate IH;
      injection IH as <-; reflexivity.
Qed.

Section Route.
Variable connect_outcome : MCPServer -> option JsValue.
Variable listTools_outcome : MCPServer -> Completion (list JsValue).

Lemma discover_tools_completion (s : MCPServer) (w : Frame) :
  fst (discover_tools connect_outcome listTools_outcome s w)
  = discovered connect_outcome listTools_outcome s.
Proof.
  unfold discover_tools, discovered, connect, listTools.
  unfold bind at 1. unfold bind at 1. unfold record at 1, modify at 1.
  destruct (connect_outcome s) as [e|]; [reflexivity|].
  unfold ret at 1. unfold bind at 1. unfold bind at 1.
  unfold record at 1, modify at 1.
  destruct (listTools_outcome s) as [tools|e]; [|reflexivity].
  unfold ret at 1. unfold bind at 1.
  match goal with
  | |- context [map_array describe_tool tools ?w0] =>
      pose proof (map_array_listing tools w0) as Hm;
      destruct (map_array describe_tool tools w0) as [[ys|e] w1]
  end; cbn [fst] in Hm; rewrite <- Hm; reflexivity.
Qed.

(** The completion of the handler, as a function of the request and of
    what the server does. *)
Lemma POST_answer (close_outcome : MCPServer -> option JsValue)
    (request : NextRequest) (w : Frame) :
  fst (POST connect_outcome listTools_outcome close_outcome request w)
  = answer connect_outcome listTools_outcome request (next_object w).
Proof.
  rewrite POST_completion. unfold answer, target, try_catch, try_block, request_json.
  unfold bind at 1.
  destruct request as [[server|]|e]; [|reflexivity|apply catch_block_completion].
  assert (Hnew : forall s w0,
    fst (let (c, w1) :=
           (obj <- allocate ;;
            record (Construct s) ;; set_mcpServer (Some s) ;;
            discover_tools connect_outcome listTools_outcome s) w0 in
         match c with
         | Normal a => (Normal a, w1)
         | Abrupt e => catch_block e w1
         end)
    = match discovered connect_outcome listTools_outcome s with
      | Normal response => Normal response
      | Abrupt e => caught e
      end).
  { intros s w0. unfold bind at 1. unfold allocate at 1.
    unfold bind at 1. unfold record at 1, modify at 1.
    unfold bind at 1. unfold set_mcpServer at 1, modify at 1.
    match goal with
    | |- context [discover_tools _ _ s ?w1] =>
        pose proof (discover_tools_completion s w1) as Hd;
        destruct (discover_tools connect_outcome listTools_outcome s w1)
          as [[r|e] w2]
    end; cbn [fst] in Hd; rewrite <- Hd; [reflexivity|].
    apply catch_block_completion. }
  cbn [next_object].
  destruct (type server =? "stdio").
  - specialize (Hnew (MCPServerStdio (next_object w) (name server)
                        (or_default (command server) "npx")
                        (args_or_empty (args server)) (env server))
                  {| mcpServer := None; next_object := next_object w;
                     calls := calls w |}).
    unfold bind at 1 in Hnew. unfold allocate at 1 in Hnew.
    cbn [next_object] in Hnew.
    unfold bind at 1. unfold allocate at 1. cbn [next_object]. exact Hnew.
  - destruct (type server =? "http"); [|reflexivity].
    specialize (Hnew (MCPServerStreamableHttp (next_object w) (name server)
                        (or_default (url server) EmptyString))
                  {| mcpServer := None; next_object := next_object w;
                     calls := calls w |}).
    unfold bind at 1 in Hnew. unfold allocate at 1 in Hnew.
    cbn [next_object] in Hnew.
    unfold bind at 1. unfold allocate at 1. cbn [next_object]. exact Hnew.
Qed.

Variable close_outcome : MCPServer -> option JsValue.

(** *** Properties *)

(** X9. When [connect] rejects with an [Error], the handler answers 500
    with ["Failed to discover tools: "] followed by the error's message
    (["Unknown error"] when the message is empty) and an empty tool list;
    [listTools] is never called, and the server is still closed. *)
Theorem POST_connect_rejected
    (request : NextRequest) (s : MCPServer) (n m : string) (w : Frame) :
  target request (next_object w) = Some s ->
  connect_outcome s = Some (JError n m) ->
  fst (POST connect_outcome listTools_outcome close_outcome request w)
  = Normal (json (JObj [("error",
                         JStr ("Failed to discover tools: "
                               ++ (if m =? EmptyString then "Unknown error"
                                   else m)));
                        ("tools", JArr [])]) 500)
  /\ calls (snd (POST connect_outcome listTools_outcome close_outcome request w))
     = calls w ++ [Construct s; Connect s; Close s].
Proof.
  intros Ht Hc. split.
  - rewrite POST_answer. unfold answer. rewrite Ht.
    destruct request as [[server|]|e]; try discriminate Ht.
    unfold discovered. rewrite Hc. unfold caught, failure_response, js_or.
    cbn. destruct (m =? EmptyString); reflexivity.
  - rewrite POST_state. cbn [calls]. unfold handler_calls, discovery_calls.
    rewrite Ht, Hc. reflexivity.
Qed.


(** X11. As long as nothing rejects with [null] or [undefined], the
    handler never throws: it answers with status 200, 400 or 500, and the
    body of a 200 or 500 answer has a [tools] member. *)
Theorem POST_always_answers (request : NextRequest) (w : Frame) :
  (forall e, request = Abrupt e -> nullish e = false) ->
  (forall s e, connect_outcome s = Some e -> nullish e = false) ->
  (forall s e, listTools_outcome s = Abrupt e -> nullish e = false) ->
  exists response,
    fst (POST connect_outcome listTools_outcome close_outcome request w)
    = Normal response
    /\ (status response = 200 \/ status response = 400 \/ status response = 500)
    /\ (status response <> 400 ->
        isArray (get_property (body response) "tools") = true).
Proof.
  intros Hreq Hconn Hlist. rewrite POST_answer. unfold answer.
  assert (Hcaught : forall e, nullish e = false ->
            exists response, caught e = Normal response
              /\ (status response = 200 \/ status response = 400
                  \/ status response = 500)
              /\ (status response <> 400 ->
                  isArray (get_property (body response) "tools") = true)).
  { intros e He. unfold caught. rewrite He. eexists. split; [reflexivity|].
    cbn. split; [tauto | reflexivity]. }
  destruct request as [[server|]|e].
  - destruct (target _ _) as [s|].
    + unfold discovered.
      destruct (connect_outcome s) as [e|] eqn:Hc;
        [apply Hcaught; apply (Hconn s); exact Hc|].
      destruct (listTools_outcome s) as [tools|e] eqn:Hl;
        [|apply Hcaught; apply (Hlist s); exact Hl].
      unfold listing. destruct (find nullish tools) as [tool|].
      * apply Hcaught. reflexivity.
      * eexists. split; [reflexivity|]. cbn. split; [tauto | reflexivity].
    + eexists. split; [reflexivity|]. cbn. split; [tauto | congruence].
  - eexists. split; [reflexivity|]. cbn. split; [tauto | congruence].
  - apply Hcaught. apply Hreq. reflexivity.
Qed.

End Route.

Lemma POST_connect_rejected_witness :
  target (Normal (Some Sample.weather)) (next_object entry)
  = Some Sample2.weather_server
  /\ Sample.always_fails Sample2.weather_server
     = Some (JError "Error" "connection refused")
  /\ fst (POST Sample.always_fails Sample.lists_catalog Sample.always_ok
            (Normal (Some Sample.weather)) entry)
     = Normal (json (JObj [("error",
                            JStr "Failed to discover tools: connection refused");
                           ("tools", JArr [])]) 500).
Proof.
  split; [reflexivity|]. split; [reflexivity|].
  apply (POST_connect_rejected Sample.always_fails Sample.lists_catalog
           Sample.always_ok (Normal (Some Sample.weather))
           Sample2.weather_server "Error" "connection refused" entry
           eq_refl eq_refl).
Defined.


Lemma POST_always_answers_witness :
  exists response,
    fst (POST Sample.always_fails Sample.listing_fails Sample.always_fails
           (Normal (Some Sample.weather)) entry)
    = Normal response
    /\ (status response = 200 \/ status response = 400 \/ status response = 500).
Proof.
  destruct (POST_always_answers Sample.always_fails Sample.listing_fails
              Sample.always_fails (Normal (Some Sample.weather)) entry)
    as [response [Hrun [Hstatus _]]].
  - intros e H. discriminate H.
  - intros s e H. injection H as <-. reflexivity.
  - intros s e H. injection H as <-. reflexivity.
  - exists response. split; [exact Hrun | exact Hstatus].
Defined.

(** A request whose body cannot be read as rejecting with [null]: the
    [catch] block throws in its turn, and the handler throws. *)
Example POST_rejects_on_null :
  fst (POST Sample.always_ok Sample.lists_catalog Sample.always_ok
         (Abrupt JNull) entry)
  = Abrupt (TypeError_read JNull "message").
Proof. reflexivity. Qed.

End DiscoverMore.

(* ================================================================== *)
(** * Properties of server management *)
(* ================================================================== *)

Module ManageFacts.
Import Registry RegistrySpec RegistryFacts Manage.
Local Open Scope list_scope.

Section Route.
Variable JSON_stringify : list MCPServerConfig -> string.
Variable connect_outcome : MCPServer -> option JsValue.
Variable close_outcome : MCPServer -> option JsValue.

Lemma updateServers_run (configs : list MCPServerConfig) (p : Process) :
  updateServers JSON_stringify connect_outcome close_outcome configs p
  = (Normal tt,
     snd (initializeServers JSON_stringify connect_outcome close_outcome configs p)).
Proof.
  unfold updateServers, bind.
  destruct (initializeServers_post JSON_stringify connect_outcome close_outcome
              configs p) as [Hres _].
  destruct (initializeServers _ _ _ configs p) as [[hs|e] p1];
    [reflexivity | discriminate Hres].
Qed.

(** X12. For a body that is an object whose [servers] member is missing,
    falsy or an array of server configurations, the handler never throws
    and never answers 500, whatever the servers do: ['close_all'] and
    ['update'] are answered 200, any other action 400.  ['close_all'] leaves the
    registry as [closeAllServers] does, ['update'] as [initializeServers]
    does on the list, or on the empty list when none is given, and any
    other action leaves it untouched. *)
Theorem POST_actions (body : Body) (p : Process) :
  POST JSON_stringify connect_outcome close_outcome (Normal body) p
  = if is_str (action body) "close_all" then
      (Normal (Discover.json
                 (JObj [("success", JBool true);
                        ("message", JStr "All MCP servers closed")]) 200),
       snd (closeAllServers close_outcome p))
    else if is_str (action body) "update" then
      (Normal (Discover.json
                 (JObj [("success", JBool true);
                        ("message", JStr "MCP servers updated")]) 200),
       snd (initializeServers JSON_stringify connect_outcome close_outcome
              (match servers body with Some l => l | None => [] end) p))
    else
      (Normal (Discover.json (JObj [("error", JStr "Invalid action")]) 400), p).
Proof.
  unfold POST, try_catch, try_block, request_json. unfold bind at 1.
  destruct (is_str (action body) "close_all").
  - unfold bind. rewrite closeAllServers_run. reflexivity.
  - destruct (is_str (action body) "update"); [|reflexivity].
    unfold bind. rewrite updateServers_run. reflexivity.
Qed.

(** X13. An ['update'] that carries no server list, or an empty one,
    disconnects everything: on a call that reconnects, every registered
    handle is closed, nothing is constructed or connected, and the
    registry is left initialized and empty. *)
Theorem POST_update_without_servers (body : Body) (p : Process) :
  is_str (action body) "update" = true ->
  servers_or_empty (servers body) = [] ->
  reconnects JSON_stringify [] p = true ->
  registry_inv p ->
  snd (POST JSON_stringify connect_outcome close_outcome (Normal body) p)
  = {| Registry.servers := JsMap.empty;
       isInitialized := true;
       mcpConfigKey := Some (JSON_stringify []);
       next_object := next_object p;
       calls := calls p ++ map Close (JsMap.values (Registry.servers p)) |}.
Proof.
  intros Hact Hnone Hre Hinv.
  assert (Hother : is_str (action body) "close_all" = false).
  { destruct (action body) as [| | | |a| | |]; try discriminate Hact.
    cbn in Hact |- *. apply String.eqb_eq in Hact. subst a. reflexivity. }
  unfold POST, try_catch, try_block, request_json. unfold bind at 1.
  rewrite Hother, Hact. unfold bind. rewrite updateServers_run. cbn [snd].
  rewrite Hnone, initializeServers_reconnect by assumption.
  cbn [snd attempts register flat_map length].
  rewrite app_nil_r, Nat.add_0_r.
  destruct (isInitialized p) eqn:Hi; [reflexivity|].
  rewrite (Hinv Hi). reflexivity.
Qed.

(** X14. When the body cannot be read, the handler answers 500 with the
    message of the error (["Unknown error"] when it has none) and makes no
    call on the registry. *)
Theorem POST_unreadable_body (error : JsValue) (p : Process) :
  nullish error = false ->
  POST JSON_stringify connect_outcome close_outcome (Abrupt error) p
  = (Normal (Discover.json
               (JObj [("error",
                       JStr ("Failed to manage MCP servers: "
                             ++ toString
                                  (if truthy (get_property error "message")
                                   then get_property error "message"
                                   else JStr "Unknown error")))])
               500),
     p).
Proof.
  intros He. unfold POST, try_catch, try_block, request_json, catch_block.
  unfold bind at 1. unfold bind, prop. rewrite He. reflexivity.
Qed.

End Route.

Lemma POST_update_without_servers_witness :
  is_str (JStr "update") "update" = true
  /\ servers_or_empty None = []
  /\ reconnects Sample.stringify []
       (snd (initializeServers Sample.stringify Sample.always_ok Sample.always_ok
               [Sample.weather] mcpManager)) = true
  /\ registry_inv
       (snd (initializeServers Sample.stringify Sample.always_ok Sample.always_ok
               [Sample.weather] mcpManager))
  /\ calls
       (snd (POST Sample.stringify Sample.always_ok Sample.always_ok
               (Normal {| action := JStr "update"; servers := None |})
               (snd (initializeServers Sample.stringify Sample.always_ok
                       Sample.always_ok [Sample.weather] mcpManager))))
     = [Construct (MCPServerStreamableHttp 0 "weather" "http://x");
        Connect (MCPServerStreamableHttp 0 "weather" "http://x");
        Close (MCPServerStreamableHttp 0 "weather" "http://x")].
Proof.
  assert (Hinv : registry_inv
       (snd (initializeServers Sample.stringify Sample.always_ok Sample.always_ok
               [Sample.weather] mcpManager))).
  { intros H. discriminate H. }
  split; [reflexivity|]. split; [reflexivity|]. split; [reflexivity|].
  split; [exact Hinv|].
  rewrite (POST_update_without_servers Sample.stringify Sample.always_ok
             Sample.always_ok {| action := JStr "update"; servers := None |}
             (snd (initializeServers Sample.stringify Sample.always_ok
                     Sample.always_ok [Sample.weather] mcpManager))
             eq_refl eq_refl eq_refl Hinv).
  reflexivity.
Defined.

Lemma POST_unreadable_body_witness :
  nullish (JError "SyntaxError" "Unexpected end of JSON input") = false
  /\ fst (POST Sample.stringify Sample.always_ok Sample.always_ok
            (Abrupt (JError "SyntaxError" "Unexpected end of JSON input"))
            mcpManager)
     = Normal (Discover.json
                 (JObj [("error",
                         JStr "Failed to manage MCP servers: Unexpected end of JSON input")])
                 500).
Proof.
  split; [reflexivity|].
  rewrite (POST_unreadable_body Sample.stringify Sample.always_ok Sample.always_ok
             (JError "SyntaxError" "Unexpected end of JSON input") mcpManager
             eq_refl).
  reflexivity.
Defined.

End ManageFacts.

(* ================================================================== *)
(** * Properties of the agents run route *)
(* ================================================================== *)

Module AgentsRouteFacts.
Import Registry RegistrySpec RegistryFacts Agents AgentsSpec AgentsFacts.
Import AgentsRoute AgentsRouteSpec.
Local Open Scope list_scope.

(** *** Attachments *)

Lemma server_prop_run (v : JsValue) (k : string) (s : Server) :
  nullish v = false -> prop v k s = (Normal (get_property v k), s).
Proof. unfold prop. intros ->. reflexivity. Qed.

Lemma file_content_run (file : JsValue) (s : Server) :
  renderable file -> file_content file s = (Normal (rendered file), s).
Proof.
  intros [Hfile Htype]. unfold file_content, rendered, is_image.
  unfold bind at 1. rewrite server_prop_run by assumption.
  destruct Htype as [Hnone | [t Ht]].
  - rewrite Hnone. unfold bind at 1. unfold ret at 1.
    destruct (get_property file "type"); try discriminate Hnone;
      unfold bind; rewrite !server_prop_run by assumption; reflexivity.
  - rewrite Ht. cbn [nullish]. unfold bind at 1. unfold ret at 1.
    destruct (String.prefix "image/" t);
      unfold bind; rewrite !server_prop_run by assumption; reflexivity.
Qed.

Lemma map_files_run (l : list JsValue) (s : Server) :
  Forall renderable l -> map_files l s = (Normal (map rendered l), s).
Proof.
  induction 1 as [|file l Hfile _ IH]; [reflexivity|].
  cbn [map_files map]. unfold bind at 1. rewrite file_content_run by assumption.
  unfold bind at 1. rewrite IH. reflexivity.
Qed.

Lemma file_content_state (file : JsValue) (s : Server) :
  snd (file_content file s) = s.
Proof.
  unfold file_content, prop, bind, ret, throw.
  destruct (nullish file); [reflexivity|].
  destruct (nullish (get_property file "type")).
  - reflexivity.
  - destruct (get_property file "type"); try reflexivity.
    destruct (String.prefix "image/" s0); reflexivity.
Qed.

Lemma map_files_state (l : list JsValue) (s : Server) :
  snd (map_files l s) = s.
Proof.
  induction l as [|file l IH]; [reflexivity|].
  cbn [map_files]. unfold bind at 1.
  pose proof (file_content_state file s) as Hf.
  destruct (file_content file s) as [[text|e] s1]; cbn [snd] in Hf; subst s1;
    [|reflexivity].
  unfold bind at 1.
  destruct (map_files l s) as [[texts|e] s2]; cbn [snd] in IH; subst s2;
    reflexivity.
Qed.

Lemma route_catch_block_state (error : JsValue) (s : Server) :
  snd (catch_block error s) = s.
Proof.
  unfold catch_block, prop, bind, ret, throw.
  destruct (is_num (opt_get error "status") 401); [reflexivity|].
  destruct (is_num (opt_get error "status") 429); [reflexivity|].
  destruct (is_num (opt_get error "status") 400);
    destruct (nullish error); reflexivity.
Qed.

Lemma try_catch_state (m : Eff Server Response) (s : Server) :
  snd (try_catch m catch_block s) = snd (m s).
Proof.
  unfold try_catch. destruct (m s) as [[r|e] s1]; [reflexivity|].
  apply route_catch_block_state.
Qed.

Section Route.
Variable JSON_stringify_configs : list MCPServerConfig -> string.
Variable connect_outcome : MCPServer -> option JsValue.
Variable close_outcome : MCPServer -> option JsValue.
Variable JSON_stringify : JsValue -> string.
Variable Date_now : nat -> Z.
Variable run_streamed : Agent -> JsValue -> UserContext -> Completion AsyncIterable.
Variable run_final : Agent -> JsValue -> UserContext -> Completion JsValue.

(** The handles the route obtains, and the registry it leaves. *)
Lemma obtain_servers_run (body : Body) (s : Server) :
  obtain_servers JSON_stringify_configs connect_outcome close_outcome body s
  = (Normal (JsMap.values
               (servers (reconciled JSON_stringify_configs connect_outcome
                           close_outcome body (registry s)))),
     {| registry := reconciled JSON_stringify_configs connect_outcome
                      close_outcome body (registry s);
        sdk := sdk s |}).
Proof.
  unfold obtain_servers, reconciled, lift.
  destruct (mcpServersConfig body) as [[|config configs]|];
    try (destruct s; reflexivity).
  destruct (initializeServers_post JSON_stringify_configs connect_outcome
              close_outcome (config :: configs) (registry s)) as [Hres _].
  destruct (initializeServers _ _ _ (config :: configs) (registry s))
    as [c p1]. cbn [fst snd] in *. rewrite Hres. reflexivity.
Qed.

Lemma message_content_run (body : Body) (s : Server) :
  Forall renderable (attachments body) ->
  message_content body s = (Normal (prompt body), s).
Proof.
  unfold message_content, attachments, prompt. intros Hfiles.
  destruct (files body) as [[|file rest]|]; try reflexivity.
  unfold bind. rewrite map_files_run by assumption. reflexivity.
Qed.

Lemma message_content_state (body : Body) (s : Server) :
  snd (message_content body s) = s.
Proof.
  unfold message_content.
  destruct (files body) as [[|file rest]|]; try reflexivity.
  unfold bind. pose proof (map_files_state (file :: rest) s) as Hs.
  destruct (map_files (file :: rest) s) as [[texts|e] s1]; exact Hs.
Qed.

Lemma respond_run (body : Body) (s : Server) :
  Forall renderable (attachments body) ->
  respond JSON_stringify_configs connect_outcome close_outcome JSON_stringify
    Date_now run_streamed run_final body s
  = (if streams body then
       match run_streamed
               (agent_of JSON_stringify_configs connect_outcome close_outcome
                  body (registry s))
               (prompt body) (context_of body) with
       | Normal streamResult =>
           Normal (Streaming stream_headers
                     (channel (snd (start JSON_stringify Date_now streamResult
                                      fresh))))
       | Abrupt e => Abrupt e
       end
     else
       match run_final
               (agent_of JSON_stringify_configs connect_outcome close_outcome
                  body (registry s))
               (prompt body) (context_of body) with
       | Normal finalOutput =>
           Normal (Json (Discover.json
                           (JObj [("success", JBool true);
                                  ("message", finalOutput)]) 200))
       | Abrupt e => Abrupt e
       end,
     after_run JSON_stringify_configs connect_outcome close_outcome body s).
Proof.
  intros Hfiles. unfold respond.
  unfold bind at 1. unfold sdk_call at 1, modify at 1.
  unfold bind at 1. rewrite obtain_servers_run. cbn [registry sdk].
  unfold bind at 1. rewrite message_content_run by assumption.
  unfold bind at 1. unfold sdk_call at 1, modify at 1.
  unfold bind at 1. unfold sdk_call at 1, modify at 1. cbn [registry sdk].
  unfold after_run, agent_of, context_of, streams.
  destruct (truthy (default_to (JBool true) (stream body))).
  - unfold bind at 1. unfold run_stream. unfold bind at 1.
    unfold sdk_call, modify. cbn [registry sdk].
    destruct (run_streamed _ _ _) as [sr|e]; cbn;
      rewrite <- !app_assoc; reflexivity.
  - unfold bind at 1. unfold run_once. unfold bind at 1.
    unfold sdk_call, modify. cbn [registry sdk].
    destruct (run_final _ _ _) as [out|e]; cbn;
      rewrite <- !app_assoc; reflexivity.
Qed.

Lemma POST_complete (body : Body) (s : Server) :
  complete body = true ->
  POST JSON_stringify_configs connect_outcome close_outcome JSON_stringify
    Date_now run_streamed run_final (Normal body) s
  = try_catch
      (respond JSON_stringify_configs connect_outcome close_outcome JSON_stringify
         Date_now run_streamed run_final body)
      catch_block s.
Proof.
  unfold complete, POST, try_block, request_json. intros Hc.
  apply andb_true_iff in Hc as [Hmsg Hkey].
  unfold try_catch at 1. unfold bind at 1.
  assert (H1 : negb (truthy (message body)) && no_files (files body) = false).
  { destruct (truthy (message body)); [reflexivity|].
    cbn in Hmsg |- *. apply negb_true_iff. exact Hmsg. }
  rewrite H1, Hkey. reflexivity.
Qed.

(** *** Properties *)

(** X15. A request whose body is an object, with a [files] member that is
    missing, falsy or an array, and that has neither a message nor an
    attachment, or no API key, is answered 400 and has no effect: no SDK
    call is made and the registry is not touched.  (A [null] body is not
    such a request: destructuring it throws, and the answer is 500.) *)
Theorem POST_rejects_incomplete_request (body : Body) (s : Server) :
  complete body = false ->
  POST JSON_stringify_configs connect_outcome close_outcome JSON_stringify
    Date_now run_streamed run_final (Normal body) s
  = (Normal (Json (Discover.json
                     (JObj [("error",
                             JStr (if negb (truthy (message body))
                                      && no_files (files body)
                                   then "Message or files are required"
                                   else "API key is required"))])
                     400)),
     s).
Proof.
  unfold complete, POST, try_catch, try_block, request_json. intros Hc.
  unfold bind at 1.
  destruct (negb (truthy (message body)) && no_files (files body)) eqn:H1;
    [reflexivity|].
  assert (Hkey : truthy (apiKey body) = false).
  { apply andb_false_iff in Hc as [Hc|Hc]; [|exact Hc].
    apply andb_false_iff in H1. apply orb_false_iff in Hc as [Hm Hf].
    destruct H1 as [H1|H1].
    - rewrite Hm in H1. discriminate H1.
    - apply negb_false_iff in Hf. rewrite Hf in H1. discriminate H1. }
  rewrite Hkey. reflexivity.
Qed.

(** X16. A request that carries no server list, or an empty one, never
    changes the registry: nothing is connected and nothing is closed,
    whatever the rest of the request is and whatever the run does. *)
Theorem POST_without_server_list_keeps_registry
    (request : NextRequest) (s : Server) :
  (forall body, request = Normal body ->
     mcpServersConfig body = None \/ mcpServersConfig body = Some []) ->
  registry
    (snd (POST JSON_stringify_configs connect_outcome close_outcome JSON_stringify
            Date_now run_streamed run_final request s))
  = registry s.
Proof.
  intros Hnone. unfold POST.
  assert (Hcatch : forall (m : Eff Server Response),
            registry (snd (m s)) = registry s ->
            registry (snd (try_catch m catch_block s)) = registry s).
  { intros m Hm. unfold try_catch.
    destruct (m s) as [[r|e] s1]; [exact Hm|].
    rewrite route_catch_block_state. exact Hm. }
  apply Hcatch. unfold try_block, request_json. unfold bind at 1.
  destruct request as [body|e]; [|reflexivity].
  destruct (negb (truthy (message body)) && no_files (files body));
    [reflexivity|].
  destruct (negb (truthy (apiKey body))); [reflexivity|].
  unfold respond.
  unfold bind at 1. unfold sdk_call at 1, modify at 1.
  unfold bind at 1. rewrite obtain_servers_run. cbn [registry sdk].
  assert (Hsame : reconciled JSON_stringify_configs connect_outcome close_outcome
                    body (registry s) = registry s).
  { unfold reconciled. destruct (Hnone body eq_refl) as [-> | ->]; reflexivity. }
  rewrite Hsame.
  unfold bind at 1.
  match goal with
  | |- context [message_content body ?s0] =>
      pose proof (message_content_state body s0) as Hmsg;
      destruct (message_content body s0) as [[content|e] s1];
      cbn [snd] in Hmsg; subst s1
  end; [|reflexivity].
  destruct (truthy (default_to (JBool true) (stream body))).
  - unfold bind at 1. unfold run_stream. unfold bind at 1.
    unfold sdk_call, modify. destruct (run_streamed _ _ _); reflexivity.
  - unfold bind at 1. unfold run_once. unfold bind at 1.
    unfold sdk_call, modify. destruct (run_final _ _ _); reflexivity.
Qed.

(** X17. A complete request whose attachments can be rendered, whose
    server list, if any, is an array of configuration objects, and whose
    message, prompt, context and attachment names and contents are plain
    (strings, booleans, [null], missing, or safe integers) makes, besides
    the calls of the registry on the servers, exactly four calls into the
    agents SDK, whatever the run does afterwards: the key is set, the web
    search tool and the agent are constructed, then [run] is called once
    on that agent.  The agent has the system prompt followed by the
    conversation context when there is one, the model ["gpt-4o-mini"] when
    none is given, and the registry's handles ([undefined] when there are
    none); the input is the attachments in order followed by the message
    (an image stands as ["[Image: name]"], without its content). *)
Theorem POST_calls_run_once (body : Body) (s : Server) :
  complete body = true ->
  Forall renderable (attachments body) ->
  plain_texts body ->
  exists agent,
    agent
    = {| instructions :=
           if truthy (memoryContext body) then
             JStr (toString (systemPrompt body) ++ newline ++ newline
                   ++ "Conversation context: "
                   ++ toString (memoryContext body))%string
           else systemPrompt body;
         agent_model :=
           match model body with
           | JUndefined => JStr "gpt-4o-mini"
           | m => m
           end;
         mcpServers :=
           servers_or_undefined
             (JsMap.values
                (servers (reconciled JSON_stringify_configs connect_outcome
                            close_outcome body (registry s)))) |}
    /\ sdk (snd (POST JSON_stringify_configs connect_outcome close_outcome
                   JSON_stringify Date_now run_streamed run_final (Normal body) s))
       = sdk s
         ++ [SetDefaultOpenAIKey (apiKey body);
             WebSearchTool;
             NewAgent agent;
             Run agent
               (match attachments body with
                | [] => message body
                | file :: rest =>
                    JStr (String.concat (newline ++ newline)
                            (map rendered (file :: rest))
                          ++ newline ++ newline ++ toString (message body))%string
                end)
               (context_of body) (streams body)].
Proof.
  intros Hc Hfiles _. eexists. split; [reflexivity|].
  rewrite POST_complete by assumption.
  rewrite try_catch_state, respond_run by assumption. cbn [snd].
  unfold after_run, agent_of, build_instructions, default_to, prompt, attachments.
  cbn [sdk].
  destruct (model body); destruct (files body) as [[|f r]|]; reflexivity.
Qed.



End Route.

(** *** Concrete runs *)

Lemma POST_rejects_incomplete_request_witness :
  complete Sample2.chat_without_key = false
  /\ POST Sample.stringify Sample.always_ok Sample.always_ok Sample.json
       Sample.clock Sample2.streams_hello Sample2.final_hello
       (Normal Sample2.chat_without_key) Sample2.server0
     = (Normal (Json (Discover.json
                        (JObj [("error", JStr "API key is required")]) 400)),
        Sample2.server0).
Proof.
  split; [reflexivity|].
  rewrite (POST_rejects_incomplete_request Sample.stringify Sample.always_ok
             Sample.always_ok Sample.json Sample.clock Sample2.streams_hello
             Sample2.final_hello Sample2.chat_without_key Sample2.server0
             eq_refl).
  reflexivity.
Defined.

Lemma POST_without_server_list_keeps_registry_witness :
  registry
    (snd (POST Sample.stringify Sample.always_ok Sample.always_ok Sample.json
            Sample.clock Sample2.stream_unauthorized Sample2.final_hello
            (Normal Sample2.chat) Sample2.server0))
  = registry Sample2.server0.
Proof.
  apply (POST_without_server_list_keeps_registry Sample.stringify
           Sample.always_ok Sample.always_ok Sample.json Sample.clock
           Sample2.stream_unauthorized Sample2.final_hello
           (Normal Sample2.chat) Sample2.server0).
  intros body H. injection H as <-. left. reflexivity.
Defined.

Lemma chat_renderable : Forall renderable (attachments Sample2.chat).
Proof.
  apply Forall_cons; [split; [reflexivity | right; eexists; reflexivity]|].
  apply Forall_cons; [split; [reflexivity | right; eexists; reflexivity]|].
  apply Forall_nil.
Defined.

Lemma chat_plain_texts : plain_texts Sample2.chat.
Proof.
  split; [reflexivity|]. split; [reflexivity|]. split; [reflexivity|].
  apply Forall_cons; [split; reflexivity|].
  apply Forall_cons; [split; reflexivity|].
  apply Forall_nil.
Defined.

Lemma POST_calls_run_once_witness :
  complete Sample2.chat = true
  /\ Forall renderable (attachments Sample2.chat)
  /\ plain_texts Sample2.chat
  /\ exists agent,
       agent
       = {| instructions :=
              JStr ("Be brief." ++ newline ++ newline
                    ++ "Conversation context: user likes cats")%string;
            agent_model := JStr "gpt-4o-mini";
            mcpServers := None |}
       /\ sdk (snd (POST Sample.stringify Sample.always_ok Sample.always_ok
                      Sample.json Sample.clock Sample2.streams_hello
                      Sample2.final_hello (Normal Sample2.chat) Sample2.server0))
          = [SetDefaultOpenAIKey (JStr "sk-test");
             WebSearchTool;
             NewAgent agent;
             Run agent
               (JStr ("File: notes.txt" ++ newline ++ newline ++ "buy milk"
                      ++ newline ++ newline ++ "[Image: cat.png]"
                      ++ newline ++ newline ++ "Summarize")%string)
               (context_of Sample2.chat) true].
Proof.
  split; [reflexivity|]. split; [exact chat_renderable|].
  split; [exact chat_plain_texts|].
  destruct (POST_calls_run_once Sample.stringify Sample.always_ok
              Sample.always_ok Sample.json Sample.clock Sample2.streams_hello
              Sample2.final_hello Sample2.chat Sample2.server0 eq_refl
              chat_renderable chat_plain_texts)
    as [agent [Hagent Hsdk]].
  exists agent. split; [rewrite Hagent; reflexivity|].
  rewrite Hsdk. reflexivity.
Defined.



End AgentsRouteFacts.

(* ================================================================== *)
(** * Further properties of the streaming translator *)
(* ================================================================== *)

Module AgentsMore.
Import Agents AgentsSpec AgentsEvents AgentsFacts.
Local Open Scope list_scope.

Section Translator.
Variable JSON_stringify : JsValue -> string.
Variable Date_now : nat -> Z.


(** X20. An event of a kind the loop does not handle is ignored: unless
    the event is [null] or [undefined], nothing is sent, nothing throws
    and the state is unchanged. *)
Theorem on_event_ignores_unrecognized (event : JsValue) (r : Run) :
  nullish event = false ->
  recognized event = false ->
  on_event JSON_stringify Date_now event r = (Normal tt, r).
Proof.
  intros Hevent Hrec. unfold recognized in Hrec. unfold on_event.
  unfold bind at 1. rewrite prop_run by assumption.
  destruct (is_str (get_property event "type") "run_item_stream_event");
    [|reflexivity].
  cbn [andb] in Hrec. apply orb_false_iff in Hrec as [Htool Hmsg].
  unfold bind at 1. rewrite prop_run by assumption.
  unfold bind at 1. rewrite prop_run by assumption.
  rewrite Htool, Hmsg. reflexivity.
Qed.

Lemma on_content_item_run (contentItem : JsValue) (r : Run) :
  well_formed_item contentItem ->
  on_content_item JSON_stringify contentItem r
  = (Normal tt,
     {| textContent := if is_chunk contentItem
                       then get_property contentItem "text" else textContent r;
        channel := channel r
                   ++ map (enqueued JSON_stringify) (chunk_frames contentItem);
        clock_reads := clock_reads r |}).
Proof.
  intros [Hitem Hanns]. unfold chunk_frames, is_chunk in *.
  unfold on_content_item.
  unfold bind at 1. rewrite prop_run by assumption.
  destruct (is_str (get_property contentItem "type") "output_text");
    [|destruct r; cbn; rewrite app_nil_r; reflexivity].
  unfold bind at 1. rewrite prop_run by assumption.
  destruct (truthy (get_property contentItem "text"));
    [|destruct r; cbn; rewrite app_nil_r; reflexivity].
  cbn [andb] in *. specialize (Hanns eq_refl).
  unfold bind at 1. unfold set_textContent at 1, modify at 1.
  unfold bind at 1. rewrite prop_run by assumption.
  unfold citations.
  set (annotations := get_property contentItem "annotations") in *.
  unfold bind at 1.
  destruct (truthy annotations && isArray annotations) eqn:Harr.
  - unfold bind at 1. rewrite filter_array_run by assumption.
    unfold bind at 1. rewrite map_array_run by (apply Forall_filter; assumption).
    destruct (map _ (filter _ (array_elements annotations))) as [|u urls];
      [reflexivity|].
    unfold send, controller_enqueue, modify, bind, gets, ret.
    cbn [length Nat.ltb Nat.leb fst snd channel textContent clock_reads map].
    rewrite <- app_assoc. reflexivity.
  - assert (Hnone : array_elements annotations = []).
    { destruct annotations; try reflexivity. discriminate Harr. }
    rewrite Hnone. reflexivity.
Qed.

Lemma content_items_run (items : list JsValue) (r : Run) :
  Forall well_formed_item items ->
  for_of items (on_content_item JSON_stringify) r
  = (Normal tt,
     {| textContent := last_text items (textContent r);
        channel := channel r
                   ++ map (enqueued JSON_stringify) (flat_map chunk_frames items);
        clock_reads := clock_reads r |}).
Proof.
  intros Hitems. revert r.
  induction Hitems as [|item items Hitem _ IH]; intros r.
  - destruct r; cbn. rewrite app_nil_r. reflexivity.
  - cbn [for_of flat_map last_text]. unfold bind at 1.
    rewrite on_content_item_run by assumption. rewrite IH.
    cbn [textContent channel clock_reads].
    rewrite map_app, app_assoc. reflexivity.
Qed.

(** X21. For a [message_output_created] event whose content items are
    well formed, the frames of the items are sent in the order of the
    items, the frames of an item together; an item that is not an
    [output_text] with text sends nothing; nothing throws, and the text
    kept is that of the last chunk. *)
Theorem on_event_message_frames (event : JsValue) (r : Run) :
  is_str (get_property event "type") "run_item_stream_event" = true ->
  is_str (get_property event "name") "message_output_created" = true ->
  is_str (get_property (get_property event "item") "type") "message_output_item"
  = true ->
  Forall well_formed_item
    (array_elements
       (opt_get (get_property (get_property event "item") "rawItem") "content")) ->
  on_event JSON_stringify Date_now event r
  = (Normal tt,
     {| textContent :=
          last_text
            (array_elements
               (opt_get (get_property (get_property event "item") "rawItem")
                  "content"))
            (textContent r);
        channel :=
          channel r
          ++ map (enqueued JSON_stringify)
               (flat_map chunk_frames
                  (array_elements
                     (opt_get (get_property (get_property event "item") "rawItem")
                        "content")));
        clock_reads := clock_reads r |}).
Proof.
  intros Htype Hname Hitem Hitems.
  rewrite on_event_message_output by assumption.
  apply content_items_run. exact Hitems.
Qed.

End Translator.

Lemma on_event_ignores_unrecognized_witness :
  nullish (Sample.run_item "reasoning_item_created" JNull) = false
  /\ recognized (Sample.run_item "reasoning_item_created" JNull) = false
  /\ on_event Sample.json Sample.clock
       (Sample.run_item "reasoning_item_created" JNull) fresh
     = (Normal tt, fresh).
Proof.
  split; [reflexivity|]. split; [reflexivity|].
  apply (on_event_ignores_unrecognized Sample.json Sample.clock
           (Sample.run_item "reasoning_item_created" JNull) fresh
           eq_refl eq_refl).
Defined.

Lemma two_chunks_well_formed :
  Forall well_formed_item
    (array_elements
       (opt_get
          (get_property
             (get_property
                (Sample.message_output
                   [Sample.output_text "Sunny" [Sample.citation];
                    JObj [("type", JStr "refusal")];
                    Sample.output_text "and warm" []])
                "item") "rawItem") "content")).
Proof.
  apply Forall_cons.
  { split; [reflexivity|]. intros _. repeat constructor. }
  apply Forall_cons.
  { split; [reflexivity|]. intros H. discriminate H. }
  apply Forall_cons.
  { split; [reflexivity|]. intros _. constructor. }
  apply Forall_nil.
Defined.

Lemma on_event_message_frames_witness :
  channel
    (snd (on_event Sample.json Sample.clock
            (Sample.message_output
               [Sample.output_text "Sunny" [Sample.citation];
                JObj [("type", JStr "refusal")];
                Sample.output_text "and warm" []])
            fresh))
  = [enqueued Sample.json
       (tool_urls [JObj [("url", JStr "http://w"); ("title", JStr "Weather")]]);
     enqueued Sample.json (content_frame (JStr "Sunny"));
     enqueued Sample.json (content_frame (JStr "and warm"))].
Proof.
  rewrite (on_event_message_frames Sample.json Sample.clock
             (Sample.message_output
                [Sample.output_text "Sunny" [Sample.citation];
                 JObj [("type", JStr "refusal")];
                 Sample.output_text "and warm" []])
             fresh eq_refl eq_refl eq_refl two_chunks_well_formed).
  reflexivity.
Defined.

End AgentsMore.

(* ================================================================== *)
(** * Properties of the tool call panel *)
(* ================================================================== *)

Module ToolCallDisplayFacts.
Import ToolCallDisplay.
Local Open Scope list_scope.

Lemma split_nonempty (sep : ascii) (s : string) : split sep s <> [].
Proof.
  destruct s as [|c rest]; cbn; [discriminate|].
  destruct (Ascii.eqb c sep); [discriminate|].
  destruct (split sep rest); discriminate.
Qed.

Lemma concat_cons (sep w : string) (ws : list string) :
  ws <> [] ->
  String.concat sep (w :: ws) = (w ++ sep ++ String.concat sep ws)%string.
Proof. destruct ws; [congruence | reflexivity]. Qed.

Lemma map_capitalize_nonempty (ws : list string) :
  ws <> [] -> map capitalize ws <> [].
Proof. destruct ws; [congruence | discriminate]. Qed.

Lemma concat_push (c : ascii) (w : string) (ws : list string) :
  String.concat " " (String c w :: ws)
  = String c (String.concat " " (w :: ws)).
Proof. destruct ws; reflexivity. Qed.

(** Splitting at spaces, capitalizing and joining again capitalizes the
    characters that start a word. *)
Lemma join_capitalize_split (s : string) :
  String.concat " " (map capitalize (split " " s)) = title true s
  /\ match split " " s with
     | word :: words =>
         String.concat " " (word :: map capitalize words) = title false s
     | [] => False
     end.
Proof.
  induction s as [|c rest [IHa IHb]]; [split; reflexivity|].
  cbn [split title].
  destruct (Ascii.eqb c " ") eqn:Hc.
  - apply Ascii.eqb_eq in Hc. subst c. cbn [map capitalize].
    rewrite concat_cons by (apply map_capitalize_nonempty, split_nonempty).
    rewrite IHa. split; reflexivity.
  - destruct (split " " rest) as [|word words]; [contradiction|].
    cbn [map capitalize]. rewrite !concat_push, IHb. split; reflexivity.
Qed.

Lemma formatToolName_title (name : string) :
  formatToolName name = title true (replace_all "_" " " (strip_call name)).
Proof. unfold formatToolName. apply join_capitalize_split. Qed.

(** *** Characters *)

Lemma toUpperCase_idempotent (c : ascii) :
  toUpperCase (toUpperCase c) = toUpperCase c.
Proof. destruct c as [[] [] [] [] [] [] [] []]; reflexivity. Qed.

Lemma toUpperCase_space (c : ascii) :
  Ascii.eqb (toUpperCase c) " " = Ascii.eqb c " ".
Proof. destruct c as [[] [] [] [] [] [] [] []]; reflexivity. Qed.

Lemma toUpperCase_underscore (c : ascii) :
  Ascii.eqb (toUpperCase c) "_" = Ascii.eqb c "_".
Proof. destruct c as [[] [] [] [] [] [] [] []]; reflexivity. Qed.

(** *** Strings *)

Lemma length_title (start : bool) (s : string) :
  String.length (title start s) = String.length s.
Proof.
  revert start. induction s as [|c rest IH]; intros start; cbn;
    [reflexivity | rewrite IH; reflexivity].
Qed.

Lemma length_replace_all (from to : ascii) (s : string) :
  String.length (replace_all from to s) = String.length s.
Proof. induction s as [|c rest IH]; cbn; [reflexivity | rewrite IH; reflexivity]. Qed.

Lemma occurs_title (start : bool) (s : string) :
  occurs "_" (title start s) = occurs "_" s.
Proof.
  revert start. induction s as [|c rest IH]; intros start; cbn; [reflexivity|].
  rewrite IH. destruct start; [rewrite toUpperCase_underscore|]; reflexivity.
Qed.

Lemma occurs_replace_all (s : string) :
  occurs "_" (replace_all "_" " " s) = false.
Proof.
  induction s as [|c rest IH]; cbn; [reflexivity|].
  rewrite IH. destruct (Ascii.eqb c "_") eqn:Hc; [reflexivity|].
  rewrite Hc. reflexivity.
Qed.

Lemma replace_all_absent (s : string) :
  occurs "_" s = false -> replace_all "_" " " s = s.
Proof.
  induction s as [|c rest IH]; cbn; [reflexivity|].
  intros H. apply orb_false_iff in H as [Hc Hrest].
  rewrite Hc, IH by assumption. reflexivity.
Qed.

Lemma title_idempotent (start : bool) (s : string) :
  title start (title start s) = title start s.
Proof.
  revert start. induction s as [|c rest IH]; intros start; cbn; [reflexivity|].
  destruct start.
  - rewrite toUpperCase_idempotent, toUpperCase_space, IH. reflexivity.
  - rewrite IH. reflexivity.
Qed.

Lemma length_substring (n m : nat) (s : string) :
  n + m <= String.length s -> String.length (substring n m s) = m.
Proof.
  revert n m. induction s as [|c rest IH]; intros n m H; cbn in H.
  - assert (n = 0) by lia. assert (m = 0) by lia. subst. reflexivity.
  - destruct n as [|n]; cbn.
    + destruct m as [|m]; [reflexivity|]. cbn. rewrite IH by lia. reflexivity.
    + apply IH. lia.
Qed.

Lemma length_append (s1 s2 : string) :
  String.length (s1 ++ s2)%string = String.length s1 + String.length s2.
Proof. induction s1 as [|c s1 IH]; cbn; [reflexivity | rewrite IH; reflexivity]. Qed.

Lemma occurs_substring (c : ascii) (n m : nat) (s : string) :
  occurs c (substring n m s) = true -> occurs c s = true.
Proof.
  revert n m. induction s as [|c' rest IH]; intros n m; cbn.
  - destruct n, m; cbn; congruence.
  - destruct n as [|n].
    + destruct m as [|m]; cbn; [congruence|].
      intros H. apply orb_true_iff in H as [H|H].
      * rewrite H. reflexivity.
      * rewrite (IH _ _ H). apply orb_true_r.
    + intros H. rewrite (IH _ _ H). apply orb_true_r.
Qed.

Lemma strip_call_absent (s : string) :
  occurs "_" s = false -> strip_call s = s.
Proof.
  intros H. unfold strip_call, ends_with.
  destruct (String.length "_call" <=? String.length s)%nat; [|reflexivity].
  cbn [andb].
  destruct (substring (String.length s - String.length "_call")
              (String.length "_call") s =? "_call") eqn:E; [|reflexivity].
  apply String.eqb_eq in E.
  assert (Hin : occurs "_" s = true).
  { apply (occurs_substring _ (String.length s - String.length "_call")
             (String.length "_call")). rewrite E. reflexivity. }
  congruence.
Qed.

Lemma prefix_substring (n : nat) (s : string) :
  String.prefix (substring 0 n s) s = true.
Proof.
  revert n. induction s as [|c rest IH]; intros n.
  - destruct n; reflexivity.
  - destruct n as [|n]; [reflexivity|]. cbn.
    destruct (ascii_dec c c) as [_|Hne]; [apply IH | congruence].
Qed.

(** *** Properties *)

(** X22. On an ASCII tool name, [formatToolName] removes a final
    ["_call"] and changes nothing else in length: the result has no
    underscore and as many characters as the name, less five when the name
    ends in ["_call"]. *)
Theorem formatToolName_shape (name : string) :
  ascii_only name ->
  occurs "_" (formatToolName name) = false
  /\ String.length (formatToolName name)
     = if ends_with "_call" name then String.length name - 5
       else String.length name.
Proof.
  intros _. rewrite formatToolName_title. split.
  - rewrite occurs_title. apply occurs_replace_all.
  - rewrite length_title, length_replace_all. unfold strip_call.
    destruct (ends_with "_call" name) eqn:E; [|reflexivity].
    apply length_substring. lia.
Qed.

(** X23. Formatting a formatted name changes nothing: on an ASCII tool
    name, [formatToolName] is idempotent. *)
Theorem formatToolName_idempotent (name : string) :
  ascii_only name ->
  formatToolName (formatToolName name) = formatToolName name.
Proof.
  intros _.
  assert (Hclean : occurs "_" (formatToolName name) = false).
  { rewrite formatToolName_title, occurs_title. apply occurs_replace_all. }
  rewrite (formatToolName_title (formatToolName name)).
  rewrite strip_call_absent, replace_all_absent by
    (try rewrite strip_call_absent; assumption).
  rewrite formatToolName_title. apply title_idempotent.
Qed.

Lemma has_delete (x id : string) (s : list string) :
  has x (delete id s) = negb (x =? id) && has x s.
Proof.
  unfold has, delete. induction s as [|y s IH]; cbn.
  - rewrite andb_false_r. reflexivity.
  - destruct (y =? id) eqn:Hy; cbn.
    + rewrite IH. apply String.eqb_eq in Hy. subst y.
      destruct (x =? id); reflexivity.
    + rewrite IH. destruct (x =? y) eqn:Hx; [|reflexivity].
      apply String.eqb_eq in Hx. subst y. rewrite Hy. reflexivity.
Qed.

Lemma has_append (x : string) (s1 s2 : list string) :
  has x (s1 ++ s2) = has x s1 || has x s2.
Proof. unfold has. apply existsb_app. Qed.

(** X24. [toggleExpand] flips whether [id] is expanded and leaves every
    other id as it was, so toggling twice restores what was expanded; the
    set never holds an id twice. *)
Theorem toggleExpand_flips (id : string) (prev : list string) :
  (forall x, has x (toggleExpand id prev)
             = if x =? id then negb (has id prev) else has x prev)
  /\ (forall x, has x (toggleExpand id (toggleExpand id prev)) = has x prev)
  /\ (NoDup prev -> NoDup (toggleExpand id prev)).
Proof.
  assert (Hflip : forall prev x,
            has x (toggleExpand id prev)
            = if x =? id then negb (has id prev) else has x prev).
  { clear prev. intros prev x. unfold toggleExpand, add.
    destruct (has id prev) eqn:Hid.
    - rewrite has_delete. destruct (x =? id); reflexivity.
    - rewrite has_append. cbn. rewrite orb_false_r.
      destruct (x =? id) eqn:Hx.
      + apply String.eqb_eq in Hx. subst x. rewrite Hid. reflexivity.
      + rewrite orb_false_r. reflexivity. }
  split; [apply Hflip|]. split.
  - intros x. rewrite Hflip. destruct (x =? id) eqn:Hx.
    + rewrite Hflip, String.eqb_refl, negb_involutive.
      apply String.eqb_eq in Hx. subst x. reflexivity.
    + rewrite Hflip, Hx. reflexivity.
  - intros Hnd. unfold toggleExpand, add, delete.
    destruct (has id prev) eqn:Hid.
    + apply NoDup_filter. exact Hnd.
    + apply NoDup_app; repeat split.
      * exact Hnd.
      * constructor; [intros [] | constructor].
      * intros x Hx [Heq|[]]. subst x.
        unfold has in Hid.
        assert (Hex : existsb (String.eqb id) prev = true).
        { apply existsb_exists. exists id. split; [exact Hx|].
          apply String.eqb_refl. }
        congruence.
Qed.

(** X25. The text shown for an ASCII result is the result itself when it
    has at most 500 characters; otherwise it is its first 500 characters
    followed by ["..."], 503 characters in all. *)
Theorem shown_result_bounded (result : string) :
  ascii_only result ->
  String.length (shown_result result) <= 503
  /\ (String.length result <= 500 -> shown_result result = result)
  /\ (500 < String.length result ->
      shown_result result = (substring 0 500 result ++ "...")%string
      /\ String.length (shown_result result) = 503
      /\ String.prefix (substring 0 500 result) result = true).
Proof.
  intros _. unfold shown_result.
  destruct (500 <? String.length result)%nat eqn:E.
  - apply Nat.ltb_lt in E.
    assert (Hlen : String.length (substring 0 500 result ++ "...")%string = 503).
    { rewrite length_append, length_substring by lia. reflexivity. }
    split; [lia|]. split; [lia|].
    intros _. split; [reflexivity|]. split; [exact Hlen|].
    apply prefix_substring.
  - apply Nat.ltb_ge in E. split; [lia|]. split; [reflexivity | lia].
Qed.

(** *** Concrete runs *)

Example formatToolName_web_search :
  formatToolName "web_search_call" = "Web Search".
Proof. reflexivity. Qed.

Lemma ascii_only_web_search : ascii_only "web_search_call".
Proof. unfold ascii_only. cbn. repeat constructor. Defined.

Lemma formatToolName_shape_witness :
  ascii_only "web_search_call"
  /\ occurs "_" (formatToolName "web_search_call") = false.
Proof.
  split; [exact ascii_only_web_search|].
  apply (formatToolName_shape "web_search_call" ascii_only_web_search).
Defined.

Lemma formatToolName_idempotent_witness :
  ascii_only "web_search_call"
  /\ formatToolName (formatToolName "web_search_call")
     = formatToolName "web_search_call".
Proof.
  split; [exact ascii_only_web_search|].
  apply (formatToolName_idempotent "web_search_call" ascii_only_web_search).
Defined.

Lemma toggleExpand_flips_witness :
  NoDup ["call_0"]
  /\ NoDup (toggleExpand "call_1" ["call_0"])
  /\ has "call_1" (toggleExpand "call_1" (toggleExpand "call_1" ["call_0"]))
     = has "call_1" ["call_0"].
Proof.
  assert (Hnd : NoDup ["call_0"]).
  { constructor; [intros [] | constructor]. }
  destruct (toggleExpand_flips "call_1" ["call_0"]) as [_ [Htwice Hkeep]].
  split; [exact Hnd|]. split; [exact (Hkeep Hnd) | exact (Htwice "call_1")].
Defined.

Lemma shown_result_bounded_witness :
  ascii_only "ok" /\ String.length (shown_result "ok") <= 503.
Proof.
  assert (H : ascii_only "ok"). { unfold ascii_only. cbn. repeat constructor. }
  split; [exact H|]. apply (shown_result_bounded "ok" H).
Defined.

End ToolCallDisplayFacts.

(* ================================================================== *)
(** * Properties of the server form *)
(* ================================================================== *)

Module ServerModalFacts.
Import ServerModal ServerModalSpec.
Local Open Scope list_scope.

Section Handlers.
Variable Date_now : Z.
Variable fetch_discover : MCPServerConfig -> Completion FetchResponse.


(** X26. A form whose fields are ASCII text and whose name is blank, or
    whose command (for stdio) or URL (for http) is blank, is refused: one
    alert is shown, no request is sent, and the list and the form stay as
    they are. *)
Theorem handleAddServer_refuses (st : State) :
  ascii_form st ->
  refused st = true ->
  handleAddServer Date_now fetch_discover st
  = (Normal tt,
     {| servers := servers st; serverType := serverType st;
        serverName := serverName st; command := command st; args := args st;
        envVars := envVars st; serverUrl := serverUrl st;
        isDiscovering := isDiscovering st;
        alerts := alerts st ++ [refusal st];
        requests := requests st |}).
Proof.
  intros _ Href. unfold refused in Href. unfold handleAddServer, refusal.
  unfold bind at 1. unfold gets at 1.
  destruct (blank (serverName st)); [reflexivity|].
  destruct ((serverType st =? "stdio") && blank (command st)); [reflexivity|].
  cbn [orb] in Href. rewrite Href. reflexivity.
Qed.


Lemma in_set (k k' : string) (v v' : string) (m : JsMap.t string) :
  In (k, v) (JsMap.set k' v' m) -> (k = k' /\ v = v') \/ In (k, v) m.
Proof.
  induction m as [|[k0 v0] m IH]; cbn.
  - intros [H|[]]. injection H as <- <-. left. split; reflexivity.
  - destruct (k' =? k0) eqn:E; cbn.
    + apply String.eqb_eq in E. subst k0.
      intros [H|H]; [injection H as <- <-; left; split; reflexivity|].
      right. right. exact H.
    + intros [H|H]; [right; left; exact H|].
      destruct (IH H) as [Heq|Hin]; [left; exact Heq | right; right; exact Hin].
Qed.

Lemma env_object_nonblank (vars : list EnvVar) (k v : string) :
  In (k, v) (env_object vars) -> k <> EmptyString /\ v <> EmptyString.
Proof.
  unfold env_object.
  assert (Hgen : forall acc,
            (forall k v, In (k, v) acc -> k <> EmptyString /\ v <> EmptyString) ->
            In (k, v)
              (fold_left
                 (fun envObject x =>
                    if negb (blank (key x)) && negb (blank (value x))
                       && negb (trim (key x) =? "__proto__")
                    then JsMap.set (trim (key x)) (trim (value x)) envObject
                    else envObject) vars acc) ->
            k <> EmptyString /\ v <> EmptyString).
  { induction vars as [|x vars IH]; intros acc Hacc; cbn [fold_left].
    - apply Hacc.
    - apply IH. intros k0 v0.
      destruct (negb (blank (key x)) && negb (blank (value x))
                && negb (trim (key x) =? "__proto__")) eqn:E;
        [|apply Hacc].
      apply andb_true_iff in E as [E _].
      apply andb_true_iff in E as [Hk Hv].
      apply negb_true_iff, String.eqb_neq in Hk.
      apply negb_true_iff, String.eqb_neq in Hv.
      intros Hin. destruct (in_set _ _ _ _ _ Hin) as [[-> ->]|Hin'].
      + split; assumption.
      + apply Hacc. exact Hin'. }
  apply Hgen. intros k0 v0 [].
Qed.

(** X28. For a form whose fields are ASCII text and that is not refused,
    the configuration that the form sends to the discovery route and
    stores is never incomplete: its name is not empty; a stdio
    configuration has a command that is not empty, so the default
    ['npx'] of the routes is never used for it, and no URL; any other has a
    URL, not empty for http; environment variables, when present, are not
    an empty object and have no empty name or value. *)
Theorem new_server_complete (st : State) :
  ascii_form st ->
  refused st = false ->
  name (new_server Date_now st) <> EmptyString
  /\ (type (new_server Date_now st) = "stdio" ->
      command_of (new_server Date_now st) = Some (trim (command st))
      /\ trim (command st) <> EmptyString
      /\ or_default (command_of (new_server Date_now st)) "npx"
         = trim (command st)
      /\ url_of (new_server Date_now st) = None)
  /\ (type (new_server Date_now st) <> "stdio" ->
      command_of (new_server Date_now st) = None
      /\ url_of (new_server Date_now st) = Some (trim (serverUrl st))
      /\ (type (new_server Date_now st) = "http" ->
          trim (serverUrl st) <> EmptyString))
  /\ (forall e, env (new_server Date_now st) = Some e ->
        e <> []
        /\ forall k v, In (k, v) e -> k <> EmptyString /\ v <> EmptyString).
Proof.
  intros _ Href. unfold refused in Href.
  apply orb_false_iff in Href as [Href Hurl].
  apply orb_false_iff in Href as [Hname Hcmd].
  unfold blank in Hname. apply String.eqb_neq in Hname.
  unfold new_server, command_of, url_of.
  destruct (serverType st =? "stdio") eqn:Hstdio;
    cbn -[trim env_object blank String.eqb].
  - cbn [andb] in Hcmd. unfold blank in Hcmd. apply String.eqb_neq in Hcmd.
    split; [exact Hname|]. split.
    + intros _. split; [reflexivity|]. split; [exact Hcmd|].
      split; [|reflexivity].
      destruct (trim (command st) =? EmptyString) eqn:E; [|reflexivity].
      apply String.eqb_eq in E. contradiction.
    + split.
      * intros Hne. apply String.eqb_eq in Hstdio. contradiction.
      * intros e He.
        destruct (env_object (envVars st)) as [|pair rest] eqn:Henv;
          [discriminate He|].
        injection He as <-. split; [discriminate|].
        intros k v Hin. apply (env_object_nonblank (envVars st)).
        rewrite Henv. exact Hin.
  - split; [exact Hname|]. split.
    + intros Heq. apply String.eqb_neq in Hstdio. contradiction.
    + split.
      * intros _. split; [reflexivity|]. split; [reflexivity|].
        intros Hhttp. apply String.eqb_eq in Hhttp. rewrite Hhttp in Hurl.
        cbn [andb] in Hurl. unfold blank in Hurl.
        apply String.eqb_neq in Hurl. exact Hurl.
      * intros e He. discriminate He.
Qed.

End Handlers.

(** X29. Removing a server never throws, even when the request fails: the
    entries with that id leave the list, the others stay in order, and
    one update request is sent with the remaining entries. *)
Theorem handleRemoveServer_removes
    (manage_fails : option JsValue) (serverId : string) (st : State) :
  handleRemoveServer manage_fails serverId st
  = (Normal tt,
     {| servers := without serverId (servers st); serverType := serverType st;
        serverName := serverName st; command := command st; args := args st;
        envVars := envVars st; serverUrl := serverUrl st;
        isDiscovering := isDiscovering st;
        alerts := alerts st;
        requests := requests st ++ [ManageUpdate (without serverId (servers st))] |})
  /\ (forall a, In a (without serverId (servers st))
                <-> In a (servers st) /\ id (server a) <> serverId)
  /\ ((forall a, In a (servers st) -> id (server a) <> serverId) ->
      without serverId (servers st) = servers st).
Proof.
  split; [|split].
  - unfold handleRemoveServer, try_catch, bind, gets, setServers, sent, modify,
      ret, throw.
    destruct manage_fails; reflexivity.
  - intros a. unfold without. rewrite filter_In.
    rewrite negb_true_iff, String.eqb_neq. reflexivity.
  - intros Hall. unfold without.
    induction (servers st) as [|a l IH]; [reflexivity|].
    cbn [filter].
    assert (Ha : (id (server a) =? serverId) = false).
    { apply String.eqb_neq. apply Hall. left. reflexivity. }
    rewrite Ha. cbn [negb]. rewrite IH; [reflexivity|].
    intros b Hb. apply Hall. right. exact Hb.
Qed.

Lemma nth_error_update_at {A} (i j : nat) (f : A -> A) (l : list A) :
  nth_error (update_at i f l) j
  = if (j =? i)%nat then option_map f (nth_error l j) else nth_error l j.
Proof.
  revert i j. induction l as [|x l IH]; intros i j.
  - assert (Hnil : update_at i f (@nil A) = []) by (destruct i; reflexivity).
    rewrite Hnil. destruct (j =? i)%nat; destruct j; reflexivity.
  - destruct i as [|i], j as [|j]; cbn; try reflexivity. apply IH.
Qed.

Lemma length_update_at {A} (i : nat) (f : A -> A) (l : list A) :
  length (update_at i f l) = length l.
Proof.
  revert i. induction l as [|x l IH]; intros [|i]; cbn; try reflexivity.
  rewrite IH. reflexivity.
Qed.

Lemma nth_error_remove_at {A} (i j : nat) (l : list A) :
  nth_error (remove_at i l) j
  = if (j <? i)%nat then nth_error l j else nth_error l (S j).
Proof.
  revert i j. induction l as [|x l IH]; intros i j.
  - assert (Hnil : remove_at i (@nil A) = []) by (destruct i; reflexivity).
    rewrite Hnil. destruct (j <? i)%nat; destruct j; reflexivity.
  - destruct i as [|i]; [destruct j; reflexivity|].
    destruct j as [|j]; [reflexivity|]. cbn [remove_at nth_error].
    rewrite IH. reflexivity.
Qed.

(** X30. Editing a field of an environment variable changes that field
    of the variable at the index and nothing else, and the list keeps its
    length; removing a variable shifts the later ones by one place and
    leaves the earlier ones; an index past the end changes nothing. *)
Theorem env_var_editing (index : nat) (field v : string) (st : State) :
  (forall j,
     nth_error (envVars (snd (handleEnvVarChange index field v st))) j
     = if (j =? index)%nat
       then option_map (with_field field v) (nth_error (envVars st) j)
       else nth_error (envVars st) j)
  /\ length (envVars (snd (handleEnvVarChange index field v st)))
     = length (envVars st)
  /\ (forall j,
        nth_error (envVars (snd (handleRemoveEnvVar index st))) j
        = if (j <? index)%nat then nth_error (envVars st) j
          else nth_error (envVars st) (S j))
  /\ (length (envVars st) <= index ->
      envVars (snd (handleRemoveEnvVar index st)) = envVars st
      /\ envVars (snd (handleEnvVarChange index field v st)) = envVars st).
Proof.
  cbn [handleEnvVarChange handleRemoveEnvVar setEnvVars modify snd envVars].
  split; [intros j; apply nth_error_update_at|].
  split; [apply length_update_at|].
  split; [intros j; apply nth_error_remove_at|].
  intros Hlen. split.
  - revert index Hlen. induction (envVars st) as [|x l IH]; intros i Hlen.
    + destruct i; reflexivity.
    + destruct i as [|i]; [cbn in Hlen; lia|]. cbn [remove_at].
      rewrite IH by (cbn in Hlen; lia). reflexivity.
  - revert index Hlen. induction (envVars st) as [|x l IH]; intros i Hlen.
    + destruct i; reflexivity.
    + destruct i as [|i]; [cbn in Hlen; lia|]. cbn [update_at].
      rewrite IH by (cbn in Hlen; lia). reflexivity.
Qed.

(** *** Concrete runs *)

Ltac ascii_form_tac :=
  unfold ascii_form, ascii_only; cbn;
  repeat first [apply Forall_nil | apply Forall_cons | split
               | progress (unfold ascii_only; cbn) | lia].

Lemma ascii_form_sample : ascii_form Sample3.form.
Proof. ascii_form_tac. Defined.

Lemma ascii_form_without_command : ascii_form Sample3.form_without_command.
Proof. ascii_form_tac. Defined.

(** The server added for the sample form when the network is down. *)
Example handleAddServer_sample :
  servers (snd (handleAddServer 1700000000000 Sample3.network_down Sample3.form))
  = [{| server :=
          Build_MCPServerConfig "1700000000000" "canvas" "stdio" (Some "npx")
            (Some ["-y"; "canvas-mcp"]) (Some [("TOKEN", "abc")]) None;
        tools := JArr [] |}].
Proof. vm_compute. reflexivity. Qed.

(** A variable named [__proto__] leaves no entry in the environment. *)
Example env_object_without_proto :
  env_object [{| key := "__proto__"; value := "x" |};
              {| key := " A "; value := "b" |}]
  = [("A", "b")].
Proof. vm_compute. reflexivity. Qed.

Lemma handleAddServer_refuses_witness :
  ascii_form Sample3.form_without_command
  /\ refused Sample3.form_without_command = true
  /\ alerts (snd (handleAddServer 1700000000000 Sample3.network_down
                    Sample3.form_without_command))
     = ["Please enter a command for stdio server"]
  /\ requests (snd (handleAddServer 1700000000000 Sample3.network_down
                      Sample3.form_without_command))
     = [].
Proof.
  split; [exact ascii_form_without_command|]. split; [reflexivity|].
  rewrite (handleAddServer_refuses 1700000000000 Sample3.network_down
             Sample3.form_without_command ascii_form_without_command eq_refl).
  split; reflexivity.
Defined.


Lemma new_server_complete_witness :
  ascii_form Sample3.form
  /\ refused Sample3.form = false
  /\ name (new_server 1700000000000 Sample3.form) <> EmptyString.
Proof.
  split; [exact ascii_form_sample|]. split; [reflexivity|].
  apply (new_server_complete 1700000000000 Sample3.form ascii_form_sample
           eq_refl).
Defined.

Lemma handleRemoveServer_removes_witness :
  servers (snd (handleRemoveServer (Some (JError "TypeError" "Failed to fetch"))
                  "a" Sample3.two_servers))
  = [{| server := Sample.files; tools := JArr [] |}].
Proof.
  destruct (handleRemoveServer_removes
              (Some (JError "TypeError" "Failed to fetch")) "a"
              Sample3.two_servers) as [Hrun _].
  rewrite Hrun. reflexivity.
Defined.

Lemma env_var_editing_witness :
  length (envVars (snd (handleEnvVarChange 1 "value" "x" Sample3.form)))
  = length (envVars Sample3.form).
Proof.
  apply (env_var_editing 1 "value" "x" Sample3.form).
Defined.

End ServerModalFacts.
